(** * auto-merge-successful-pr.py: a shallow embedding and its properties

    The script lists the open pull requests of a repository with the [gh]
    command-line tool, filters them through a chain of Python generators
    (labels or bot author, mergeability, status checks) and, for every pull
    request that survives, either approves and merges it or, when another
    pull request was already merged into the same base branch during the
    run, asks for a rebase.

    Strings are Rocq strings (byte strings, a non-ASCII character being its
    UTF-8 bytes; a Python [str] is valid UTF-8), Python [int]s are [Z], lists are lists, the [merged] dict
    is a [gmap] from branch names to pull requests.  Generators and the
    effects they interleave (printing, running a command, raising) are
    finite trees, interpreted against a host that answers commands. *)

From Stdlib Require Import Ascii String ZArith Sorted.
From stdpp Require Import gmap strings list pretty sorting.

Open Scope string_scope.
Open Scope list_scope.
Open Scope Z_scope.

(** ** Data model *)

(** A raw check record, as decoded from the output of
    [gh pr checks N --json bucket,name]: a dict with the two keys [name]
    and [bucket]. *)
Record CheckObj := {
  obj_name : string;
  obj_bucket : string;
}.

(** [@dataclass PullRequestCheck]. *)
Record PullRequestCheck := {
  name : string;
  bucket : string;
}.

(** The dataclass value built from a raw record by keyword expansion,
    read for its [bucket] only. *)
Definition PullRequestCheck_of (check_obj : CheckObj) : PullRequestCheck :=
  {| name := obj_name check_obj; bucket := obj_bucket check_obj |}.

(** [@dataclass PullRequestChecks].  The fields are annotated
    [list[PullRequestCheck]] in the source, but [from_list] appends the raw
    records, so that is what the lists hold. *)
Record PullRequestChecks := {
  passed : list CheckObj;
  failed : list CheckObj;
  pending : list CheckObj;
  skipping : list CheckObj;
  cancel : list CheckObj;
}.

(** One iteration of the loop of [PullRequestChecks.from_list]. *)
Definition from_list_step (acc : PullRequestChecks) (check_obj : CheckObj)
  : PullRequestChecks :=
  let check := PullRequestCheck_of check_obj in
  if decide (bucket check = "pass") then
    {| passed := passed acc ++ [check_obj]; failed := failed acc;
       pending := pending acc; skipping := skipping acc; cancel := cancel acc |}
  else if decide (bucket check = "fail") then
    {| passed := passed acc; failed := failed acc ++ [check_obj];
       pending := pending acc; skipping := skipping acc; cancel := cancel acc |}
  else if decide (bucket check = "pending") then
    {| passed := passed acc; failed := failed acc;
       pending := pending acc ++ [check_obj]; skipping := skipping acc;
       cancel := cancel acc |}
  else if decide (bucket check = "skipping") then
    {| passed := passed acc; failed := failed acc;
       pending := pending acc; skipping := skipping acc ++ [check_obj];
       cancel := cancel acc |}
  else if decide (bucket check = "cancel") then
    {| passed := passed acc; failed := failed acc;
       pending := pending acc; skipping := skipping acc;
       cancel := cancel acc ++ [check_obj] |}
  else acc.

(** [PullRequestChecks.from_list]: five empty lists, then the loop. *)
Definition from_list (checks : list CheckObj) : PullRequestChecks :=
  foldl from_list_step
    {| passed := []; failed := []; pending := []; skipping := [];
       cancel := [] |}
    checks.

(** [@dataclass PullRequestAuthor]. *)
Record PullRequestAuthor := {
  is_bot : bool;
  login : string;
  author_id : option string;
  author_name : option string;
}.

(** A label of a pull request as [gh] lists it: a dict of which the script
    reads the key [name] only. *)
Record LabelObj := {
  label_name : string;
}.

(** [@dataclass PullRequest]. *)
Record PullRequest := {
  number : Z;
  author : PullRequestAuthor;
  title : string;
  labels : list LabelObj;
  mergeable : string;
  baseRefName : string;
  checks : option PullRequestChecks;
}.

(** [pr.checks = c]: the one mutation of a pull request. *)
Definition set_checks (pr : PullRequest) (c : PullRequestChecks) : PullRequest :=
  {| number := number pr; author := author pr; title := title pr;
     labels := labels pr; mergeable := mergeable pr;
     baseRefName := baseRefName pr; checks := Some c |}.

(** The module-level configuration, read from the environment when the
    script starts. *)
Record Config := {
  APPROVE_MSG : string;
  BOT_AUTHORS : list string;
  DRY_RUN : bool;
  LABELS : list string;
  MIN_PASSING_CHECKS : Z;
}.

(** The configuration of an empty environment. *)
Definition default_config : Config :=
  {| APPROVE_MSG := "All status checks passed for PR #{}.";
     BOT_AUTHORS := [];
     DRY_RUN := true;
     LABELS := ["automerge"];
     MIN_PASSING_CHECKS := 1 |}.

(** ** Strings *)

(** The double quote and the newline, as one-character strings. *)
Definition dquote : string := String "034"%char EmptyString.
Definition newline : string := String "010"%char EmptyString.

(** The white space that [str.strip] removes is the set of characters for
    which [str.isspace] holds.  Those below 128 are one byte each: tab, line
    feed, vertical tab, form feed, carriage return, the four separators 28
    to 31 and the space. *)
Definition is_space (c : ascii) : bool :=
  let n := nat_of_ascii c in
  ((9 <=? n)%nat && (n <=? 13)%nat) || ((28 <=? n)%nat && (n <=? 32)%nat).

(** Those of two bytes in UTF-8: U+0085 (194 133) and U+00A0 (194 160). *)
Definition is_space2 (c1 c2 : ascii) : bool :=
  let n1 := nat_of_ascii c1 in
  let n2 := nat_of_ascii c2 in
  (n1 =? 194)%nat && ((n2 =? 133)%nat || (n2 =? 160)%nat).

(** Those of three bytes: U+1680 (225 154 128), U+2000 to U+200A
    (226 128 128 to 226 128 138), U+2028, U+2029 and U+202F (226 128 168,
    169 and 175), U+205F (226 129 159) and U+3000 (227 128 128). *)
Definition is_space3 (c1 c2 c3 : ascii) : bool :=
  let n1 := nat_of_ascii c1 in
  let n2 := nat_of_ascii c2 in
  let n3 := nat_of_ascii c3 in
  ((n1 =? 225)%nat && (n2 =? 154)%nat && (n3 =? 128)%nat)
  || ((n1 =? 226)%nat && (n2 =? 128)%nat
      && (((128 <=? n3)%nat && (n3 <=? 138)%nat)
          || (n3 =? 168)%nat || (n3 =? 169)%nat || (n3 =? 175)%nat))
  || ((n1 =? 226)%nat && (n2 =? 129)%nat && (n3 =? 159)%nat)
  || ((n1 =? 227)%nat && (n2 =? 128)%nat && (n3 =? 128)%nat).

(** Removing the white space at the front of [s].  With [backwards] the
    string is read from its end, so the bytes of a character come last
    byte first. *)
Fixpoint strip_front (backwards : bool) (s : string) : string :=
  match s with
  | String c1 s1 =>
      if is_space c1 then strip_front backwards s1
      else
        match s1 with
        | String c2 s2 =>
            if (if backwards then is_space2 c2 c1 else is_space2 c1 c2)
            then strip_front backwards s2
            else
              match s2 with
              | String c3 s3 =>
                  if (if backwards then is_space3 c3 c2 c1
                      else is_space3 c1 c2 c3)
                  then strip_front backwards s3
                  else s
              | EmptyString => s
              end
        | EmptyString => s
        end
  | EmptyString => EmptyString
  end.

Definition lstrip (s : string) : string := strip_front false s.

Definition rstrip (s : string) : string :=
  String.rev (strip_front true (String.rev s)).

(** [s.strip()]. *)
Definition strip (s : string) : string := rstrip (lstrip s).

(** [sep.join(l)]. *)
Definition join (sep : string) (l : list string) : string := String.concat sep l.

(** [format(s, "<n")]: pad with spaces on the right up to width [n]. *)
Definition ljust (n : nat) (s : string) : string :=
  s +:+ string_of_list_ascii (replicate (n - String.length s) " "%char).

(** [tab]. *)
Definition tab (text : string) : string := "   └── " +:+ text.

(** The truth value of a list, and Python's [or] on integers. *)
Definition truthy {A} (l : list A) : bool :=
  match l with [] => false | _ :: _ => true end.

Definition int_or (a b : Z) : Z := if decide (a = 0) then b else a.

Definition len {A} (l : list A) : Z := Z.of_nat (length l).

(** ** Effects *)

(** What the script can raise.  [Exception] is the one [sh] raises itself;
    the others stand for the errors of the library calls: [HostError] for
    [shlex.split] or [subprocess.run] raising, [DecodeError] for
    [json.loads] or the construction of a record from its result raising,
    [FormatError] for [str.format] raising. *)
Inductive PyExn :=
| Exception (msg : string)
| HostError
| DecodeError
| FormatError.

(** The result of [subprocess.run], as far as the script reads it. *)
Record CompletedProcess := {
  returncode : Z;
  stdout : string;
  stderr : string;
}.

(** A computation that may print, run a command, yield values of type [Y]
    to its consumer, raise, or return an [R].  A generator is a [Gen Y unit];
    an ordinary function is a [Gen Y R] that does not yield. *)
Inductive Gen (Y R : Type) : Type :=
| Ret (r : R)
| Raise (e : PyExn)
| Yield (y : Y) (k : Gen Y R)
| Print (line : string) (k : Gen Y R)
| Run (cmd : string) (k : CompletedProcess -> Gen Y R).

Arguments Ret {Y R} r.
Arguments Raise {Y R} e.
Arguments Yield {Y R} y k.
Arguments Print {Y R} line k.
Arguments Run {Y R} cmd k.

(** Sequencing: run [m], then [f] on its result. *)
Fixpoint gbind {Y R R'} (m : Gen Y R) (f : R -> Gen Y R') : Gen Y R' :=
  match m with
  | Ret r => f r
  | Raise e => Raise e
  | Yield y k => Yield y (gbind k f)
  | Print line k => Print line (gbind k f)
  | Run cmd k => Run cmd (fun res => gbind (k res) f)
  end.

#[global] Instance Gen_ret {Y} : MRet (Gen Y) := fun _ r => Ret r.
#[global] Instance Gen_bind {Y} : MBind (Gen Y) := fun _ _ f m => gbind m f.

(** [for y in g: s = body(y, s)], inside a function that may itself yield
    values of type [Y'].  The generator [g] runs until its next [yield], the
    body runs, and [g] is resumed: the effects of the two interleave as the
    effects of a Python generator and of its consumer do.  An exception
    raised on either side ends the loop and propagates. *)
Fixpoint for_each {Y Y' S} (g : Gen Y unit) (s : S) (body : Y -> S -> Gen Y' S)
  : Gen Y' S :=
  match g with
  | Ret _ => Ret s
  | Raise e => Raise e
  | Yield y k => gbind (body y s) (fun s' => for_each k s' body)
  | Print line k => Print line (for_each k s body)
  | Run cmd k => Run cmd (fun res => for_each (k res) s body)
  end.

(** [for x in l: body(x)] over a list. *)
Fixpoint for_list {A Y} (l : list A) (body : A -> Gen Y unit) : Gen Y unit :=
  match l with
  | [] => Ret tt
  | x :: l' => gbind (body x) (fun _ => for_list l' body)
  end.

(** The message of the exception that [sh] raises. *)
Definition sh_error (cmd : string) (result : CompletedProcess) : string :=
  "Error running command: " +:+ cmd +:+ newline +:+ "Error: "
  +:+ stderr result.

(** [sh]. *)
Definition sh {Y} (cmd : string) (dry_run : bool) : Gen Y string :=
  if dry_run then
    Print (tab ("Would run: " +:+ cmd)) (Ret "")
  else
    Run cmd (fun result =>
      if decide (returncode result ≠ 0) then
        Raise (Exception (sh_error cmd result))
      else Ret (strip (stdout result))).

(** ** The pipeline *)

(** An entry of [gh pr list --json number,labels,title]. *)
Record PrListItem := {
  item_number : Z;
  item_labels : list LabelObj;
  item_title : string;
}.

(** The answer of [gh pr view N --json mergeable,baseRefName,author], its
    author already a [PullRequestAuthor]. *)
Record PrView := {
  view_mergeable : string;
  view_baseRefName : string;
  view_author : PullRequestAuthor;
}.

(** The library functions the script calls on strings.  The three decoders
    are [json.loads] at the three places it is used, followed by the typed
    reading of the result; [None] is a raised exception. *)
Class PyLib := {
  json_loads_prs : string -> option (list PrListItem);
  json_loads_view : string -> option PrView;
  json_loads_checks : string -> option (list CheckObj);
  (** [template.format(n)] *)
  str_format : string -> Z -> option string;
  (** [repr] of a list of strings *)
  repr_list : list string -> string;
}.

(** [sorted(l, key=lambda pr: pr["number"])]: a stable sort, by insertion. *)
Fixpoint insert_by_number (x : PrListItem) (l : list PrListItem)
  : list PrListItem :=
  match l with
  | [] => [x]
  | y :: l' =>
      if decide (item_number x <= item_number y) then x :: y :: l'
      else y :: insert_by_number x l'
  end.

Definition sorted_by_number (l : list PrListItem) : list PrListItem :=
  foldr insert_by_number [] l.

(** The pull request built from a list entry updated with its view. *)
Definition PullRequest_of (pr_dict : PrListItem) (view : PrView) : PullRequest :=
  {| number := item_number pr_dict; author := view_author view;
     title := item_title pr_dict; labels := item_labels pr_dict;
     mergeable := view_mergeable view; baseRefName := view_baseRefName view;
     checks := None |}.

(** The command lines. *)
Definition list_cmd : string :=
  "gh pr list --state open --json number,labels,title".
Definition view_cmd (n : Z) : string :=
  "gh pr view " +:+ pretty n +:+ " --json mergeable,baseRefName,author".
Definition checks_cmd (n : Z) : string :=
  "gh pr checks " +:+ pretty n +:+ " --json bucket,name".
Definition review_cmd (n : Z) (msg : string) : string :=
  "gh pr review " +:+ pretty n +:+ " --comment -b " +:+ dquote +:+ msg +:+ dquote.
Definition merge_cmd (n : Z) : string :=
  "gh pr merge " +:+ pretty n +:+ " --admin --squash".
Definition rebase_cmd (n : Z) : string :=
  "gh pr update-branch " +:+ pretty n +:+ " --rebase".

Section Pipeline.
Context `{PyLib}.
Variable cfg : Config.

(** The line that [get_pull_requests] prints for a pull request. *)
Definition pr_line (pr : PullRequest) : string :=
  "PR #" +:+ ljust 5 (pretty (number pr)) +:+ " - '" +:+ title pr +:+ "' by "
  +:+ login (author pr).

(** The body of the loop of [get_pull_requests], on one entry of the
    listing. *)
Definition get_pull_requests_body (pr_dict : PrListItem)
  : Gen PullRequest unit :=
  view_json ← sh (view_cmd (item_number pr_dict)) false;
  match json_loads_view view_json with
  | None => Raise DecodeError
  | Some view =>
      let pr := PullRequest_of pr_dict view in
      Print (pr_line pr) (Yield pr (Ret tt))
  end.

(** [get_pull_requests]. *)
Definition get_pull_requests : Gen PullRequest unit :=
  prs_json ← sh list_cmd false;
  match json_loads_prs prs_json with
  | None => Raise DecodeError
  | Some prs_list =>
      for_list (sorted_by_number prs_list) get_pull_requests_body
  end.

(** The names of the required labels that [pr] lacks. *)
Definition missing_labels (pr : PullRequest) : list string :=
  let pr_labels := label_name <$> labels pr in
  filter (fun req => req ∉ pr_labels) (LABELS cfg).

(** The body of the loop of [match_labels_or_bot]. *)
Definition match_labels_or_bot_body (pr : PullRequest) (_ : unit)
  : Gen PullRequest unit :=
  if is_bot (author pr)
     && bool_decide (login (author pr) ∈ BOT_AUTHORS cfg)
  then Print (tab "is bot author") (Yield pr (Ret tt))
  else
    let missing := missing_labels pr in
    if negb (truthy (LABELS cfg)) || negb (truthy missing)
    then Print (tab "matches labels") (Yield pr (Ret tt))
    else Print (tab ("skipped not labeled with labels="
                     +:+ join "," missing)) (Ret tt).

(** [match_labels_or_bot]. *)
Definition match_labels_or_bot (prs : Gen PullRequest unit)
  : Gen PullRequest unit :=
  Print ("LABELS=" +:+ repr_list (LABELS cfg))
    (for_each prs tt match_labels_or_bot_body).

(** The body of the loop of [mergeable_prs]. *)
Definition mergeable_prs_body (pr : PullRequest) (_ : unit)
  : Gen PullRequest unit :=
  if decide (mergeable pr = "MERGEABLE")
  then Print (tab "is mergeable") (Yield pr (Ret tt))
  else Print (tab "not mergeable") (Ret tt).

(** [mergeable_prs]. *)
Definition mergeable_prs (prs : Gen PullRequest unit) : Gen PullRequest unit :=
  for_each prs tt mergeable_prs_body.

(** The two rejection lines of [check_prs_ready]. *)
Definition not_passing_msg : string := tab "skipped tests are not passing".
Definition too_few_msg (checks_passed : Z) : string :=
  tab ("skipped passing but with too few checks (" +:+ pretty checks_passed
       +:+ ")").

(** The body of the loop of [check_prs_ready]. *)
Definition check_prs_ready_body (pr : PullRequest) (_ : unit)
  : Gen PullRequest unit :=
  checks_json ← sh (checks_cmd (number pr)) false;
  match json_loads_checks checks_json with
  | None => Raise DecodeError
  | Some checks_list =>
      let c := from_list checks_list in
      let pr := set_checks pr c in
      let checks_passed := len (passed c) in
      let any_unready :=
        int_or (int_or (len (failed c)) (len (pending c))) (len (cancel c)) in
      if decide (any_unready ≠ 0) then Print not_passing_msg (Ret tt)
      else if decide (checks_passed < MIN_PASSING_CHECKS cfg)
      then Print (too_few_msg checks_passed) (Ret tt)
      else Yield pr (Ret tt)
  end.

(** [check_prs_ready]. *)
Definition check_prs_ready (prs : Gen PullRequest unit) : Gen PullRequest unit :=
  for_each prs tt check_prs_ready_body.

(** [approve_and_merge_pr]; the result is the dict [merged] after the
    call. *)
Definition approve_and_merge_pr {Y} (pr : PullRequest)
    (merged : gmap string PullRequest) : Gen Y (gmap string PullRequest) :=
  Print (tab "is ready to merging")
    (match str_format (APPROVE_MSG cfg) (number pr) with
     | None => Raise FormatError
     | Some msg =>
         _ ← sh (review_cmd (number pr) msg) (DRY_RUN cfg);
         _ ← sh (merge_cmd (number pr)) (DRY_RUN cfg);
         _ ← (if negb (DRY_RUN cfg)
              then Print (tab ("merged to " +:+ baseRefName pr)) (Ret tt)
              else Ret tt);
         Ret (<[baseRefName pr := pr]> merged)
     end).

(** [rebase_pr]. *)
Definition rebase_pr {Y} (pr : PullRequest) : Gen Y unit :=
  Print (tab ("needs to be rebased from " +:+ baseRefName pr))
    (_ ← sh (rebase_cmd (number pr)) (DRY_RUN cfg); Ret tt).

(** The body of the loop of [process_pull_requests], on the pull request
    [pr] with the dict [merged] as it stands. *)
Definition merge_or_rebase (pr : PullRequest)
    (merged : gmap string PullRequest)
  : Gen Empty_set (gmap string PullRequest) :=
  match merged !! baseRefName pr with
  | None => approve_and_merge_pr pr merged
  | Some _ => _ ← rebase_pr pr; Ret merged
  end.

(** The loop of [process_pull_requests] over the generator [ready],
    starting from [merged = {}]; the result is [merged] at the end. *)
Definition coordinate (ready : Gen PullRequest unit)
  : Gen Empty_set (gmap string PullRequest) :=
  for_each ready ∅ merge_or_rebase.

(** The generator chain of [process_pull_requests]. *)
Definition ready_prs : Gen PullRequest unit :=
  let prs := get_pull_requests in
  let labelled := match_labels_or_bot prs in
  let checkable := mergeable_prs labelled in
  check_prs_ready checkable.

(** [process_pull_requests]. *)
Definition process_pull_requests : Gen Empty_set unit :=
  _ ← coordinate ready_prs; Ret tt.

End Pipeline.

(** ** Running a computation against a host *)

(** The machine the script runs on: [subprocess_run cmd w] is
    [subprocess.run(shlex.split(cmd), ...)] in the state [w] of the outside
    world (the repository on the hosting service included); it gives the
    completed process, or [None] when the call itself raises, and the state
    afterwards. *)
Class Host := {
  World : Type;
  subprocess_run : string -> World -> option CompletedProcess * World;
}.

(** What a run does that can be seen from outside. *)
Inductive Event :=
| EvPrint (line : string)
| EvRun (cmd : string) (res : option CompletedProcess).

Inductive Outcome (R : Type) :=
| Returned (r : R)
| Raised (e : PyExn).

Arguments Returned {R} r.
Arguments Raised {R} e.

Record Result (W Y R : Type) := {
  trace : list Event;
  yields : list Y;
  outcome : Outcome R;
  world : W;
}.

Arguments trace {W Y R} _.
Arguments yields {W Y R} _.
Arguments outcome {W Y R} _.
Arguments world {W Y R} _.

(** [r], after the events [evs] and the yielded values [ys]. *)
Definition after {W Y R} (evs : list Event) (ys : list Y) (r : Result W Y R)
  : Result W Y R :=
  {| trace := evs ++ trace r; yields := ys ++ yields r;
     outcome := outcome r; world := world r |}.

(** [r], then [f] on what it returned and the world it left, if it
    returned. *)
Definition and_then {W Y R R'} (r : Result W Y R)
    (f : R -> W -> Result W Y R') : Result W Y R' :=
  match outcome r with
  | Returned x => after (trace r) (yields r) (f x (world r))
  | Raised e =>
      {| trace := trace r; yields := yields r; outcome := Raised e;
         world := world r |}
  end.

Section Run.
Context `{Host}.

(** The run of [g] from the world [w], driven to its end: every value
    it yields is collected. *)
Fixpoint run {Y R} (g : Gen Y R) (w : World) : Result World Y R :=
  match g with
  | Ret r => {| trace := []; yields := []; outcome := Returned r; world := w |}
  | Raise e => {| trace := []; yields := []; outcome := Raised e; world := w |}
  | Yield y k => after [] [y] (run k w)
  | Print line k => after [EvPrint line] [] (run k w)
  | Run cmd k =>
      match subprocess_run cmd w with
      | (Some res, w') => after [EvRun cmd (Some res)] [] (run (k res) w')
      | (None, w') =>
          {| trace := [EvRun cmd None]; yields := [];
             outcome := Raised HostError; world := w' |}
      end
  end.

(** The run of the loop [for y in g: s = body(y, s)] from the world [w],
    together with its iterations: the values the loop variable took, each
    with the state [s] the body started from. *)
Fixpoint for_run {Y Y' S} (g : Gen Y unit) (s : S)
    (body : Y -> S -> Gen Y' S) (w : World)
  : list (Y * S) * Result World Y' S :=
  match g with
  | Ret _ =>
      ([], {| trace := []; yields := []; outcome := Returned s; world := w |})
  | Raise e =>
      ([], {| trace := []; yields := []; outcome := Raised e; world := w |})
  | Yield y k =>
      let r := run (body y s) w in
      match outcome r with
      | Returned s' =>
          let '(its, r') := for_run k s' body (world r) in
          ((y, s) :: its, after (trace r) (yields r) r')
      | Raised e =>
          ([(y, s)],
           {| trace := trace r; yields := yields r; outcome := Raised e;
              world := world r |})
      end
  | Print line k =>
      let '(its, r) := for_run k s body w in
      (its, after [EvPrint line] [] r)
  | Run cmd k =>
      match subprocess_run cmd w with
      | (Some res, w') =>
          let '(its, r) := for_run (k res) s body w' in
          (its, after [EvRun cmd (Some res)] [] r)
      | (None, w') =>
          ([], {| trace := [EvRun cmd None]; yields := [];
                  outcome := Raised HostError; world := w' |})
      end
  end.

(** The iterations of a loop. *)
Definition iterations {Y Y' S} (g : Gen Y unit) (s : S)
    (body : Y -> S -> Gen Y' S) (w : World) : list (Y * S) :=
  (for_run g s body w).1.

(** The iterations of the same loop, each with the world its body started
    in. *)
Fixpoint entries {Y Y' S} (g : Gen Y unit) (s : S)
    (body : Y -> S -> Gen Y' S) (w : World) : list (Y * S * World) :=
  match g with
  | Ret _ => []
  | Raise _ => []
  | Yield y k =>
      let r := run (body y s) w in
      (y, s, w)
      :: match outcome r with
         | Returned s' => entries k s' body (world r)
         | Raised _ => []
         end
  | Print _ k => entries k s body w
  | Run cmd k =>
      match subprocess_run cmd w with
      | (Some res, w') => entries (k res) s body w'
      | (None, _) => []
      end
  end.

End Run.

(** A generator that yields the elements of a list and does nothing else. *)
Definition gen_of_list {Y} (l : list Y) : Gen Y unit :=
  foldr Yield (Ret tt) l.

(** ** The configuration, from the environment *)

(** [s.split(",")]: the pieces of [s] between its commas; one piece more
    than there are commas, so the empty string gives one empty piece. *)
Fixpoint split_commas (s : string) : list string :=
  match s with
  | EmptyString => [EmptyString]
  | String c s' =>
      if decide (c = ","%char) then EmptyString :: split_commas s'
      else
        match split_commas s' with
        | piece :: pieces => String c piece :: pieces
        | [] => [String c EmptyString]
        end
  end.

(** [[a for a in s.split(",") if a]]. *)
Definition comma_list (s : string) : list string :=
  filter (fun a => a ≠ "") (split_commas s).

(** [os.environ.get(key, default)]. *)
Definition environ_get (environ : gmap string string) (key dflt : string)
  : string :=
  default dflt (environ !! key).

(** The five assignments at the top of the script, in the environment
    [environ].  [int] is Python's [int] on a string, [None] when it raises;
    it is called last, so it is the only thing that can fail. *)
Definition load_config (int : string -> option Z)
    (environ : gmap string string) : option Config :=
  let approve_msg :=
    environ_get environ "APPROVE_MSG" "All status checks passed for PR #{}." in
  let bot_authors := comma_list (environ_get environ "BOT_AUTHORS" "") in
  let dry_run := bool_decide (environ_get environ "DRY_RUN" "true" = "true") in
  let labels := comma_list (environ_get environ "LABELS" "automerge") in
  match int (environ_get environ "MIN_PASSING_CHECKS" "1") with
  | None => None
  | Some min_passing_checks =>
      Some {| APPROVE_MSG := approve_msg; BOT_AUTHORS := bot_authors;
              DRY_RUN := dry_run; LABELS := labels;
              MIN_PASSING_CHECKS := min_passing_checks |}
  end.

(** ** Notions used to state the properties *)

(** The bucket tags that [from_list] tests for. *)
Definition recognized (tag : string) : Prop :=
  tag ∈ ["pass"; "fail"; "pending"; "skipping"; "cancel"].

#[global] Instance recognized_dec tag : Decision (recognized tag) :=
  list_elem_of_dec tag ["pass"; "fail"; "pending"; "skipping"; "cancel"].

(** The records of [l] whose bucket is [tag], in the order of [l]. *)
Definition with_bucket (tag : string) (l : list CheckObj) : list CheckObj :=
  filter (fun o => obj_bucket o = tag) l.

(** The configuration [cfg] with [DRY_RUN] set to [b]. *)
Definition with_dry_run (b : bool) (cfg : Config) : Config :=
  {| APPROVE_MSG := APPROVE_MSG cfg; BOT_AUTHORS := BOT_AUTHORS cfg;
     DRY_RUN := b; LABELS := LABELS cfg;
     MIN_PASSING_CHECKS := MIN_PASSING_CHECKS cfg |}.

(** The commands that read from the hosting service, and those that change
    a pull request. *)
Definition is_query (cmd : string) : Prop :=
  cmd = list_cmd ∨ ∃ n, cmd = view_cmd n ∨ cmd = checks_cmd n.

Definition is_mutation (cmd : string) : Prop :=
  ∃ n, cmd = merge_cmd n ∨ cmd = rebase_cmd n ∨ ∃ msg, cmd = review_cmd n msg.

(** The commands of a run in the mode of [cfg]: the queries, and in live
    mode the approvals, merges and rebases. *)
Definition allowed (cfg : Config) (cmd : string) : Prop :=
  is_query cmd ∨ (DRY_RUN cfg = false ∧ is_mutation cmd).

(** Every command that [g] may run satisfies [P], and is run the way [sh]
    runs it: a non-zero exit status raises the exception of [sh] at once. *)
Inductive ShOnly (P : string -> Prop) {Y R} : Gen Y R -> Prop :=
| ShOnly_Ret r : ShOnly P (Ret r)
| ShOnly_Raise e : ShOnly P (Raise e)
| ShOnly_Yield y k : ShOnly P k -> ShOnly P (Yield y k)
| ShOnly_Print line k : ShOnly P k -> ShOnly P (Print line k)
| ShOnly_Run cmd k :
    P cmd ->
    (forall res, returncode res ≠ 0 ->
                 k res = Raise (Exception (sh_error cmd res))) ->
    (forall res, ShOnly P (k res)) ->
    ShOnly P (Run cmd k).

(** [ys] is a sequence of values that [g] may yield, in order, along one of
    the ways it can unfold, up to some point. *)
Inductive yield_path {Y R} : Gen Y R -> list Y -> Prop :=
| yield_path_nil g : yield_path g []
| yield_path_Yield y k ys : yield_path k ys -> yield_path (Yield y k) (y :: ys)
| yield_path_Print line k ys : yield_path k ys -> yield_path (Print line k) ys
| yield_path_Run cmd k res ys :
    yield_path (k res) ys -> yield_path (Run cmd k) ys.

(** What the body of the loop of [process_pull_requests] does to the dict
    [merged]: the pull request is recorded under its base branch when that
    branch is not a key yet. *)
Definition claim_base (merged : gmap string PullRequest) (pr : PullRequest)
  : gmap string PullRequest :=
  match merged !! baseRefName pr with
  | None => <[baseRefName pr := pr]> merged
  | Some _ => merged
  end.

(** The events of [approve_and_merge_pr] for the pull request [n] of base
    branch [base], approved with the message [msg], when nothing fails:
    in dry mode three printed lines, in live mode the two commands, which
    succeed, between two printed lines. *)
Definition merge_events (dry_run : bool) (n : Z) (msg base : string)
    (tr : list Event) : Prop :=
  if dry_run then
    tr = [EvPrint (tab "is ready to merging");
          EvPrint (tab ("Would run: " +:+ review_cmd n msg));
          EvPrint (tab ("Would run: " +:+ merge_cmd n))]
  else
    ∃ r_review r_merge,
      returncode r_review = 0 ∧ returncode r_merge = 0
      ∧ tr = [EvPrint (tab "is ready to merging");
              EvRun (review_cmd n msg) (Some r_review);
              EvRun (merge_cmd n) (Some r_merge);
              EvPrint (tab ("merged to " +:+ base))].

(** ** Hosts and libraries to run examples on *)

Module Examples.

(** A host that answers each command by a table and records the commands
    it ran, latest first. *)
Definition table_host (answer : string -> option CompletedProcess) : Host :=
  {| World := list string;
     subprocess_run cmd w := (answer cmd, cmd :: w) |}.

Definition ok (out : string) : option CompletedProcess :=
  Some {| returncode := 0; stdout := out; stderr := "" |}.

Definition ko (err : string) : option CompletedProcess :=
  Some {| returncode := 1; stdout := ""; stderr := err |}.

Definition alice : PullRequestAuthor :=
  {| is_bot := false; login := "alice"; author_id := None;
     author_name := Some "Alice" |}.

Definition item5 : PrListItem :=
  {| item_number := 5; item_labels := [ {| label_name := "automerge" |} ];
     item_title := "five" |}.
Definition item7 : PrListItem :=
  {| item_number := 7; item_labels := []; item_title := "seven" |}.

Definition view_main : PrView :=
  {| view_mergeable := "MERGEABLE"; view_baseRefName := "main";
     view_author := alice |}.

Definition two_pass : list CheckObj :=
  [ {| obj_name := "build"; obj_bucket := "pass" |};
    {| obj_name := "test"; obj_bucket := "pass" |} ].

(** Decoders that know three texts; [format] fills the one pair of
    braces of the default message. *)
Definition lib : PyLib :=
  {| json_loads_prs s := if decide (s = "LIST") then Some [item5; item7] else None;
     json_loads_view s := if decide (s = "VIEW") then Some view_main else None;
     json_loads_checks s :=
       if decide (s = "CHECKS") then Some two_pass else None;
     str_format _ n :=
       Some ("All status checks passed for PR #" +:+ pretty n +:+ ".");
     repr_list l := "['" +:+ join "', '" l +:+ "']" |}.

(** Every query succeeds, with a line break after its answer as [gh]
    prints it; every other command succeeds silently. *)
Definition answer_all (cmd : string) : option CompletedProcess :=
  if decide (cmd = list_cmd) then ok ("LIST" +:+ newline)
  else if decide (cmd = view_cmd 5) then ok ("VIEW" +:+ newline)
  else if decide (cmd = view_cmd 7) then ok ("VIEW" +:+ newline)
  else if decide (cmd = checks_cmd 5) then ok ("CHECKS" +:+ newline)
  else ok "".

(** The same, but the merge of pull request 5 fails. *)
Definition answer_merge_fails (cmd : string) : option CompletedProcess :=
  if decide (cmd = merge_cmd 5) then ko "not allowed"
  else answer_all cmd.

Definition live_config : Config := with_dry_run false default_config.

(** Two ready pull requests, 1 and 2, with the base branch [main]. *)
Definition ready1 : PullRequest :=
  {| number := 1; author := alice; title := "one"; labels := [];
     mergeable := "MERGEABLE"; baseRefName := "main";
     checks := Some (from_list two_pass) |}.
Definition ready2 : PullRequest :=
  {| number := 2; author := alice; title := "two"; labels := [];
     mergeable := "MERGEABLE"; baseRefName := "main";
     checks := Some (from_list two_pass) |}.

(** Two ready pull requests with different base branches: 5 for [main]
    and 6 for [dev]. *)
Definition ready5 : PullRequest :=
  {| number := 5; author := alice; title := "five"; labels := [];
     mergeable := "MERGEABLE"; baseRefName := "main";
     checks := Some (from_list two_pass) |}.
Definition ready6 : PullRequest :=
  {| number := 6; author := alice; title := "six"; labels := [];
     mergeable := "MERGEABLE"; baseRefName := "dev";
     checks := Some (from_list two_pass) |}.

End Examples.

(** ** The conditions of the stages, as the specification words them *)

(** The label-or-bot stage: the author is an automation account of the
    allow-list, or no label is required, or every required label is among
    the labels of the pull request. *)
Definition label_or_bot_ok (cfg : Config) (pr : PullRequest) : Prop :=
  (is_bot (author pr) = true ∧ login (author pr) ∈ BOT_AUTHORS cfg)
  ∨ LABELS cfg = []
  ∨ (∀ req, req ∈ LABELS cfg → req ∈ label_name <$> labels pr).

#[global] Instance label_or_bot_ok_dec cfg pr : Decision (label_or_bot_ok cfg pr).
Proof.
  unfold label_or_bot_ok.
  apply or_dec; [apply _|]. apply or_dec; [apply _|].
  apply list_forall_dec; apply _.
Defined.

(** The check-readiness stage: no failed, pending or cancelled check, and
    at least the configured number of passed ones. *)
Definition checks_ok (cfg : Config) (c : PullRequestChecks) : Prop :=
  length (failed c) = 0%nat ∧ length (pending c) = 0%nat
  ∧ length (cancel c) = 0%nat
  ∧ MIN_PASSING_CHECKS cfg <= Z.of_nat (length (passed c)).

#[global] Instance checks_ok_dec cfg c : Decision (checks_ok cfg c).
Proof. unfold checks_ok. apply _. Defined.

(** A pull request without its checks: what stays the same when
    [check_prs_ready] attaches them. *)
Definition forget_checks (pr : PullRequest) : PullRequest :=
  {| number := number pr; author := author pr; title := title pr;
     labels := labels pr; mergeable := mergeable pr;
     baseRefName := baseRefName pr; checks := None |}.

(** On the host, the command [cmd] succeeds in every state of the world,
    and what [sh] then returns satisfies [P]. *)
Definition answers `{Host} (cmd : string) (P : string -> Prop) : Prop :=
  ∀ w, ∃ res w',
    subprocess_run cmd w = (Some res, w') ∧ returncode res = 0
    ∧ P (strip (stdout res)).

(** The string [s] has no comma. *)
Definition comma_free (s : string) : Prop :=
  ","%char ∉ list_ascii_of_string s.

(** The string [s] is made of commas only. *)
Definition only_commas (s : string) : Prop :=
  Forall (fun c => c = ","%char) (list_ascii_of_string s).

Module ConfigExamples.

(** An [int] that reads a few numerals. *)
Definition int (s : string) : option Z :=
  if decide (s = "0") then Some 0
  else if decide (s = "1") then Some 1
  else if decide (s = "2") then Some 2
  else None.

(** An environment that asks for a live run,  with two labels. *)
Definition live_environ : gmap string string :=
  {[ "DRY_RUN" := "false"; "LABELS" := "automerge,ready" ]}.

(** An environment that requires no label. *)
Definition no_label_environ : gmap string string := {[ "LABELS" := "" ]}.

End ConfigExamples.

(** A pull request that the three stages let through: it satisfies the
    label-or-bot condition, it is mergeable, and the checks attached to it
    satisfy the check-readiness condition. *)
Definition eligible (cfg : Config) (pr : PullRequest) : Prop :=
  label_or_bot_ok cfg pr ∧ mergeable pr = "MERGEABLE"
  ∧ ∃ c, checks pr = Some c ∧ checks_ok cfg c.

(** The commands of a trace, in the order they were run. *)
Definition commands_of (tr : list Event) : list string :=
  omap (fun ev => match ev with EvRun cmd _ => Some cmd | EvPrint _ => None end)
    tr.

(** The bucket tags that [check_prs_ready] looks at. *)
Definition counted (tag : string) : Prop :=
  tag ∈ ["pass"; "fail"; "pending"; "cancel"].

Module ChecksExamples.

(** A host that answers every command with the text its world holds. *)
Definition echo_host : Host :=
  {| World := string; subprocess_run cmd w := (Examples.ok w, w) |}.

Definition build : CheckObj := {| obj_name := "build"; obj_bucket := "pass" |}.
Definition test : CheckObj := {| obj_name := "test"; obj_bucket := "pass" |}.
Definition docs : CheckObj :=
  {| obj_name := "docs"; obj_bucket := "skipping" |}.

(** Decoders that also know an empty listing and three texts of checks. *)
Definition lib : PyLib :=
  {| json_loads_prs s :=
       if decide (s = "NONE") then Some []
       else @json_loads_prs Examples.lib s;
     json_loads_view := @json_loads_view Examples.lib;
     json_loads_checks s :=
       if decide (s = "NONE") then Some []
       else if decide (s = "TWO") then Some ([build] ++ [test])
       else if decide (s = "THREE") then Some ([build] ++ docs :: [test])
       else None;
     str_format := @str_format Examples.lib;
     repr_list := @repr_list Examples.lib |}.

(** The fetch of the checks of pull request 1 gives two passed checks, any
    other command gives no check. *)
Definition answer_checks (cmd : string) : option CompletedProcess :=
  if decide (cmd = checks_cmd 1) then Examples.ok "TWO" else Examples.ok "NONE".

End ChecksExamples.

(** The command [cmd] is one of the commands the script runs for the pull
    request with the number [n]. *)
Definition about (n : Z) (cmd : string) : Prop :=
  cmd = view_cmd n ∨ cmd = checks_cmd n ∨ cmd = merge_cmd n
  ∨ cmd = rebase_cmd n ∨ ∃ msg, cmd = review_cmd n msg.

(** The string [s] has no space. *)
Definition space_free (s : string) : Prop :=
  " "%char ∉ list_ascii_of_string s.

(** Every command that [g] may run is about the pull request with the
    number [n], and so is every value it may yield, by its [key]. *)
Inductive Only {Y R} (key : Y -> Z) (n : Z) : Gen Y R -> Prop :=
| Only_Ret r : Only key n (Ret r)
| Only_Raise e : Only key n (Raise e)
| Only_Yield y k : key y = n -> Only key n k -> Only key n (Yield y k)
| Only_Print line k : Only key n k -> Only key n (Print line k)
| Only_Run cmd k :
    about n cmd -> (forall res, Only key n (k res)) -> Only key n (Run cmd k).

(** Along every way [g] can unfold, the numbers of the pull requests that
    its commands are about and of the values it yields never decrease, and
    they start at [lo] or above. *)
Inductive Ascending {Y R} (key : Y -> Z) : Z -> Gen Y R -> Prop :=
| Ascending_Ret lo r : Ascending key lo (Ret r)
| Ascending_Raise lo e : Ascending key lo (Raise e)
| Ascending_Yield lo y k :
    lo <= key y -> Ascending key (key y) k -> Ascending key lo (Yield y k)
| Ascending_Print lo line k :
    Ascending key lo k -> Ascending key lo (Print line k)
| Ascending_Run lo cmd k n :
    about n cmd -> lo <= n -> (forall res, Ascending key n (k res)) ->
    Ascending key lo (Run cmd k).

(** No value is ever yielded by the loop of [process_pull_requests]. *)
Definition no_key (y : Empty_set) : Z := match y with end.

(** The command [cmd] changes the pull request [pr]: it approves it, merges
    it or rebases it. *)
Definition changes (pr : PullRequest) (cmd : string) : Prop :=
  cmd = merge_cmd (number pr) ∨ cmd = rebase_cmd (number pr)
  ∨ ∃ msg, cmd = review_cmd (number pr) msg.

(** What a call of [sh] on [cmd] leaves in the trace: in dry mode the line
    it prints, in live mode the command with what the host answered. *)
Definition sh_event (dry_run : bool) (cmd : string)
    (res : option CompletedProcess) : Event :=
  if dry_run then EvPrint (tab ("Would run: " +:+ cmd)) else EvRun cmd res.

(** Every value that [g] may yield is yielded after the commands that
    [need] lists for it have been run, [seen] being the commands already
    run when [g] starts. *)
Inductive Behind {Y R} (need : Y -> list string)
  : list string -> Gen Y R -> Prop :=
| Behind_Ret seen r : Behind need seen (Ret r)
| Behind_Raise seen e : Behind need seen (Raise e)
| Behind_Yield seen y k :
    need y ⊆ seen -> Behind need seen k -> Behind need seen (Yield y k)
| Behind_Print seen line k :
    Behind need seen k -> Behind need seen (Print line k)
| Behind_Run seen cmd k :
    (forall res, Behind need (cmd :: seen) (k res)) ->
    Behind need seen (Run cmd k).

(** * Properties *)

(** ** Runs *)

Section RunFacts.
Context `{Host}.

Lemma after_nil {Y R} (r : Result World Y R) : after [] [] r = r.
Proof. by destruct r. Qed.

Lemma after_after {Y R} evs evs' (ys ys' : list Y) (r : Result World Y R) :
  after evs ys (after evs' ys' r) = after (evs ++ evs') (ys ++ ys') r.
Proof. unfold after. simpl. by rewrite !app_assoc. Qed.

Lemma and_then_after {Y R R'} evs (ys : list Y) (r : Result World Y R)
    (f : R -> World -> Result World Y R') :
  and_then (after evs ys r) f = after evs ys (and_then r f).
Proof.
  unfold and_then, after. simpl.
  destruct (outcome r); simpl; by rewrite <- ?app_assoc.
Qed.

(** Running [m] and then [f] is the run of [m] followed, if it returns,
    by the run of [f] from the world it left. *)
Lemma run_gbind {Y R R'} (m : Gen Y R) (f : R -> Gen Y R') w :
  run (gbind m f) w = and_then (run m w) (fun x w' => run (f x) w').
Proof.
  revert w. induction m as [r|e|y k IH|line k IH|cmd k IH]; intros w; simpl.
  - unfold and_then. simpl. by rewrite after_nil.
  - done.
  - by rewrite IH, and_then_after.
  - by rewrite IH, and_then_after.
  - destruct (subprocess_run cmd w) as [[res|] w']; [|done].
    by rewrite IH, and_then_after.
Qed.

(** The result that [for_run] gives is the run of the loop. *)
Lemma for_run_run {Y Y' S} (g : Gen Y unit) (s : S)
    (body : Y -> S -> Gen Y' S) w :
  (for_run g s body w).2 = run (for_each g s body) w.
Proof.
  revert s w.
  induction g as [r|e|y k IH|line k IH|cmd k IH]; intros s w; simpl; try done.
  - rewrite run_gbind. unfold and_then.
    destruct (outcome (run (body y s) w)) as [s'|e]; [|done].
    specialize (IH s' (world (run (body y s) w))).
    destruct (for_run k s' body _) as [its r']. simpl in *. by rewrite IH.
  - specialize (IH s w). destruct (for_run k s body w) as [its r].
    simpl in *. by rewrite IH.
  - destruct (subprocess_run cmd w) as [[res|] w']; [|done].
    specialize (IH res s w'). destruct (for_run (k res) s body w') as [its r].
    simpl in *. by rewrite IH.
Qed.

(** [sh] in dry mode prints one line, returns the empty string and leaves
    the world as it is. *)
Lemma run_sh_dry {Y} cmd w :
  run (@sh Y cmd true) w =
  {| trace := [EvPrint (tab ("Would run: " +:+ cmd))]; yields := [];
     outcome := Returned ""; world := w |}.
Proof. done. Qed.

(** [sh] in live mode, by what the host answers. *)
Lemma run_sh_live {Y} cmd w :
  run (@sh Y cmd false) w =
  match subprocess_run cmd w with
  | (Some result, w') =>
      {| trace := [EvRun cmd (Some result)]; yields := [];
         outcome :=
           if decide (returncode result ≠ 0) then
             Raised (Exception (sh_error cmd result))
           else Returned (strip (stdout result));
         world := w' |}
  | (None, w') =>
      {| trace := [EvRun cmd None]; yields := [];
         outcome := Raised HostError; world := w' |}
  end.
Proof.
  simpl. destruct (subprocess_run cmd w) as [[result|] w']; [|done].
  by destruct (decide (returncode result ≠ 0)).
Qed.

End RunFacts.



(** ** The classifier *)

Lemma with_bucket_cons tag o l :
  with_bucket tag (o :: l) =
  if decide (obj_bucket o = tag) then o :: with_bucket tag l
  else with_bucket tag l.
Proof. unfold with_bucket. by rewrite filter_cons. Qed.

(** The loop of [from_list], started from any five lists, appends to each
    of them the records of its bucket. *)
Lemma foldl_from_list_step acc l :
  foldl from_list_step acc l =
  {| passed := passed acc ++ with_bucket "pass" l;
     failed := failed acc ++ with_bucket "fail" l;
     pending := pending acc ++ with_bucket "pending" l;
     skipping := skipping acc ++ with_bucket "skipping" l;
     cancel := cancel acc ++ with_bucket "cancel" l |}.
Proof.
  revert acc. induction l as [|o l IH]; intros acc.
  - destruct acc. simpl. unfold with_bucket. simpl. by rewrite !app_nil_r.
  - simpl. rewrite IH. rewrite !with_bucket_cons.
    unfold from_list_step. simpl.
    repeat case_decide; simpl; try congruence;
      by rewrite <- ?app_assoc.
Qed.

Lemma from_list_buckets l :
  from_list l =
  {| passed := with_bucket "pass" l; failed := with_bucket "fail" l;
     pending := with_bucket "pending" l; skipping := with_bucket "skipping" l;
     cancel := with_bucket "cancel" l |}.
Proof. unfold from_list. by rewrite foldl_from_list_step. Qed.

Lemma elem_of_with_bucket tag o l :
  o ∈ with_bucket tag l ↔ obj_bucket o = tag ∧ o ∈ l.
Proof. unfold with_bucket. by rewrite list_elem_of_filter. Qed.

(** The five buckets together hold the recognized records, each once. *)
Lemma buckets_permutation l :
  with_bucket "pass" l ++ with_bucket "fail" l ++ with_bucket "pending" l
    ++ with_bucket "skipping" l ++ with_bucket "cancel" l
  ≡ₚ filter (fun o => recognized (obj_bucket o)) l.
Proof.
  induction l as [|o l IH]; [done|].
  rewrite filter_cons, !with_bucket_cons.
  destruct (decide (recognized (obj_bucket o))) as [Hr|Hr].
  - unfold recognized in Hr. rewrite !elem_of_cons, elem_of_nil in Hr.
    destruct Hr as [Hr|[Hr|[Hr|[Hr|[Hr|[]]]]]]; rewrite Hr; simpl;
      rewrite <- IH.
    + done.
    + by rewrite <- Permutation_middle.
    + by rewrite !(app_assoc _ _ (_ :: _)), <- Permutation_middle, <- !app_assoc.
    + rewrite !(app_assoc _ _ (_ :: _)), <- Permutation_middle.
      by rewrite <- !app_assoc.
    + rewrite !(app_assoc _ _ (_ :: _)), <- Permutation_middle.
      by rewrite <- !app_assoc.
  - unfold recognized in Hr. rewrite !elem_of_cons, elem_of_nil in Hr.
    repeat case_decide; try (exfalso; apply Hr; tauto). done.
Qed.

(** C3: [from_list] partitions its input by bucket tag.  Each of the five
    sequences is the input filtered on one tag, so it keeps the input
    order; together they are a rearrangement of the records with a
    recognized tag, each taken once, so their lengths add up to the number
    of those records; and a record with an unrecognized tag is in none. *)
Theorem C3_from_list_partition (checks_list : list CheckObj) :
  let c := from_list checks_list in
  (passed c = with_bucket "pass" checks_list
   ∧ failed c = with_bucket "fail" checks_list
   ∧ pending c = with_bucket "pending" checks_list
   ∧ skipping c = with_bucket "skipping" checks_list
   ∧ cancel c = with_bucket "cancel" checks_list)
  ∧ passed c ++ failed c ++ pending c ++ skipping c ++ cancel c
    ≡ₚ filter (fun o => recognized (obj_bucket o)) checks_list
  ∧ (length (passed c) + length (failed c) + length (pending c)
     + length (skipping c) + length (cancel c)
     = length (filter (fun o => recognized (obj_bucket o)) checks_list))%nat
  ∧ (∀ o, ¬ recognized (obj_bucket o) →
       ¬ (o ∈ passed c) ∧ ¬ (o ∈ failed c) ∧ ¬ (o ∈ pending c)
       ∧ ¬ (o ∈ skipping c) ∧ ¬ (o ∈ cancel c)).
Proof.
  intros c. unfold c. rewrite from_list_buckets. simpl.
  split; [done|]. split; [apply buckets_permutation|]. split.
  - rewrite <- (Permutation_length (buckets_permutation checks_list)).
    rewrite !length_app. lia.
  - intros o Hr. unfold recognized in Hr.
    rewrite !elem_of_cons, elem_of_nil in Hr.
    rewrite !elem_of_with_bucket. tauto.
Qed.

(** C10: every element of the five sequences is one of the raw records of
    the input, of the type of the input and at a position of the input;
    the [PullRequestCheck] built from a record only decides, by its
    [bucket], which sequence the record is appended to. *)
Theorem C10_from_list_keeps_raw_records (checks_list : list CheckObj) :
  let c := from_list checks_list in
  (∀ o : CheckObj,
     o ∈ (passed c ++ failed c ++ pending c ++ skipping c ++ cancel c)%list →
     ∃ i, checks_list !! i = Some o)
  ∧ (∀ o, o ∈ passed c ↔ o ∈ checks_list ∧ bucket (PullRequestCheck_of o) = "pass")
  ∧ (∀ o, o ∈ failed c ↔ o ∈ checks_list ∧ bucket (PullRequestCheck_of o) = "fail")
  ∧ (∀ o, o ∈ pending c ↔
          o ∈ checks_list ∧ bucket (PullRequestCheck_of o) = "pending")
  ∧ (∀ o, o ∈ skipping c ↔
          o ∈ checks_list ∧ bucket (PullRequestCheck_of o) = "skipping")
  ∧ (∀ o, o ∈ cancel c ↔
          o ∈ checks_list ∧ bucket (PullRequestCheck_of o) = "cancel").
Proof.
  intros c. unfold c. rewrite from_list_buckets. simpl.
  split.
  - intros o. rewrite !elem_of_app, !elem_of_with_bucket.
    intros Ho. apply list_elem_of_lookup. tauto.
  - repeat split; intros; rewrite elem_of_with_bucket in *; tauto.
Qed.

(** ** Commands run through [sh] *)

Lemma ShOnly_mono (P Q : string -> Prop) {Y R} (g : Gen Y R) :
  (∀ cmd, P cmd → Q cmd) → ShOnly P g → ShOnly Q g.
Proof. intros HPQ. induction 1; constructor; auto. Qed.

Lemma ShOnly_gbind P {Y R R'} (m : Gen Y R) (f : R -> Gen Y R') :
  ShOnly P m → (∀ r, ShOnly P (f r)) → ShOnly P (gbind m f).
Proof.
  intros Hm Hf. induction Hm as [| | | |cmd k HP Hfail Hk IH]; simpl;
    try (constructor; auto; fail); auto.
  constructor; auto. intros res Hres. by rewrite Hfail.
Qed.

Lemma ShOnly_for_each P {Y Y' S} (g : Gen Y unit) (s : S)
    (body : Y -> S -> Gen Y' S) :
  ShOnly P g → (∀ y s', ShOnly P (body y s')) →
  ShOnly P (for_each g s body).
Proof.
  intros Hg Hbody. revert s.
  induction Hg as [| | | |cmd k HP Hfail Hk IH]; intros s; simpl;
    try (constructor; auto; fail).
  - apply ShOnly_gbind; auto.
  - constructor; auto. intros res Hres. by rewrite Hfail.
Qed.

Lemma ShOnly_for_list P {A Y} (l : list A) (body : A -> Gen Y unit) :
  (∀ x, ShOnly P (body x)) → ShOnly P (for_list l body).
Proof.
  intros Hbody. induction l; simpl; [constructor|].
  apply ShOnly_gbind; auto.
Qed.

Lemma ShOnly_sh (P : string -> Prop) {Y} cmd dry_run :
  (dry_run = false → P cmd) → ShOnly P (@sh Y cmd dry_run).
Proof.
  intros HP. destruct dry_run; simpl; repeat constructor; auto.
  - intros res Hres. by rewrite decide_True.
  - intros res. case_decide; constructor.
Qed.

Ltac sh_only :=
  repeat
    (unfold mbind, Gen_bind;
     lazymatch goal with
     | |- ShOnly _ (gbind _ _) => apply ShOnly_gbind
     | |- ShOnly _ (for_each _ _ _) => apply ShOnly_for_each
     | |- ShOnly _ (for_list _ _) => apply ShOnly_for_list
     | |- ShOnly _ (sh _ _) => apply ShOnly_sh
     | |- ShOnly _ (match _ with _ => _ end) => case_match
     | |- ShOnly _ (if _ then _ else _) => case_match
     | |- ShOnly _ _ => constructor
     | |- ∀ _, _ => intro
     end).

Section ShOnlyPipeline.
Context `{PyLib}.
Variable cfg : Config.

Lemma ShOnly_get_pull_requests : ShOnly is_query get_pull_requests.
Proof.
  unfold get_pull_requests, get_pull_requests_body. sh_only;
    unfold is_query; eauto.
Qed.

Lemma ShOnly_match_labels_or_bot P g :
  ShOnly P g → ShOnly P (match_labels_or_bot cfg g).
Proof.
  intros Hg. unfold match_labels_or_bot, match_labels_or_bot_body.
  constructor. apply ShOnly_for_each; [done|]. intros. sh_only.
Qed.

Lemma ShOnly_mergeable_prs P g : ShOnly P g → ShOnly P (mergeable_prs g).
Proof.
  intros Hg. unfold mergeable_prs, mergeable_prs_body.
  apply ShOnly_for_each; [done|]. intros. sh_only.
Qed.

Lemma ShOnly_check_prs_ready g :
  ShOnly is_query g → ShOnly is_query (check_prs_ready cfg g).
Proof.
  intros Hg. unfold check_prs_ready, check_prs_ready_body.
  apply ShOnly_for_each; [done|]. intros. sh_only; unfold is_query; eauto.
Qed.

Lemma ShOnly_ready_prs : ShOnly is_query (ready_prs cfg).
Proof.
  unfold ready_prs.
  apply ShOnly_check_prs_ready, ShOnly_mergeable_prs,
    ShOnly_match_labels_or_bot, ShOnly_get_pull_requests.
Qed.

Lemma ShOnly_merge_or_rebase pr merged :
  ShOnly (allowed cfg) (merge_or_rebase cfg pr merged).
Proof.
  unfold merge_or_rebase, approve_and_merge_pr, rebase_pr.
  sh_only; right; (split; [done|]); unfold is_mutation; eauto.
Qed.

Lemma ShOnly_coordinate g :
  ShOnly is_query g → ShOnly (allowed cfg) (coordinate cfg g).
Proof.
  intros Hg. apply ShOnly_for_each.
  - eapply ShOnly_mono; [|done]. by left.
  - apply ShOnly_merge_or_rebase.
Qed.

Lemma ShOnly_process_pull_requests :
  ShOnly (allowed cfg) (process_pull_requests cfg).
Proof.
  unfold process_pull_requests, mbind, Gen_bind.
  apply ShOnly_gbind; [|constructor].
  apply ShOnly_coordinate, ShOnly_ready_prs.
Qed.

End ShOnlyPipeline.

Section ShOnlyRun.
Context `{Host}.

(** In a run of such a computation every command satisfies [P]. *)
Lemma ShOnly_trace P {Y R} (g : Gen Y R) w cmd res :
  ShOnly P g → EvRun cmd res ∈ trace (run g w) → P cmd.
Proof.
  intros Hg. revert w.
  induction Hg as [| |y k Hk IH|line k Hk IH|c k HP Hfail Hk IH];
    intros w; simpl; try (by intros ?%elem_of_nil).
  - apply IH.
  - rewrite elem_of_cons. intros [?|?]; [done|by eapply IH].
  - destruct (subprocess_run c w) as [[r|] w']; simpl.
    + rewrite elem_of_cons. intros [[= -> ->]|?]; [done|by eapply IH].
    + rewrite list_elem_of_singleton. by intros [= -> ->].
Qed.

(** In a run of such a computation a command that exits with a non-zero
    status is the last thing that happens, and the run ends with the
    exception of [sh] for it. *)
Lemma ShOnly_failure P {Y R} (g : Gen Y R) w cmd result :
  ShOnly P g → EvRun cmd (Some result) ∈ trace (run g w) →
  returncode result ≠ 0 →
  (∃ before, trace (run g w) = before ++ [EvRun cmd (Some result)])
  ∧ outcome (run g w) = Raised (Exception (sh_error cmd result)).
Proof.
  intros Hg. revert w.
  induction Hg as [| |y k Hk IH|line k Hk IH|c k HP Hfail Hk IH];
    intros w; simpl; try (by intros ?%elem_of_nil).
  - apply IH.
  - rewrite elem_of_cons. intros [?|Hin] Hrc; [done|].
    destruct (IH w Hin Hrc) as ([before Hb] & Ho).
    split; [|done]. exists (EvPrint line :: before). by rewrite Hb.
  - destruct (subprocess_run c w) as [[r|] w']; simpl.
    + rewrite elem_of_cons. intros [[= -> ->]|Hin] Hrc.
      * rewrite (Hfail _ Hrc). simpl. split; [by exists []|done].
      * destruct (IH r w' Hin Hrc) as ([before Hb] & Ho).
        split; [|done]. exists (EvRun c (Some r) :: before). by rewrite Hb.
    + rewrite list_elem_of_singleton. by intros [=].
Qed.

End ShOnlyRun.

(** ** The iterations of a loop and its run *)

Lemma commands_of_prints lines : commands_of (EvPrint <$> lines) = [].
Proof. unfold commands_of. by induction lines. Qed.

Lemma commands_of_app evs evs' :
  commands_of (evs ++ evs') = commands_of evs ++ commands_of evs'.
Proof. apply omap_app. Qed.

Section Entries.
Context `{Host}.

(** [entries] are the [iterations], with the worlds. *)
Lemma entries_iterations {Y Y' S} (g : Gen Y unit) (s : S)
    (body : Y → S → Gen Y' S) w :
  (entries g s body w).*1 = iterations g s body w.
Proof.
  unfold iterations. revert s w.
  induction g as [r|e|y k IH|line k IH|cmd k IH]; intros s w; simpl;
    try done.
  - destruct (outcome (run (body y s) w)) as [s'|e].
    + specialize (IH s' (world (run (body y s) w))).
      destruct (for_run k s' body _) as [its r']. simpl in *. by f_equal.
    + done.
  - specialize (IH s w). by destruct (for_run k s body w).
  - destruct (subprocess_run cmd w) as [[res|] w']; [|done].
    specialize (IH res s w'). by destruct (for_run (k res) s body w').
Qed.

(** What a loop yields is what its body yields, iteration after
    iteration. *)
Lemma yields_for_each {Y Y' S} (g : Gen Y unit) (s : S)
    (body : Y → S → Gen Y' S) w :
  yields (run (for_each g s body) w)
  = concat ((λ e, yields (run (body e.1.1 e.1.2) e.2))
            <$> entries g s body w).
Proof.
  revert s w.
  induction g as [r|e|y k IH|line k IH|cmd k IH]; intros s w; simpl;
    try done.
  - rewrite run_gbind. unfold and_then.
    destruct (outcome (run (body y s) w)) as [s'|e]; simpl.
    + by rewrite IH.
    + by rewrite app_nil_r.
  - destruct (subprocess_run cmd w) as [[res|] w']; [|done]. simpl. apply IH.
Qed.

(** The events of the body, at each iteration, are in the trace of the
    loop. *)
Lemma entries_trace {Y Y' S} (g : Gen Y unit) (s : S)
    (body : Y → S → Gen Y' S) w y sj wj :
  (y, sj, wj) ∈ entries g s body w →
  ∃ before after,
    trace (run (for_each g s body) w)
    = before ++ trace (run (body y sj) wj) ++ after.
Proof.
  revert s w.
  induction g as [r|e|y' k IH|line k IH|cmd k IH]; intros s w; simpl.
  - by intros ?%elem_of_nil.
  - by intros ?%elem_of_nil.
  - rewrite run_gbind. unfold and_then. rewrite elem_of_cons.
    intros [[= -> -> ->]|Hin].
    + exists []. destruct (outcome (run (body y' s) w)); simpl.
      * by eexists.
      * exists []. by rewrite app_nil_r.
    + destruct (outcome (run (body y' s) w)) as [s'|e];
        [|by apply elem_of_nil in Hin].
      simpl. destruct (IH _ _ Hin) as (before & after & ->).
      exists (trace (run (body y' s) w) ++ before), after.
      by rewrite <- app_assoc.
  - intros Hin. destruct (IH _ _ Hin) as (before & after & ->).
    by exists (EvPrint line :: before), after.
  - destruct (subprocess_run cmd w) as [[res|] w'];
      [|by intros ?%elem_of_nil].
    intros Hin. simpl. destruct (IH _ _ _ Hin) as (before & after & ->).
    by exists (EvRun cmd (Some res) :: before), after.
Qed.

(** A command of the run of a loop is a command of its generator or of its
    body at one of the iterations. *)
Lemma trace_for_each_inv {Y Y' S} (P : string → Prop) (g : Gen Y unit)
    (s : S) (body : Y → S → Gen Y' S) w cmd res :
  ShOnly P g →
  EvRun cmd res ∈ trace (run (for_each g s body) w) →
  P cmd ∨ ∃ y sj wj, (y, sj, wj) ∈ entries g s body w
                     ∧ EvRun cmd res ∈ trace (run (body y sj) wj).
Proof.
  intros Hg. revert s w.
  induction Hg as [| |y k Hk IH|line k Hk IH|c k HP Hfail Hk IH];
    intros s w; simpl.
  - by intros ?%elem_of_nil.
  - by intros ?%elem_of_nil.
  - rewrite run_gbind. unfold and_then.
    destruct (outcome (run (body y s) w)) as [s'|e]; simpl.
    + rewrite elem_of_app. intros [Hin|Hin].
      * right. exists y, s, w. split; [apply list_elem_of_here|done].
      * destruct (IH _ _ Hin) as [?|(y' & sj & wj & Hin' & Hev)]; [by left|].
        right. exists y', sj, wj. split; [by apply list_elem_of_further|done].
    + intros Hin. right. exists y, s, w. split; [apply list_elem_of_here|done].
  - rewrite elem_of_cons. intros [?|Hin]; [done|]. by apply IH.
  - destruct (subprocess_run c w) as [[r|] w']; simpl.
    + rewrite elem_of_cons. intros [[= -> ->]|Hin]; [by left|]. by apply IH.
    + rewrite list_elem_of_singleton. intros [= -> ->]. by left.
Qed.

(** The first iteration starts from the state the loop starts from. *)
Lemma entries_head {Y Y' S} (g : Gen Y unit) (s : S)
    (body : Y → S → Gen Y' S) w y sj wj :
  entries g s body w !! 0%nat = Some (y, sj, wj) → sj = s.
Proof.
  revert w. induction g as [r|e|y' k IH|line k IH|cmd k IH]; intros w; simpl;
    try done.
  - by intros [= _ <- _].
  - apply IH.
  - destruct (subprocess_run cmd w) as [[res|] w']; [apply IH|done].
Qed.

(** An iteration that is followed by another one returned, with the state
    that the next one starts from. *)
Lemma entries_step {Y Y' S} (g : Gen Y unit) (s : S)
    (body : Y → S → Gen Y' S) w j y sj wj y' sj' wj' :
  entries g s body w !! j = Some (y, sj, wj) →
  entries g s body w !! Datatypes.S j = Some (y', sj', wj') →
  outcome (run (body y sj) wj) = Returned sj'.
Proof.
  revert s w j.
  induction g as [r|e|y0 k IH|line k IH|cmd k IH]; intros s w j; simpl;
    try done.
  - destruct j as [|j]; simpl.
    + intros [= -> -> ->].
      destruct (outcome (run (body y sj) wj)) as [s'|e]; [|done].
      by intros ->%entries_head.
    + destruct (outcome (run (body y0 s) w)) as [s'|e]; [|done]. apply IH.
  - apply IH.
  - destruct (subprocess_run cmd w) as [[res|] w']; [apply IH|done].
Qed.

(** A loop over one value does what its body does on it. *)
Lemma run_for_each_singleton {Y Y' S} (y : Y) (s : S)
    (body : Y → S → Gen Y' S) w :
  run (for_each (Yield y (Ret ())) s body) w = run (body y s) w.
Proof.
  simpl. rewrite run_gbind. unfold and_then.
  destruct (run (body y s) w) as [tr ys [s'|e] w']; simpl; [|done].
  unfold after. simpl. by rewrite !app_nil_r.
Qed.

End Entries.

(** ** Failing commands *)

(** The white space that [strip] removes is not only ASCII: here a no-break
    space (U+00A0) and an ideographic space (U+3000) around a word, and a
    line break; a zero-width space (U+200B), which is no white space,
    stays. *)
Lemma strip_unicode_white_space :
  let nbsp := String "194" (String "160" "") in
  let ideographic := String "227" (String "128" (String "128" "")) in
  let zero_width := String "226" (String "128" (String "139" "")) in
  strip (nbsp +:+ "LIST" +:+ ideographic +:+ newline) = "LIST"
  ∧ strip (" " +:+ zero_width +:+ " ") = zero_width.
Proof. by vm_compute. Qed.

(** C7, as the code has it: in live mode a command that exits with a
    non-zero status makes [sh] raise an exception whose message holds the
    command and the captured standard error; the command was run once and
    nothing follows it.  In a run of the script, whichever command fails
    this way (a query, an approval, a merge or a rebase) is the last event
    of the run, which ends with that exception.  On a zero exit status [sh]
    returns the captured standard output with the white space at both ends
    removed. *)
Theorem C7_sh_failure_aborts_run `{PyLib} `{Host} (cfg : Config)
    (cmd : string) (w : World) (result : CompletedProcess) (w' : World) :
  subprocess_run cmd w = (Some result, w') →
  (returncode result ≠ 0 →
     run (@sh Empty_set cmd false) w =
       {| trace := [EvRun cmd (Some result)]; yields := [];
          outcome := Raised (Exception (sh_error cmd result)); world := w' |}
     ∧ sh_error cmd result =
       "Error running command: " +:+ cmd +:+ newline +:+ "Error: "
       +:+ stderr result)
  ∧ (returncode result = 0 →
     run (@sh Empty_set cmd false) w =
       {| trace := [EvRun cmd (Some result)]; yields := [];
          outcome := Returned (strip (stdout result)); world := w' |})
  ∧ (∀ w0 c res,
       EvRun c res ∈ trace (run (process_pull_requests cfg) w0) →
       allowed cfg c)
  ∧ (∀ w0,
       EvRun cmd (Some result) ∈ trace (run (process_pull_requests cfg) w0) →
       returncode result ≠ 0 →
       (∃ before, trace (run (process_pull_requests cfg) w0)
                  = before ++ [EvRun cmd (Some result)])
       ∧ outcome (run (process_pull_requests cfg) w0)
         = Raised (Exception (sh_error cmd result))).
Proof.
  intros Hrun. repeat split.
  - rewrite run_sh_live, Hrun. by rewrite decide_True.
  - intros Hz. rewrite run_sh_live, Hrun. rewrite decide_False; [done|].
    by intros ?.
  - intros w0 c res. apply ShOnly_trace, ShOnly_process_pull_requests.
  - eapply ShOnly_failure; eauto using ShOnly_process_pull_requests.
  - eapply ShOnly_failure; eauto using ShOnly_process_pull_requests.
Qed.

(** A live run in which the merge of pull request 5 is refused: the run
    ends there, with the exception of [sh]. *)
Lemma C7_sh_failure_aborts_run_witness :
  let host := Examples.table_host Examples.answer_merge_fails in
  let r := @run host _ _
             (@process_pull_requests Examples.lib Examples.live_config) [] in
  let failure := {| returncode := 1; stdout := ""; stderr := "not allowed" |} in
  (∃ before, trace r = before ++ [EvRun (merge_cmd 5) (Some failure)])
  ∧ outcome r = Raised (Exception (sh_error (merge_cmd 5) failure)).
Proof.
  intros host r failure.
  destruct (@C7_sh_failure_aborts_run Examples.lib host Examples.live_config
              (merge_cmd 5) [] failure [merge_cmd 5] eq_refl)
    as (_ & _ & _ & Habort).
  apply Habort.
  - vm_compute. repeat (first [apply list_elem_of_here | apply list_elem_of_further]).
  - done.
Defined.

(** What [sh] returns is not always the captured standard output: the line
    break that ends the output of a command is removed. *)
Lemma C7_stdout_returned_unchanged_counterexample :
  let host := Examples.table_host Examples.answer_all in
  let captured := "LIST" +:+ newline in
  @subprocess_run host list_cmd []
  = (Some {| returncode := 0; stdout := captured; stderr := "" |}, [list_cmd])
  ∧ outcome (@run host Empty_set _ (sh list_cmd false) []) = Returned "LIST"
  ∧ outcome (@run host Empty_set _ (sh list_cmd false) []) ≠ Returned captured.
Proof. repeat split. intros [=]. Qed.

(** ** The filter stages *)

Section Stages.
Context `{PyLib} `{Host}.
Variable cfg : Config.

(** A loop whose body only prints, and yields its item or not, filters
    what its generator yields and changes nothing else but the trace. *)
Lemma run_for_each_filter {Y} (P : Y -> Prop) `{∀ y, Decision (P y)}
    (body : Y -> unit -> Gen Y unit) (g : Gen Y unit) w :
  (∀ y w', ∃ line,
      run (body y ()) w' =
      {| trace := [EvPrint line]; yields := if decide (P y) then [y] else [];
         outcome := Returned (); world := w' |}) →
  yields (run (for_each g () body) w) = filter P (yields (run g w))
  ∧ outcome (run (for_each g () body) w) = outcome (run g w)
  ∧ world (run (for_each g () body) w) = world (run g w).
Proof.
  intros Hbody. revert w.
  induction g as [[]|e|y k IH|line k IH|cmd k IH]; intros w; simpl; try done.
  - rewrite run_gbind. destruct (Hbody y w) as [line ->].
    unfold and_then. simpl. destruct (IH w) as (-> & -> & ->).
    rewrite filter_cons. by case_decide.
  - destruct (subprocess_run cmd w) as [[res|] w']; [|done]. simpl. apply IH.
Qed.

Lemma truthy_false {A} (l : list A) : truthy l = false ↔ l = [].
Proof. by destruct l. Qed.

Lemma missing_labels_nil pr :
  missing_labels cfg pr = []
  ↔ ∀ req, req ∈ LABELS cfg → req ∈ label_name <$> labels pr.
Proof.
  unfold missing_labels. split.
  - intros Hnil req Hreq.
    destruct (decide (req ∈ label_name <$> labels pr)) as [|Hn]; [done|].
    assert (req ∈ filter (λ req, req ∉ label_name <$> labels pr) (LABELS cfg))
      as Hin by (by apply list_elem_of_filter).
    rewrite Hnil in Hin. by apply elem_of_nil in Hin.
  - intros Hall. apply elem_of_nil_inv. intros req.
    rewrite list_elem_of_filter. intros [Hn Hin]. by apply Hn, Hall.
Qed.

(** The two tests of the body of [match_labels_or_bot], together, are the
    condition of the stage. *)
Lemma label_or_bot_cond pr :
  is_bot (author pr) && bool_decide (login (author pr) ∈ BOT_AUTHORS cfg)
  || (negb (truthy (LABELS cfg)) || negb (truthy (missing_labels cfg pr)))
  = true
  ↔ label_or_bot_ok cfg pr.
Proof.
  unfold label_or_bot_ok.
  rewrite !orb_true_iff, andb_true_iff, bool_decide_eq_true,
    !negb_true_iff, !truthy_false, missing_labels_nil.
  tauto.
Qed.

(** What the body of [match_labels_or_bot] does with one pull request. *)
Lemma run_match_labels_or_bot_body pr w :
  ∃ line,
    run (match_labels_or_bot_body cfg pr ()) w =
    {| trace := [EvPrint line];
       yields := if decide (label_or_bot_ok cfg pr) then [pr] else [];
       outcome := Returned (); world := w |}.
Proof.
  unfold match_labels_or_bot_body.
  pose proof (label_or_bot_cond pr) as Hc.
  destruct (is_bot _ && bool_decide _) eqn:E1; simpl in *.
  - eexists. rewrite decide_True; [done|]. by apply Hc.
  - destruct (negb _ || negb _) eqn:E2; eexists.
    + rewrite decide_True; [done|]. by apply Hc.
    + rewrite decide_False; [done|]. by intros ?%Hc.
Qed.

(** What the body of [mergeable_prs] does with one pull request. *)
Lemma run_mergeable_prs_body pr w :
  ∃ line,
    run (mergeable_prs_body pr ()) w =
    {| trace := [EvPrint line];
       yields := if decide (mergeable pr = "MERGEABLE") then [pr] else [];
       outcome := Returned (); world := w |}.
Proof. unfold mergeable_prs_body. case_decide; by eexists. Qed.

Lemma run_match_labels_or_bot g w :
  yields (run (match_labels_or_bot cfg g) w)
  = filter (label_or_bot_ok cfg) (yields (run g w))
  ∧ outcome (run (match_labels_or_bot cfg g) w) = outcome (run g w)
  ∧ world (run (match_labels_or_bot cfg g) w) = world (run g w).
Proof.
  unfold match_labels_or_bot. simpl.
  apply run_for_each_filter. intros. apply run_match_labels_or_bot_body.
Qed.

Lemma run_mergeable_prs g w :
  yields (run (mergeable_prs g) w)
  = filter (λ pr, mergeable pr = "MERGEABLE") (yields (run g w))
  ∧ outcome (run (mergeable_prs g) w) = outcome (run g w)
  ∧ world (run (mergeable_prs g) w) = world (run g w).
Proof.
  unfold mergeable_prs.
  apply run_for_each_filter. intros. apply run_mergeable_prs_body.
Qed.

End Stages.

(** C4: a pull request entering the label-or-bot stage is yielded if and
    only if its author is flagged as an automation account and is in
    [BOT_AUTHORS], or [LABELS] is empty, or every required label is among
    its labels; otherwise nothing is yielded for it.  So the stage yields,
    in their order, the pull requests of its input that satisfy this, and
    with an empty [LABELS] it yields every pull request it is given. *)
Theorem C4_label_or_bot_stage `{PyLib} `{Host} (cfg : Config) :
  (∀ pr w,
     let r := run (match_labels_or_bot_body cfg pr ()) w in
     (yields r = [pr] ↔ label_or_bot_ok cfg pr)
     ∧ (yields r = [] ↔ ¬ label_or_bot_ok cfg pr)
     ∧ outcome r = Returned () ∧ world r = w)
  ∧ (∀ prs w,
       yields (run (match_labels_or_bot cfg prs) w)
       = filter (label_or_bot_ok cfg) (yields (run prs w)))
  ∧ (LABELS cfg = [] →
     ∀ prs w, yields (run (match_labels_or_bot cfg prs) w) = yields (run prs w)).
Proof.
  split; [|split].
  - intros pr w r. unfold r.
    destruct (run_match_labels_or_bot_body cfg pr w) as [line ->]. simpl.
    case_decide; naive_solver.
  - intros prs w. apply run_match_labels_or_bot.
  - intros HL prs w.
    destruct (run_match_labels_or_bot cfg prs w) as (-> & _).
    induction (yields (run prs w)) as [|pr l IH]; [done|].
    rewrite filter_cons_True, IH; [done|]. right; by left.
Qed.

(** With the default configuration emptied of its required labels, a pull
    request without labels passes the stage. *)
Lemma C4_label_or_bot_stage_witness :
  let cfg := {| APPROVE_MSG := "ok"; BOT_AUTHORS := []; DRY_RUN := true;
                LABELS := []; MIN_PASSING_CHECKS := 1 |} in
  let pr7 := PullRequest_of Examples.item7 Examples.view_main in
  yields (@run (Examples.table_host Examples.answer_all) _ _
            (@match_labels_or_bot Examples.lib cfg (gen_of_list [pr7])) [])
  = [pr7].
Proof.
  intros cfg pr7.
  destruct (@C4_label_or_bot_stage Examples.lib
              (Examples.table_host Examples.answer_all) cfg) as (_ & _ & Hall).
  by rewrite Hall.
Defined.

(** ** The check-readiness stage *)

Lemma int_or_zero a b : int_or a b = 0 ↔ a = 0 ∧ b = 0.
Proof. unfold int_or. case_decide; lia. Qed.

Lemma len_zero {A} (l : list A) : len l = 0 ↔ length l = 0%nat.
Proof. unfold len. lia. Qed.

(** The two rejection lines are different texts, whatever the count. *)
Lemma not_passing_msg_too_few_msg n : not_passing_msg ≠ too_few_msg n.
Proof. unfold not_passing_msg, too_few_msg, tab. simpl. discriminate. Qed.

Section CheckReadiness.
Context `{PyLib} `{Host}.
Variable cfg : Config.

(** The run of the body of [check_prs_ready] on one pull request, when the
    checks are fetched and decoded. *)
Lemma run_check_prs_ready_body pr w result w' checks_list :
  subprocess_run (checks_cmd (number pr)) w = (Some result, w') →
  returncode result = 0 →
  json_loads_checks (strip (stdout result)) = Some checks_list →
  let c := from_list checks_list in
  run (check_prs_ready_body cfg pr ()) w =
  {| trace :=
       EvRun (checks_cmd (number pr)) (Some result)
       :: (if decide (length (failed c) = 0%nat ∧ length (pending c) = 0%nat
                      ∧ length (cancel c) = 0%nat)
           then if decide (len (passed c) < MIN_PASSING_CHECKS cfg)
                then [EvPrint (too_few_msg (len (passed c)))] else []
           else [EvPrint not_passing_msg]);
     yields := if decide (checks_ok cfg c) then [set_checks pr c] else [];
     outcome := Returned ();
     world := w' |}.
Proof.
  intros Hrun Hrc Hjson c.
  unfold check_prs_ready_body, mbind, Gen_bind.
  rewrite run_gbind, run_sh_live, Hrun.
  rewrite decide_False by (by intros ?).
  unfold and_then. simpl. rewrite Hjson. fold c.
  unfold checks_ok, len.
  destruct (decide (int_or _ _ ≠ 0)) as [Hany|Hnone].
  - rewrite !int_or_zero in Hany.
    rewrite (decide_False (P := _ ∧ _ ∧ length _ = 0%nat)) by lia.
    rewrite (decide_False (P := _ ∧ _ ∧ _ ∧ _ ≤ _)) by lia.
    done.
  - apply dec_stable in Hnone. rewrite !int_or_zero in Hnone.
    rewrite (decide_True (P := _ ∧ _ ∧ length _ = 0%nat)) by lia.
    destruct (decide (_ < _)).
    + rewrite (decide_False (P := _ ∧ _ ∧ _ ∧ _ ≤ _)) by lia. done.
    + rewrite (decide_True (P := _ ∧ _ ∧ _ ∧ _ ≤ _)) by lia. done.
Qed.

(** The stage over a list of pull requests whose checks are fetched and
    decoded whenever they are asked for. *)
Lemma run_check_prs_ready_list (checks_of : PullRequest → list CheckObj)
    (l : list PullRequest) w :
  (∀ pr, pr ∈ l →
     answers (checks_cmd (number pr))
       (λ s, json_loads_checks s = Some (checks_of pr))) →
  let r := run (check_prs_ready cfg (gen_of_list l)) w in
  yields r
  = (λ pr, set_checks pr (from_list (checks_of pr)))
    <$> filter (λ pr, checks_ok cfg (from_list (checks_of pr))) l
  ∧ commands_of (trace r) = (λ pr, checks_cmd (number pr)) <$> l
  ∧ outcome r = Returned ().
Proof.
  revert w. induction l as [|pr l IH]; intros w Hall; [done|].
  cbv zeta. unfold check_prs_ready. cbn [gen_of_list foldr for_each].
  rewrite run_gbind.
  destruct (Hall pr (list_elem_of_here _ _) w)
    as (result & w' & Hrun & Hrc & Hjson).
  rewrite (run_check_prs_ready_body pr w result w' (checks_of pr)) by done.
  unfold and_then.
  cbn [outcome trace yields world after].
  destruct (IH w') as (Hy & Hc & Ho).
  { intros ??. by apply Hall, list_elem_of_further. }
  unfold check_prs_ready in Hy, Hc, Ho. fold (@gen_of_list PullRequest l).
  rewrite Hy, Ho. split_and!; [|rewrite commands_of_app, Hc|done].
  - rewrite filter_cons. by case_decide.
  - cbn [fmap list_fmap]. f_equal.
    repeat case_decide; done.
Qed.

End CheckReadiness.

(** C2: once the checks of a pull request are fetched and classified, the
    check-readiness stage yields it (with its checks attached) if and only
    if it has no failed, no pending and no cancelled check and at least
    [MIN_PASSING_CHECKS] passed ones, and yields nothing otherwise.  A
    single pending check excludes it whatever the number of passed checks;
    the two ways of being excluded print two different lines.

    This is what the body of the loop of [check_prs_ready] does; the stage
    is the loop: over any generator and in any run, what the stage yields
    is what the body yields at each of its iterations, in order, and the
    events of each iteration are in the trace of the stage.  So over a list
    of pull requests whose checks are fetched and decoded, the stage
    fetches the checks of each and yields those that satisfy the condition,
    with their checks attached. *)
Theorem C2_check_readiness_stage `{PyLib} `{Host} (cfg : Config) :
  (∀ (pr : PullRequest) (w : World) (result : CompletedProcess) (w' : World)
     (checks_list : list CheckObj),
     subprocess_run (checks_cmd (number pr)) w = (Some result, w') →
     returncode result = 0 →
     json_loads_checks (strip (stdout result)) = Some checks_list →
     let c := from_list checks_list in
     let r := run (check_prs_ready_body cfg pr ()) w in
     let green := length (failed c) = 0%nat ∧ length (pending c) = 0%nat
                  ∧ length (cancel c) = 0%nat in
     (yields r = [set_checks pr c]
      ↔ green ∧ MIN_PASSING_CHECKS cfg <= len (passed c))
     ∧ (yields r = []
        ↔ ¬ (green ∧ MIN_PASSING_CHECKS cfg <= len (passed c)))
     ∧ ((∃ o, o ∈ checks_list ∧ obj_bucket o = "pending") → yields r = [])
     ∧ (¬ green → EvPrint not_passing_msg ∈ trace r)
     ∧ (green → len (passed c) < MIN_PASSING_CHECKS cfg →
        EvPrint (too_few_msg (len (passed c))) ∈ trace r)
     ∧ (∀ n, not_passing_msg ≠ too_few_msg n))
  ∧ (∀ (prs : Gen PullRequest unit) (w : World),
       let stage := run (check_prs_ready cfg prs) w in
       let reaching := entries prs () (check_prs_ready_body cfg) w in
       yields stage
       = concat ((λ e, yields (run (check_prs_ready_body cfg e.1.1 e.1.2) e.2))
                 <$> reaching)
       ∧ ∀ pr u wj,
           (pr, u, wj) ∈ reaching →
           ∃ before after,
             trace stage
             = before ++ trace (run (check_prs_ready_body cfg pr u) wj)
               ++ after)
  ∧ (∀ (checks_of : PullRequest → list CheckObj) (l : list PullRequest)
       (w : World),
       (∀ pr, pr ∈ l →
          answers (checks_cmd (number pr))
            (λ s, json_loads_checks s = Some (checks_of pr))) →
       let stage := run (check_prs_ready cfg (gen_of_list l)) w in
       yields stage
       = (λ pr, set_checks pr (from_list (checks_of pr)))
         <$> filter (λ pr, checks_ok cfg (from_list (checks_of pr))) l
       ∧ commands_of (trace stage) = (λ pr, checks_cmd (number pr)) <$> l
       ∧ outcome stage = Returned ()).
Proof.
  split_and!.
  - intros pr w result w' checks_list Hrun Hrc Hjson c r green. unfold r.
    rewrite (run_check_prs_ready_body cfg pr w result w' checks_list) by done.
    fold c. simpl.
    assert (checks_ok cfg c ↔ green ∧ MIN_PASSING_CHECKS cfg <= len (passed c))
      as Hok by (unfold checks_ok, green, len; tauto).
    split_and!.
    + case_decide; [by rewrite <- Hok|].
      split; [by intros [=]|by rewrite <- Hok].
    + case_decide; [|by rewrite <- Hok].
      split; [by intros [=]|]. by rewrite <- Hok.
    + intros (o & Ho & Hb). rewrite decide_False; [done|].
      intros (_ & Hp & _). unfold c in Hp.
      rewrite from_list_buckets in Hp. simpl in Hp.
      assert (o ∈ with_bucket "pending" checks_list) as Hin
        by (by apply elem_of_with_bucket).
      destruct (with_bucket "pending" checks_list); [|done].
      by apply elem_of_nil in Hin.
    + intros Hn.
      rewrite (decide_False (P := _ ∧ _ ∧ length _ = 0%nat)) by done.
      apply list_elem_of_further, list_elem_of_here.
    + intros Hg Hlt.
      rewrite (decide_True (P := _ ∧ _ ∧ length _ = 0%nat)) by done.
      rewrite decide_True by done.
      apply list_elem_of_further, list_elem_of_here.
    + apply not_passing_msg_too_few_msg.
  - intros prs w stage reaching. split.
    + apply yields_for_each.
    + intros pr u wj Hin. by apply entries_trace.
  - intros checks_of l w Hall. by apply run_check_prs_ready_list.
Qed.

(** The stage over pull requests 1 and 2 of the examples, on a host that
    answers the fetch of the checks with two passed checks for the first
    and with no check for the second: both fetches are run, the first pull
    request is yielded and the second is not; the body yields pull request
    5, whose two checks passed. *)
Lemma C2_check_readiness_stage_witness :
  let host := Examples.table_host Examples.answer_all in
  let pr5 := PullRequest_of Examples.item5 Examples.view_main in
  let stage :=
    @run (Examples.table_host ChecksExamples.answer_checks) _ _
      (@check_prs_ready ChecksExamples.lib default_config
         (gen_of_list [Examples.ready1; Examples.ready2])) [] in
  yields (@run host _ _
            (@check_prs_ready_body Examples.lib default_config pr5 ()) [])
  = [set_checks pr5 (from_list Examples.two_pass)]
  ∧ yields stage
    = [set_checks Examples.ready1 (from_list Examples.two_pass)]
  ∧ commands_of (trace stage) = [checks_cmd 1; checks_cmd 2].
Proof.
  intros host pr5 stage.
  destruct (@C2_check_readiness_stage Examples.lib host default_config)
    as (Hbody & _).
  destruct (Hbody pr5 []
              {| returncode := 0; stdout := "CHECKS" +:+ newline; stderr := "" |}
              [checks_cmd 5] Examples.two_pass eq_refl eq_refl eq_refl)
    as (Hyes & _).
  split; [apply Hyes; vm_compute; repeat split; discriminate|].
  destruct (@C2_check_readiness_stage ChecksExamples.lib
              (Examples.table_host ChecksExamples.answer_checks)
              default_config) as (_ & _ & Hlist).
  destruct (Hlist
              (λ pr, if decide (number pr = 1) then Examples.two_pass else [])
              [Examples.ready1; Examples.ready2] []) as (Hy & Hc & _).
  - intros pr Hin w.
    apply elem_of_cons in Hin as [->|Hin];
      [|apply list_elem_of_singleton in Hin as ->].
    + exists {| returncode := 0; stdout := "TWO"; stderr := "" |},
        (checks_cmd 1 :: w). by vm_compute.
    + exists {| returncode := 0; stdout := "NONE"; stderr := "" |},
        (checks_cmd 2 :: w). by vm_compute.
  - split; [exact Hy|exact Hc].
Defined.

(** ** The merge coordinator *)

(** After a sequence of pull requests, [merged] maps a branch to the
    pull request it held before or, if it held none, to the first of the
    sequence with that base branch. *)
Lemma foldl_claim_base_lookup (m : gmap string PullRequest) l b :
  foldl claim_base m l !! b =
  match m !! b with
  | Some p => Some p
  | None => head (filter (λ p, baseRefName p = b) l)
  end.
Proof.
  revert m. induction l as [|a l IH]; intros m; simpl.
  - by destruct (m !! b).
  - rewrite IH, filter_cons. unfold claim_base.
    destruct (m !! baseRefName a) as [p|] eqn:Ea.
    + destruct (m !! b) eqn:Eb; [done|]. case_decide; [congruence|done].
    + destruct (decide (baseRefName a = b)) as [<-|Hne].
      * by rewrite lookup_insert_eq, Ea.
      * rewrite lookup_insert_ne by done. by destruct (m !! b).
Qed.

Section Coordinator.
Context `{PyLib} `{Host}.
Variable cfg : Config.

(** Which function the body of the loop calls is decided by the presence of
    the base branch among the keys of [merged]. *)
Lemma merge_or_rebase_approve pr (m : gmap string PullRequest) :
  merge_or_rebase cfg pr m = approve_and_merge_pr cfg pr m
  ↔ m !! baseRefName pr = None.
Proof.
  unfold merge_or_rebase. destruct (m !! baseRefName pr); [|done].
  split; [|done]. unfold approve_and_merge_pr, rebase_pr. simpl.
  by intros [=].
Qed.

Lemma merge_or_rebase_rebase pr (m : gmap string PullRequest) :
  merge_or_rebase cfg pr m = (rebase_pr cfg pr ≫= λ _, Ret m)
  ↔ is_Some (m !! baseRefName pr).
Proof.
  unfold merge_or_rebase. destruct (m !! baseRefName pr) as [p|].
  - split; [by eexists|done].
  - split; [|by intros [? [=]]].
    unfold approve_and_merge_pr, rebase_pr. simpl.
    by intros [=].
Qed.

(** When the body of the loop returns, [merged] has become
    [claim_base merged pr]. *)
Lemma run_merge_or_rebase_returned pr (m m' : gmap string PullRequest) w :
  outcome (run (merge_or_rebase cfg pr m) w) = Returned m' →
  m' = claim_base m pr.
Proof.
  unfold merge_or_rebase, claim_base.
  destruct (m !! baseRefName pr) as [p|].
  - unfold mbind, Gen_bind. rewrite run_gbind. unfold and_then.
    destruct (outcome (run (rebase_pr cfg pr) w)); simpl; by intros [=].
  - unfold approve_and_merge_pr. simpl.
    destruct (str_format _ _) as [msg|]; [|done].
    unfold mbind, Gen_bind. rewrite !run_gbind. unfold and_then.
    destruct (outcome (run (sh (review_cmd _ _) _) w)); [|done]. simpl.
    rewrite !run_gbind. unfold and_then.
    destruct (outcome (run (sh (merge_cmd _) _) _)); [|done]. simpl.
    rewrite !run_gbind. unfold and_then.
    destruct (DRY_RUN cfg); simpl; by intros [=].
Qed.

(** At each iteration of the loop, [merged] is what the pull requests of
    the earlier iterations made of the dict the loop started with. *)
Lemma iterations_state ready (m : gmap string PullRequest) w j q mj :
  iterations ready m (merge_or_rebase cfg) w !! j = Some (q, mj) →
  mj = foldl claim_base m
         (take j (iterations ready m (merge_or_rebase cfg) w).*1).
Proof.
  unfold iterations. revert m w j.
  induction ready as [r|e|y k IH|line k IH|cmd k IH]; intros m w j; simpl;
    try done.
  - destruct (outcome (run (merge_or_rebase cfg y m) w)) as [m'|e] eqn:Ho.
    + apply run_merge_or_rebase_returned in Ho as ->.
      specialize (IH (claim_base m y) (world (run (merge_or_rebase cfg y m) w))).
      destruct (for_run k _ _ _) as [its r']. simpl in *.
      destruct j as [|j]; simpl; [by intros [= <- <-]|]. apply IH.
    + simpl. destruct j as [|j]; simpl; [by intros [= <- <-]|done].
  - specialize (IH m w j). by destruct (for_run k m _ w).
  - destruct (subprocess_run cmd w) as [[res|] w']; [|done].
    specialize (IH res m w' j). by destruct (for_run (k res) m _ w').
Qed.

(** So [merged] holds, for the base branch of the pull request of an
    iteration, the first pull request of the earlier iterations with that
    base branch. *)
Lemma iterations_lookup ready w j q mj :
  iterations ready ∅ (merge_or_rebase cfg) w !! j = Some (q, mj) →
  mj !! baseRefName q =
  head (filter (λ p, baseRefName p = baseRefName q)
          (take j (iterations ready ∅ (merge_or_rebase cfg) w).*1)).
Proof.
  intros Hj. rewrite (iterations_state _ _ _ _ _ _ Hj) at 1.
  by rewrite foldl_claim_base_lookup, lookup_empty.
Qed.

(** What the body of the loop does for a pull request whose base branch
    is already in [merged]: it prints a line and calls [sh] on the rebase
    command, and nothing else; if it returns, [merged] is as it was. *)
Lemma run_merge_or_rebase_Some pr (m : gmap string PullRequest) w :
  is_Some (m !! baseRefName pr) →
  let b := run (merge_or_rebase cfg pr m) w in
  trace b
  = [EvPrint (tab ("needs to be rebased from " +:+ baseRefName pr));
     sh_event (DRY_RUN cfg) (rebase_cmd (number pr))
       (subprocess_run (rebase_cmd (number pr)) w).1]
  ∧ ∀ m', outcome b = Returned m' → m' = m.
Proof.
  intros [p Hp]. unfold merge_or_rebase, rebase_pr, sh_event. rewrite Hp.
  destruct (DRY_RUN cfg); simpl.
  - split; [done|]. by intros m' [= <-].
  - destruct (subprocess_run _ w) as [[res|] w']; simpl; [|done].
    case_decide; simpl; [done|]. split; [done|]. by intros m' [= <-].
Qed.

(** What it does for a pull request whose base branch is not in [merged]:
    the only commands it may run are the approval and the merge of this
    pull request, in live mode; if it returns, the approval and the merge
    went through and the pull request is recorded for its base branch. *)
Lemma run_merge_or_rebase_None pr (m : gmap string PullRequest) w :
  m !! baseRefName pr = None →
  let b := run (merge_or_rebase cfg pr m) w in
  (∀ cmd res, EvRun cmd res ∈ trace b →
     DRY_RUN cfg = false
     ∧ (cmd = merge_cmd (number pr) ∨ ∃ msg, cmd = review_cmd (number pr) msg))
  ∧ ∀ m', outcome b = Returned m' →
          m' = <[baseRefName pr := pr]> m
          ∧ ∃ msg, str_format (APPROVE_MSG cfg) (number pr) = Some msg
                   ∧ merge_events (DRY_RUN cfg) (number pr) msg
                       (baseRefName pr) (trace b).
Proof.
  intros Hp. unfold merge_or_rebase, approve_and_merge_pr, merge_events.
  rewrite Hp. simpl.
  destruct (str_format _ _) as [msg|]; simpl.
  2:{ split; [|done]. intros cmd res Hin.
      apply list_elem_of_singleton in Hin. discriminate. }
  destruct (DRY_RUN cfg); simpl.
  - split.
    + intros cmd res Hin.
      repeat (apply elem_of_cons in Hin as [Hin|Hin]; [discriminate|]).
      by apply elem_of_nil in Hin.
    + intros m' [= <-]. split; [done|]. by exists msg.
  - destruct (subprocess_run (review_cmd _ _) w) as [[r1|] w1]; simpl.
    2:{ split; [|done]. intros cmd res Hin.
        apply elem_of_cons in Hin as [Hin|Hin]; [discriminate|].
        apply list_elem_of_singleton in Hin as [= -> _]. eauto. }
    destruct (decide (returncode r1 ≠ 0)) as [|Hr1]; simpl.
    { split; [|done]. intros cmd res Hin.
      apply elem_of_cons in Hin as [Hin|Hin]; [discriminate|].
      apply list_elem_of_singleton in Hin as [= -> _]. eauto. }
    destruct (subprocess_run (merge_cmd _) w1) as [[r2|] w2]; simpl.
    2:{ split; [|done]. intros cmd res Hin.
        apply elem_of_cons in Hin as [Hin|Hin]; [discriminate|].
        apply elem_of_cons in Hin as [[= -> _]|Hin]; [eauto|].
        apply list_elem_of_singleton in Hin as [= -> _]. eauto. }
    destruct (decide (returncode r2 ≠ 0)) as [|Hr2]; simpl.
    { split; [|done]. intros cmd res Hin.
      apply elem_of_cons in Hin as [Hin|Hin]; [discriminate|].
      apply elem_of_cons in Hin as [[= -> _]|Hin]; [eauto|].
      apply list_elem_of_singleton in Hin as [= -> _]. eauto. }
    split.
    + intros cmd res Hin.
      apply elem_of_cons in Hin as [Hin|Hin]; [discriminate|].
      apply elem_of_cons in Hin as [[= -> _]|Hin]; [eauto|].
      apply elem_of_cons in Hin as [[= -> _]|Hin]; [eauto|].
      apply list_elem_of_singleton in Hin. discriminate.
    + intros m' [= <-]. split; [done|]. exists msg. split; [done|].
      exists r1, r2. apply dec_stable in Hr1. apply dec_stable in Hr2. done.
Qed.

End Coordinator.

Lemma head_filter_None {A} (P : A → Prop) `{!∀ x, Decision (P x)} (l : list A) :
  head (filter P l) = None ↔ ∀ i y, l !! i = Some y → ¬ P y.
Proof.
  rewrite head_None. split.
  - intros Hnil i y Hy HP.
    assert (y ∈ filter P l) as Hin.
    { apply list_elem_of_filter. split; [done|]. by eapply list_elem_of_lookup_2. }
    rewrite Hnil in Hin. by apply elem_of_nil in Hin.
  - intros Hall. apply elem_of_nil_inv. intros y.
    rewrite list_elem_of_filter. intros [HP [i Hi]%list_elem_of_lookup].
    by eapply Hall.
Qed.

Lemma head_filter_first {A} (P : A → Prop) `{!∀ x, Decision (P x)}
    (l : list A) x :
  head (filter P l) = Some x →
  ∃ i, l !! i = Some x ∧ P x ∧ ∀ i' y, (i' < i)%nat → l !! i' = Some y → ¬ P y.
Proof.
  induction l as [|a l IH]; [done|].
  rewrite filter_cons. case_decide as Ha; simpl.
  - intros [= ->]. exists 0%nat. split_and!; [done..|]. intros; lia.
  - intros (i & Hi & HP & Hbefore)%IH. exists (S i). split_and!; [done..|].
    intros [|i'] y Hlt; simpl; [by intros [= <-]|].
    apply Hbefore. lia.
Qed.

(** C1: in any run, over any generator of ready pull requests, each
    iteration of the loop of [process_pull_requests] either calls
    [approve_and_merge_pr], and then no earlier iteration had a pull request
    with the same base branch, or it calls [rebase_pr] and leaves [merged]
    as it is, and then an earlier iteration had a pull request with the
    same base branch for which [approve_and_merge_pr] was called, the one
    that [merged] holds for that branch.  So at most one pull request per
    base branch goes to [approve_and_merge_pr]: the first one of the
    sequence with that base branch.

    In the trace of the run this reads as follows.  The events of each
    iteration are in the trace.  An iteration for a pull request whose base
    branch has an entry prints a line and calls [sh] on the rebase command
    of the pull request, and nothing else: no approval, no merge.  An
    iteration for a pull request whose base branch has no entry runs no
    command but the approval and the merge of this pull request, and when
    it returns both went through (in dry mode, were printed) and the pull
    request is recorded.  An iteration that is followed by another one
    returned, so a rebase comes only after the merge of the pull request
    recorded for the base branch went through.  Every command of the run
    that the generator did not run is a command of one of the
    iterations. *)
Theorem C1_one_merge_per_base_branch `{PyLib} `{Host} (cfg : Config)
    (ready : Gen PullRequest unit) (w : World) :
  let its := iterations ready ∅ (merge_or_rebase cfg) w in
  (for_run ready ∅ (merge_or_rebase cfg) w).2 = run (coordinate cfg ready) w
  ∧ (∀ j q m, its !! j = Some (q, m) →
       (merge_or_rebase cfg q m = approve_and_merge_pr cfg q m
        ∧ ∀ i p m', (i < j)%nat → its !! i = Some (p, m') →
                    baseRefName p ≠ baseRefName q)
       ∨ (merge_or_rebase cfg q m = (rebase_pr cfg q ≫= λ _, Ret m)
          ∧ ∃ i p m', (i < j)%nat ∧ its !! i = Some (p, m')
                      ∧ baseRefName p = baseRefName q
                      ∧ merge_or_rebase cfg p m' = approve_and_merge_pr cfg p m'
                      ∧ m !! baseRefName q = Some p))
  ∧ (∀ i j p q mi mj,
       its !! i = Some (p, mi) → its !! j = Some (q, mj) →
       baseRefName p = baseRefName q →
       merge_or_rebase cfg p mi = approve_and_merge_pr cfg p mi →
       merge_or_rebase cfg q mj = approve_and_merge_pr cfg q mj →
       i = j)
  ∧ (entries ready ∅ (merge_or_rebase cfg) w).*1 = its
  ∧ (∀ q m wj,
       (q, m, wj) ∈ entries ready ∅ (merge_or_rebase cfg) w →
       let b := run (merge_or_rebase cfg q m) wj in
       (∃ before after,
          trace (run (coordinate cfg ready) w) = before ++ trace b ++ after)
       ∧ (is_Some (m !! baseRefName q) →
          trace b
          = [EvPrint (tab ("needs to be rebased from " +:+ baseRefName q));
             sh_event (DRY_RUN cfg) (rebase_cmd (number q))
               (subprocess_run (rebase_cmd (number q)) wj).1]
          ∧ ∀ m', outcome b = Returned m' → m' = m)
       ∧ (m !! baseRefName q = None →
          (∀ cmd res, EvRun cmd res ∈ trace b →
             DRY_RUN cfg = false
             ∧ (cmd = merge_cmd (number q)
                ∨ ∃ msg, cmd = review_cmd (number q) msg))
          ∧ ∀ m', outcome b = Returned m' →
                  m' = <[baseRefName q := q]> m
                  ∧ ∃ msg, str_format (APPROVE_MSG cfg) (number q) = Some msg
                           ∧ merge_events (DRY_RUN cfg) (number q) msg
                               (baseRefName q) (trace b)))
  ∧ (∀ j q m wj q' m' wj',
       entries ready ∅ (merge_or_rebase cfg) w !! j = Some (q, m, wj) →
       entries ready ∅ (merge_or_rebase cfg) w !! S j = Some (q', m', wj') →
       outcome (run (merge_or_rebase cfg q m) wj) = Returned m')
  ∧ (∀ P cmd res,
       ShOnly P ready →
       EvRun cmd res ∈ trace (run (coordinate cfg ready) w) →
       P cmd
       ∨ ∃ q m wj,
           (q, m, wj) ∈ entries ready ∅ (merge_or_rebase cfg) w
           ∧ EvRun cmd res ∈ trace (run (merge_or_rebase cfg q m) wj)).
Proof.
  intros its.
  assert (∀ j q m, its !! j = Some (q, m) →
            m !! baseRefName q = None →
            ∀ i p m', (i < j)%nat → its !! i = Some (p, m') →
                      baseRefName p ≠ baseRefName q) as Hfirst.
  { intros j q m Hj Hnone i p m' Hlt Hi.
    rewrite (iterations_lookup cfg _ _ _ _ _ Hj) in Hnone.
    rewrite head_filter_None in Hnone. apply (Hnone i).
    rewrite lookup_take_lt by done. fold its.
    by rewrite list_lookup_fmap, Hi. }
  split_and!.
  - apply for_run_run.
  - intros j q m Hj.
    destruct (m !! baseRefName q) as [p|] eqn:Hm.
    + right. split; [apply merge_or_rebase_rebase; by rewrite Hm|].
      pose proof Hm as Hhead.
      rewrite (iterations_lookup cfg _ _ _ _ _ Hj) in Hhead. fold its in Hhead.
      apply head_filter_first in Hhead as (i & Hi & Hbase & Hbefore).
      apply lookup_take_Some in Hi as [Hi Hlt].
      rewrite list_lookup_fmap in Hi.
      destruct (its !! i) as [[p' m']|] eqn:Hi'; simplify_eq/=.
      exists i, p, m'. split_and!; try done.
      apply merge_or_rebase_approve.
      rewrite (iterations_lookup cfg _ _ _ _ _ Hi'). fold its.
      apply head_filter_None. intros i' y Hy.
      apply lookup_take_Some in Hy as [Hy Hlt']. rewrite Hbase.
      apply (Hbefore i'); [done|]. by rewrite lookup_take_lt by lia.
    + left. split; [by apply merge_or_rebase_approve|]. by eapply Hfirst.
  - intros i j p q mi mj Hi Hj Hbase Hp%merge_or_rebase_approve
      Hq%merge_or_rebase_approve.
    destruct (lt_eq_lt_dec i j) as [[Hlt|]|Hlt]; [|done|].
    + by destruct (Hfirst j q mj Hj Hq i p mi Hlt Hi).
    + by destruct (Hfirst i p mi Hi Hp j q mj Hlt Hj).
  - apply entries_iterations.
  - intros q m wj Hin b. split_and!.
    + by apply entries_trace.
    + intros Hsome. by apply run_merge_or_rebase_Some.
    + intros Hnone. by apply run_merge_or_rebase_None.
  - intros j q m wj q' m' wj'. apply entries_step.
  - intros P cmd res Hready. by apply trace_for_each_inv.
Qed.

(** Pull requests 1 and 2, both for [main], in this order, in live mode:
    the loop calls [rebase_pr] for the second, with pull request 1 recorded
    for [main], and the trace of the run has the line and the rebase
    command of pull request 2, which the host ran. *)
Lemma C1_one_merge_per_base_branch_witness :
  let host := Examples.table_host Examples.answer_all in
  let cfg := Examples.live_config in
  let merged : gmap string PullRequest := {[ "main" := Examples.ready1 ]} in
  let ready := gen_of_list [Examples.ready1; Examples.ready2] in
  @iterations host _ _ _ ready ∅ (@merge_or_rebase Examples.lib cfg) []
  = [(Examples.ready1, ∅); (Examples.ready2, merged)]
  ∧ @merge_or_rebase Examples.lib cfg Examples.ready2 merged
    = (rebase_pr cfg Examples.ready2 ≫= λ _, Ret merged)
  ∧ ∃ before after,
      trace (@run host _ _ (@coordinate Examples.lib cfg ready) [])
      = before
        ++ [EvPrint (tab "needs to be rebased from main");
            EvRun (rebase_cmd 2) (Examples.ok "")]
        ++ after.
Proof.
  intros host cfg merged ready.
  assert (@iterations host _ _ _ ready ∅
            (@merge_or_rebase Examples.lib cfg) []
          = [(Examples.ready1, ∅); (Examples.ready2, merged)]) as Hits
    by (by vm_compute).
  split; [done|].
  destruct (@C1_one_merge_per_base_branch Examples.lib host cfg ready [])
    as (_ & Hstep & _ & _ & Hbody & _).
  split.
  - rewrite Hits in Hstep.
    destruct (Hstep 1%nat Examples.ready2 merged eq_refl)
      as [[_ Hfirst]|[Hrebase _]]; [|done].
    exfalso. by apply (Hfirst 0%nat Examples.ready1 ∅ (Nat.lt_0_1) eq_refl).
  - edestruct (Hbody Examples.ready2 merged) as ((before & after & Htr) & Hre & _).
    { apply (list_elem_of_lookup_2 _ 1%nat). vm_compute. reflexivity. }
    destruct Hre as [Hb _]; [by eexists|].
    exists before, after. rewrite Htr, Hb. reflexivity.
Defined.

(** ** Dry runs *)

(** No command is both a query and a command that changes a pull request. *)
Lemma is_query_not_mutation cmd : is_query cmd → ¬ is_mutation cmd.
Proof.
  unfold is_query, is_mutation, list_cmd, view_cmd, checks_cmd, merge_cmd,
    rebase_cmd, review_cmd.
  intros [-> | [n [-> | ->]]] [n' [Heq | [Heq | [msg Heq]]]]; simpl in Heq;
    discriminate.
Qed.

Section DryRun.
Context `{PyLib} `{Host}.
Variable cfg : Config.
Hypothesis Hdry : DRY_RUN cfg = true.

(** In a dry run only queries are run. *)
Lemma dry_run_queries_only w cmd res :
  EvRun cmd res ∈ trace (run (process_pull_requests cfg) w) → is_query cmd.
Proof.
  intros Hin.
  eapply ShOnly_trace in Hin; [|apply ShOnly_process_pull_requests].
  destruct Hin as [?|[? _]]; [done|congruence].
Qed.

(** If the body of the loop returns in live mode, in some world, it returns
    the same dict in dry mode, in any world. *)
Lemma live_returned_dry_returned pr (m m' : gmap string PullRequest) wl wd :
  outcome (run (merge_or_rebase (with_dry_run false cfg) pr m) wl)
  = Returned m' →
  outcome (run (merge_or_rebase cfg pr m) wd) = Returned m'
  ∧ m' = claim_base m pr.
Proof.
  intros Hlive.
  pose proof (run_merge_or_rebase_returned _ _ _ _ _ Hlive) as ->.
  split; [|done]. revert Hlive.
  unfold merge_or_rebase, claim_base.
  destruct (m !! baseRefName pr) as [p|].
  - intros _. unfold rebase_pr. by rewrite Hdry.
  - unfold approve_and_merge_pr. simpl.
    destruct (str_format _ _) as [msg|]; [|done].
    intros _. by rewrite Hdry.
Qed.

(** The iterations of the loop over the same pull requests, in live and in
    dry mode. *)
Lemma live_iterations_dry_iterations prs (m : gmap string PullRequest) wd wl :
  let dry := for_run (gen_of_list prs) m (merge_or_rebase cfg) wd in
  let live :=
    for_run (gen_of_list prs) m (merge_or_rebase (with_dry_run false cfg)) wl in
  live.1 `prefix_of` dry.1
  ∧ ∀ m', outcome live.2 = Returned m' →
          dry.1 = live.1 ∧ outcome dry.2 = Returned m'.
Proof.
  revert m wd wl. induction prs as [|pr prs IH]; intros m wd wl; simpl.
  - split; [done|]. by intros m' [= <-].
  - destruct (outcome (run (merge_or_rebase (with_dry_run false cfg) pr m) wl))
      as [m1|e] eqn:Hlive.
    + destruct (live_returned_dry_returned pr m m1 wl wd Hlive) as [-> ->].
      specialize (IH (claim_base m pr)
                    (world (run (merge_or_rebase cfg pr m) wd))
                    (world (run (merge_or_rebase (with_dry_run false cfg) pr m) wl))).
      destruct (for_run (gen_of_list prs) _ (merge_or_rebase cfg) _)
        as [its_d rd].
      destruct (for_run (gen_of_list prs) _
                  (merge_or_rebase (with_dry_run false cfg)) _) as [its_l rl].
      simpl in *. destruct IH as [Hpre Heq]. split.
      * by apply prefix_cons.
      * intros m' Hm'. destruct (Heq m' Hm') as [-> ->]. done.
    + simpl. split; [|done].
      destruct (outcome (run (merge_or_rebase cfg pr m) wd)).
      * destruct (for_run (gen_of_list prs) _ (merge_or_rebase cfg) _).
        simpl. apply prefix_cons, prefix_nil.
      * done.
Qed.

End DryRun.

(** C5: with [DRY_RUN] true, [sh] called for an approval, a merge or a
    rebase prints the command it would run, returns the empty string and
    leaves the world as it is, and the only commands the script runs are
    queries.  Over the same sequence of ready pull requests, the loop of
    [process_pull_requests] in live mode goes through the same pull requests
    with the same dict [merged] as in dry mode, as far as it gets, and if
    it ends normally both end with the same dict; and at a pull request and
    a dict, both modes choose the same of [approve_and_merge_pr] and
    [rebase_pr]. *)
Theorem C5_dry_run_bookkeeping `{PyLib} `{Host} (cfg : Config) :
  DRY_RUN cfg = true →
  (∀ cmd w,
     run (@sh Empty_set cmd (DRY_RUN cfg)) w =
     {| trace := [EvPrint (tab ("Would run: " +:+ cmd))]; yields := [];
        outcome := Returned ""; world := w |})
  ∧ (∀ w cmd res,
       EvRun cmd res ∈ trace (run (process_pull_requests cfg) w) →
       is_query cmd ∧ ¬ is_mutation cmd)
  ∧ (∀ prs wd wl,
       let dry := for_run (gen_of_list prs) ∅ (merge_or_rebase cfg) wd in
       let live :=
         for_run (gen_of_list prs) ∅
           (merge_or_rebase (with_dry_run false cfg)) wl in
       dry.2 = run (coordinate cfg (gen_of_list prs)) wd
       ∧ live.2 = run (coordinate (with_dry_run false cfg) (gen_of_list prs)) wl
       ∧ live.1 `prefix_of` dry.1
       ∧ ∀ merged, outcome live.2 = Returned merged →
                   dry.1 = live.1 ∧ outcome dry.2 = Returned merged)
  ∧ (∀ pr (merged : gmap string PullRequest),
       merge_or_rebase cfg pr merged = approve_and_merge_pr cfg pr merged
       ↔ merge_or_rebase (with_dry_run false cfg) pr merged
         = approve_and_merge_pr (with_dry_run false cfg) pr merged).
Proof.
  intros Hdry. split_and!.
  - intros cmd w. by rewrite Hdry.
  - intros w cmd res Hin. apply dry_run_queries_only in Hin; [|done].
    split; [done|by apply is_query_not_mutation].
  - intros prs wd wl dry live. split_and!; try apply for_run_run.
    + by apply live_iterations_dry_iterations.
    + by apply live_iterations_dry_iterations.
  - intros pr merged. by rewrite !merge_or_rebase_approve.
Qed.

(** The default configuration is a dry run.  On the example host, which
    accepts every command, the loop over pull requests 1 and 2, both for
    [main], goes through the same iterations in dry mode as in live mode:
    the first is recorded for [main], the second is to be rebased. *)
Lemma C5_dry_run_bookkeeping_witness :
  let host := Examples.table_host Examples.answer_all in
  let prs := [Examples.ready1; Examples.ready2] in
  (@for_run host _ _ _ (gen_of_list prs) ∅
     (@merge_or_rebase Examples.lib default_config) []).1
  = (@for_run host _ _ _ (gen_of_list prs) ∅
       (@merge_or_rebase Examples.lib Examples.live_config) []).1
  ∧ (@for_run host _ _ _ (gen_of_list prs) ∅
       (@merge_or_rebase Examples.lib Examples.live_config) []).1
    = [(Examples.ready1, ∅);
       (Examples.ready2, {[ "main" := Examples.ready1 ]})].
Proof.
  intros host prs.
  destruct (@C5_dry_run_bookkeeping Examples.lib host default_config eq_refl)
    as (_ & _ & Hbook & _).
  destruct (Hbook prs [] []) as (_ & _ & _ & Heq).
  split; [exact (proj1 (Heq _ eq_refl))|]. by vm_compute.
Defined.

(** The bookkeeping of a dry run is not always that of the live run on the
    same ready sequence.  With pull request 5 for [main] and pull request 6
    for [dev], on a host that refuses the merge of 5: the dry run goes
    through both and records both, the live run ends with the exception of
    [sh] in the first iteration and records nothing. *)
Lemma C5_bookkeeping_identical_counterexample :
  let host := Examples.table_host Examples.answer_merge_fails in
  let prs := [Examples.ready5; Examples.ready6] in
  let dry := @for_run host _ _ _ (gen_of_list prs) ∅
               (@merge_or_rebase Examples.lib default_config) [] in
  let live := @for_run host _ _ _ (gen_of_list prs) ∅
                (@merge_or_rebase Examples.lib Examples.live_config) [] in
  DRY_RUN default_config = true
  ∧ dry.1 = [(Examples.ready5, ∅);
             (Examples.ready6, {[ "main" := Examples.ready5 ]})]
  ∧ outcome dry.2
    = Returned (<["dev" := Examples.ready6]> {[ "main" := Examples.ready5 ]})
  ∧ live.1 = [(Examples.ready5, ∅)]
  ∧ outcome live.2
    = Raised (Exception (sh_error (merge_cmd 5)
                {| returncode := 1; stdout := ""; stderr := "not allowed" |}))
  ∧ dry.1 ≠ live.1.
Proof.
  intros host prs dry live.
  assert (dry.1 = [(Examples.ready5, ∅);
                   (Examples.ready6, {[ "main" := Examples.ready5 ]})])
    as Hdry by (by vm_compute).
  assert (live.1 = [(Examples.ready5, ∅)]) as Hlive by (by vm_compute).
  assert (outcome live.2
          = Raised (Exception (sh_error (merge_cmd 5)
                      {| returncode := 1; stdout := "";
                         stderr := "not allowed" |}))) as Hout
    by (by vm_compute).
  split_and!; [done|done|by vm_compute|done|done|].
  rewrite Hdry, Hlive. discriminate.
Qed.

(** ** Queries in a dry run *)

Section Queries.
Context `{PyLib} `{Host}.

(** A computation that starts with [sh] in live mode starts by running the
    command, whatever the host answers. *)
Lemma trace_sh_live_first {Y R} cmd (f : string -> Gen Y R) w :
  ∃ rest,
    trace (run (gbind (sh cmd false) f) w)
    = EvRun cmd (subprocess_run cmd w).1 :: rest.
Proof.
  simpl. destruct (subprocess_run cmd w) as [[res|] w']; simpl; by eexists.
Qed.

Lemma trace_process_pull_requests_first cfg w :
  ∃ rest,
    trace (run (process_pull_requests cfg) w)
    = EvPrint ("LABELS=" +:+ repr_list (LABELS cfg))
      :: EvRun list_cmd (subprocess_run list_cmd w).1 :: rest.
Proof.
  unfold process_pull_requests, coordinate, ready_prs, check_prs_ready,
    mergeable_prs, match_labels_or_bot, get_pull_requests, mbind, Gen_bind.
  simpl. destruct (subprocess_run list_cmd w) as [[res|] w']; simpl;
    by eexists.
Qed.

(** In dry mode the body of the loop of [process_pull_requests] runs no
    command. *)
Lemma dry_merge_or_rebase_runs_nothing cfg pr
    (m : gmap string PullRequest) w cmd res :
  DRY_RUN cfg = true →
  EvRun cmd res ∉ trace (run (merge_or_rebase cfg pr m) w).
Proof.
  intros Hdry Hin. revert Hin.
  unfold merge_or_rebase, approve_and_merge_pr, rebase_pr.
  destruct (m !! baseRefName pr) as [p|]; rewrite ?Hdry; simpl;
    [|destruct (str_format _ _); rewrite ?Hdry; simpl];
    intros Hin;
    repeat (apply elem_of_cons in Hin as [Hin|Hin]; [discriminate|]);
    by apply elem_of_nil in Hin.
Qed.

(** The trace of a whole run is the trace of its loop. *)
Lemma trace_process_pull_requests cfg w :
  trace (run (process_pull_requests cfg) w)
  = trace (for_run (ready_prs cfg) ∅ (merge_or_rebase cfg) w).2.
Proof.
  rewrite for_run_run. unfold process_pull_requests, mbind, Gen_bind.
  rewrite run_gbind. fold (coordinate cfg (ready_prs cfg)).
  unfold and_then.
  destruct (outcome (run (coordinate cfg (ready_prs cfg)) w)); simpl;
    by rewrite ?app_nil_r.
Qed.

End Queries.

(** *** Commands that come before a value is yielded *)

Lemma Behind_mono {Y R} (need : Y → list string) seen seen' (g : Gen Y R) :
  seen ⊆ seen' → Behind need seen g → Behind need seen' g.
Proof.
  intros Hsub Hg. revert seen' Hsub.
  induction Hg as [seen r|seen e|seen y k Hy Hk IH|seen line k Hk IH
                   |seen cmd k Hk IH]; intros seen' Hsub.
  - constructor.
  - constructor.
  - constructor; [set_solver|by apply IH].
  - constructor. by apply IH.
  - constructor. intros res. apply IH. set_solver.
Qed.

Lemma Behind_gbind {Y R R'} (need : Y → list string) seen
    (m : Gen Y R) (f : R → Gen Y R') :
  Behind need seen m →
  (∀ r seen', seen ⊆ seen' → Behind need seen' (f r)) →
  Behind need seen (gbind m f).
Proof.
  intros Hm. 
  induction Hm as [seen r|seen e|seen y k Hy Hk IH|seen line k Hk IH
                   |seen cmd k Hk IH]; intros Hf; simpl.
  - by apply Hf.
  - constructor.
  - constructor; [done|by apply IH].
  - constructor. by apply IH.
  - constructor. intros res. apply IH. intros r seen' Hsub. apply Hf.
    set_solver.
Qed.

Lemma Behind_for_each {Y Y' S} (need : Y → list string)
    (need' : Y' → list string) seen (g : Gen Y unit) (s : S)
    (body : Y → S → Gen Y' S) :
  Behind need seen g →
  (∀ y s' seen', need y ⊆ seen' → Behind need' seen' (body y s')) →
  Behind need' seen (for_each g s body).
Proof.
  intros Hg Hbody. revert s.
  induction Hg as [seen r|seen e|seen y k Hy Hk IH|seen line k Hk IH
                   |seen cmd k Hk IH]; intros s; simpl.
  - constructor.
  - constructor.
  - apply Behind_gbind; [by apply Hbody|].
    intros s' seen' Hsub. by eapply Behind_mono.
  - constructor. apply IH.
  - constructor. intros res. apply IH.
Qed.

Lemma Behind_for_list {A Y} (need : Y → list string) seen (l : list A)
    (body : A → Gen Y unit) :
  (∀ x seen', Behind need seen' (body x)) →
  Behind need seen (for_list l body).
Proof.
  intros Hbody. revert seen. induction l as [|x l IH]; intros seen; simpl.
  - constructor.
  - apply Behind_gbind; [apply Hbody|]. intros _ seen' _. apply IH.
Qed.

(** After [sh] in live mode has returned, the command has been run. *)
Lemma Behind_sh_live {Y R} (need : Y → list string) seen cmd
    (f : string → Gen Y R) :
  (∀ out, Behind need (cmd :: seen) (f out)) →
  Behind need seen (gbind (sh cmd false) f).
Proof.
  intros Hf. simpl. constructor. intros res.
  case_decide; simpl; [constructor|apply Hf].
Qed.

Section BehindPipeline.
Context `{PyLib}.
Variable cfg : Config.

(** A pull request is yielded by the chain of generators after its view
    and the fetch of its checks have been run. *)
Lemma Behind_ready_prs :
  Behind (λ pr, [view_cmd (number pr); checks_cmd (number pr)]) []
    (ready_prs cfg).
Proof.
  unfold ready_prs, check_prs_ready.
  apply (Behind_for_each (λ pr, [view_cmd (number pr)])).
  - unfold mergeable_prs.
    apply (Behind_for_each (λ pr, [view_cmd (number pr)])).
    + unfold match_labels_or_bot. constructor.
      apply (Behind_for_each (λ pr, [view_cmd (number pr)])).
      * unfold get_pull_requests, mbind, Gen_bind.
        apply Behind_sh_live. intros out.
        destruct (json_loads_prs out) as [l|]; [|constructor].
        apply Behind_for_list. intros pr_dict seen'.
        unfold get_pull_requests_body, mbind, Gen_bind.
        apply Behind_sh_live. intros view_json.
        destruct (json_loads_view view_json) as [view|]; [|constructor].
        constructor. constructor; [|constructor]. simpl. set_solver.
      * intros pr u seen' Hsub. unfold match_labels_or_bot_body.
        repeat case_match; repeat (constructor; try done).
    + intros pr u seen' Hsub. unfold mergeable_prs_body.
      case_match; repeat (constructor; try done).
  - intros pr u seen' Hsub. unfold check_prs_ready_body, mbind, Gen_bind.
    apply Behind_sh_live. intros checks_json.
    destruct (json_loads_checks checks_json) as [l|]; [|constructor].
    cbv zeta. case_decide; [constructor; constructor|].
    case_decide; [constructor; constructor|].
    apply Behind_Yield; [|constructor]. simpl. set_solver.
Qed.

End BehindPipeline.

Section BehindRun.
Context `{Host}.

(** In a run of a loop, the commands needed for a value have been run when
    the loop gets it. *)
Lemma Behind_iterations {Y Y' S} (need : Y → list string) seen
    (g : Gen Y unit) (s : S) (body : Y → S → Gen Y' S) w j y sj cmd :
  Behind need seen g →
  iterations g s body w !! j = Some (y, sj) →
  cmd ∈ need y →
  cmd ∈ seen ∨ ∃ res, EvRun cmd res ∈ trace (for_run g s body w).2.
Proof.
  unfold iterations. intros Hg. revert s w j.
  induction Hg as [seen r|seen e|seen y' k Hy Hk IH|seen line k Hk IH
                   |seen c k Hk IH]; intros s w j; simpl; try done.
  - destruct (outcome (run (body y' s) w)) as [s'|e].
    + specialize (IH s' (world (run (body y' s) w))).
      destruct (for_run k s' body _) as [its r']. simpl in *.
      destruct j as [|j]; simpl.
      * intros [= -> ->] Hcmd. left. by apply Hy.
      * intros Hj Hcmd. destruct (IH j Hj Hcmd) as [?|[res Hres]]; [by left|].
        right. exists res. apply elem_of_app. by right.
    + simpl. destruct j as [|j]; simpl; [|done].
      intros [= -> ->] Hcmd. left. by apply Hy.
  - specialize (IH s w j). destruct (for_run k s body w) as [its r].
    simpl in *. intros Hj Hcmd.
    destruct (IH Hj Hcmd) as [?|[res Hres]]; [by left|].
    right. exists res. by apply list_elem_of_further.
  - destruct (subprocess_run c w) as [[r|] w']; [|done].
    specialize (IH r s w' j). destruct (for_run (k r) s body w') as [its r'].
    simpl in *. intros Hj Hcmd.
    destruct (IH Hj Hcmd) as [Hin|[res Hres]].
    + apply elem_of_cons in Hin as [->|Hin]; [|by left].
      right. exists (Some r). apply list_elem_of_here.
    + right. exists res. by apply list_elem_of_further.
Qed.

End BehindRun.

(** C9: with [DRY_RUN] true the listing, the view of each listed pull
    request and the fetch of the checks of each pull request that reaches
    the check-readiness stage are still run by the host: the generator
    chain is the same computation as in live mode, the run starts with the
    listing command, the body of [get_pull_requests] starts with the view
    command and the body of [check_prs_ready] with the checks command;
    the body of the loop of [process_pull_requests], where the approval,
    the merge and the rebase are, runs no command at all.  In the trace of
    the whole run, every pull request that the loop gets has its view and
    the fetch of its checks among the commands that the host ran. *)
Theorem C9_dry_run_keeps_queries_live `{PyLib} `{Host} (cfg : Config) :
  DRY_RUN cfg = true →
  ready_prs cfg = ready_prs (with_dry_run false cfg)
  ∧ (∀ w, ∃ rest,
       trace (run (process_pull_requests cfg) w)
       = EvPrint ("LABELS=" +:+ repr_list (LABELS cfg))
         :: EvRun list_cmd (subprocess_run list_cmd w).1 :: rest)
  ∧ (∀ pr_dict w, ∃ rest,
       trace (run (get_pull_requests_body pr_dict) w)
       = EvRun (view_cmd (item_number pr_dict))
           (subprocess_run (view_cmd (item_number pr_dict)) w).1 :: rest)
  ∧ (∀ pr w, ∃ rest,
       trace (run (check_prs_ready_body cfg pr ()) w)
       = EvRun (checks_cmd (number pr))
           (subprocess_run (checks_cmd (number pr)) w).1 :: rest)
  ∧ (∀ pr (merged : gmap string PullRequest) w cmd res,
       EvRun cmd res ∉ trace (run (merge_or_rebase cfg pr merged) w))
  ∧ (∀ w j pr (merged : gmap string PullRequest),
       iterations (ready_prs cfg) ∅ (merge_or_rebase cfg) w !! j
       = Some (pr, merged) →
       (∃ res, EvRun (view_cmd (number pr)) res
               ∈ trace (run (process_pull_requests cfg) w))
       ∧ (∃ res, EvRun (checks_cmd (number pr)) res
                 ∈ trace (run (process_pull_requests cfg) w))).
Proof.
  intros Hdry. split_and!.
  - done.
  - apply trace_process_pull_requests_first.
  - intros. apply trace_sh_live_first.
  - intros. apply trace_sh_live_first.
  - intros. by apply dry_merge_or_rebase_runs_nothing.
  - intros w j pr merged Hj. rewrite trace_process_pull_requests.
    split.
    + destruct (Behind_iterations _ _ _ _ _ _ _ _ _ (view_cmd (number pr))
                  (Behind_ready_prs cfg) Hj) as [Hin|?]; [set_solver| |done].
      by apply elem_of_nil in Hin.
    + destruct (Behind_iterations _ _ _ _ _ _ _ _ _ (checks_cmd (number pr))
                  (Behind_ready_prs cfg) Hj) as [Hin|?]; [set_solver| |done].
      by apply elem_of_nil in Hin.
Qed.

(** The dry run of the examples starts by listing the pull requests for
    good, and pull request 5, which the loop gets, had its view and its
    checks fetched for good. *)
Lemma C9_dry_run_keeps_queries_live_witness :
  let host := Examples.table_host Examples.answer_all in
  let r := @run host _ _ (@process_pull_requests Examples.lib default_config)
             [] in
  (∃ rest,
     trace r
     = EvPrint "LABELS=['automerge']"
       :: EvRun list_cmd (Examples.ok ("LIST" +:+ newline)) :: rest)
  ∧ (∃ res, EvRun (view_cmd 5) res ∈ trace r)
  ∧ (∃ res, EvRun (checks_cmd 5) res ∈ trace r).
Proof.
  intros host r.
  destruct (@C9_dry_run_keeps_queries_live Examples.lib host default_config
              eq_refl) as (_ & Hfirst & _ & _ & _ & Hloop).
  split; [apply (Hfirst [])|].
  apply (Hloop [] 0%nat
           (set_checks (PullRequest_of Examples.item5 Examples.view_main)
              (from_list Examples.two_pass)) ∅).
  by vm_compute.
Defined.

(** ** Order *)

Lemma elem_of_insert_by_number z x l :
  z ∈ insert_by_number x l ↔ z = x ∨ z ∈ l.
Proof.
  induction l as [|y l IH]; simpl.
  - rewrite list_elem_of_singleton, elem_of_nil. tauto.
  - case_decide; rewrite !elem_of_cons; [done|]. rewrite IH. tauto.
Qed.

Lemma insert_by_number_perm x l : insert_by_number x l ≡ₚ x :: l.
Proof.
  induction l as [|y l IH]; simpl; [done|].
  case_decide; [done|]. rewrite IH. apply Permutation_swap.
Qed.

Lemma insert_by_number_sorted x l :
  StronglySorted (λ a b, item_number a <= item_number b) l →
  StronglySorted (λ a b, item_number a <= item_number b) (insert_by_number x l).
Proof.
  induction 1 as [|y l Hl IH Hy]; simpl.
  - repeat constructor.
  - rewrite Forall_forall in Hy. case_decide as Hxy.
    + constructor; [by constructor; [|apply Forall_forall]|].
      constructor; [done|]. apply Forall_forall. intros z Hz.
      specialize (Hy z Hz). simpl in *. lia.
    + constructor; [done|]. apply Forall_forall. intros z.
      rewrite elem_of_insert_by_number. intros [->|Hz]; [lia|by apply Hy].
Qed.

Lemma sorted_by_number_sorted l :
  StronglySorted Z.le (item_number <$> sorted_by_number l).
Proof.
  apply (StronglySorted_fmap item_number
           (λ a b, item_number a <= item_number b)); [done|].
  unfold sorted_by_number.
  induction l; simpl; [constructor|by apply insert_by_number_sorted].
Qed.

Lemma sorted_by_number_perm l : sorted_by_number l ≡ₚ l.
Proof.
  unfold sorted_by_number. induction l as [|x l IH]; simpl; [done|].
  by rewrite insert_by_number_perm, IH.
Qed.

Lemma sublist_Forall_keep {A} (P : A → Prop) (l k : list A) :
  l `sublist_of` k → Forall P k → Forall P l.
Proof.
  induction 1; intros Hk; [done|..].
  - apply Forall_cons in Hk as [? ?]. constructor; auto.
  - apply Forall_cons in Hk as [? ?]. auto.
Qed.

Lemma sublist_StronglySorted {A} (R : relation A) (l k : list A) :
  l `sublist_of` k → StronglySorted R k → StronglySorted R l.
Proof.
  induction 1 as [|x l k Hsub IH|x l k Hsub IH]; intros Hk; [done|..].
  - apply StronglySorted_inv in Hk as [Hk Hx].
    constructor; [auto|]. by eapply sublist_Forall_keep.
  - apply StronglySorted_inv in Hk as [Hk Hx]. auto.
Qed.

Lemma sublist_fmap_keep {A B} (f : A → B) (l k : list A) :
  l `sublist_of` k → f <$> l `sublist_of` f <$> k.
Proof. induction 1; simpl; [done|by apply sublist_skip|by apply sublist_cons]. Qed.

(** *** What a computation may yield *)

Section Paths.
Context `{Host}.

Lemma yield_path_Ret_inv {Y R} (r : R) (ys : list Y) :
  yield_path (Ret r) ys → ys = [].
Proof. by inversion 1. Qed.

Lemma yield_path_Raise_inv {Y R} e (ys : list Y) :
  yield_path (@Raise Y R e) ys → ys = [].
Proof. by inversion 1. Qed.

(** What a run yields is a path of the computation. *)
Lemma yield_path_run {Y R} (g : Gen Y R) w : yield_path g (yields (run g w)).
Proof.
  revert w. induction g as [r|e|y k IH|line k IH|cmd k IH]; intros w; simpl;
    try constructor; auto.
  destruct (subprocess_run cmd w) as [[res|] w']; simpl.
  - by econstructor.
  - constructor.
Qed.

(** The values the variable of a loop takes are a path of its generator. *)
Lemma yield_path_iterations {Y Y' S} (g : Gen Y unit) (s : S)
    (body : Y -> S -> Gen Y' S) w :
  yield_path g (iterations g s body w).*1.
Proof.
  unfold iterations. revert s w.
  induction g as [r|e|y k IH|line k IH|cmd k IH]; intros s w; simpl.
  - constructor.
  - constructor.
  - destruct (outcome (run (body y s) w)) as [s'|e].
    + specialize (IH s' (world (run (body y s) w))).
      destruct (for_run k s' body _). simpl in *. by constructor.
    + simpl. repeat constructor.
  - specialize (IH s w). destruct (for_run k s body w). simpl in *.
    by constructor.
  - destruct (subprocess_run cmd w) as [[res|] w']; simpl; [|constructor].
    specialize (IH res s w'). destruct (for_run (k res) s body w').
    simpl in *. by econstructor.
Qed.

End Paths.

Lemma yield_path_gbind {Y R R'} (m : Gen Y R) (f : R -> Gen Y R') ys :
  yield_path (gbind m f) ys →
  ∃ ys1 ys2, ys = ys1 ++ ys2 ∧ yield_path m ys1
             ∧ (ys2 = [] ∨ ∃ r, yield_path (f r) ys2).
Proof.
  revert ys. induction m as [r|e|y k IH|line k IH|cmd k IH]; intros ys; simpl.
  - intros Hp. exists [], ys. split_and!; [done|constructor|eauto].
  - intros ->%yield_path_Raise_inv. exists [], []. split_and!; [done|constructor|eauto].
  - inversion 1 as [|? ? ys' Hk| |]; subst.
    + exists [], []. split_and!; [done|constructor|eauto].
    + destruct (IH _ Hk) as (ys1 & ys2 & -> & H1 & H2).
      exists (y :: ys1), ys2. split_and!; [done|by constructor|done].
  - inversion 1 as [| |? ? ys' Hk|]; subst.
    + exists [], []. split_and!; [done|constructor|eauto].
    + destruct (IH _ Hk) as (ys1 & ys2 & -> & H1 & H2).
      exists ys1, ys2. split_and!; [done|by constructor|done].
  - inversion 1 as [| | |? ? res ys' Hk]; subst.
    + exists [], []. split_and!; [done|constructor|eauto].
    + destruct (IH _ _ Hk) as (ys1 & ys2 & -> & H1 & H2).
      exists ys1, ys2. split_and!; [done|by econstructor|done].
Qed.

(** A loop whose body yields, for an item, nothing or one value with the
    key of the item, yields a subsequence of what its generator yields, up
    to keys. *)
Lemma yield_path_for_each {Y Y' S K} (key : Y → K) (key' : Y' → K)
    (g : Gen Y unit) (s : S) (body : Y -> S -> Gen Y' S) ys' :
  (∀ y s ys, yield_path (body y s) ys →
             ys = [] ∨ ∃ y', ys = [y'] ∧ key' y' = key y) →
  yield_path (for_each g s body) ys' →
  ∃ ys, yield_path g ys ∧ key' <$> ys' `sublist_of` key <$> ys.
Proof.
  intros Hbody. revert s ys'.
  induction g as [r|e|y k IH|line k IH|cmd k IH]; intros s ys'; simpl.
  - intros ->%yield_path_Ret_inv. exists []. split; [constructor|done].
  - intros ->%yield_path_Raise_inv. exists []. split; [constructor|done].
  - intros (ys1 & ys2 & -> & H1 & H2)%yield_path_gbind.
    assert (∃ ysk, yield_path k ysk ∧ key' <$> ys2 `sublist_of` key <$> ysk)
      as (ysk & Hk & Hsub).
    { destruct H2 as [->|[s' H2]]; [|by eapply IH].
      exists []. split; [constructor|done]. }
    exists (y :: ysk). split; [by constructor|].
    destruct (Hbody _ _ _ H1) as [->|(y' & -> & Hkey)]; simpl.
    + by apply sublist_cons.
    + rewrite Hkey. by apply sublist_skip.
  - inversion 1 as [| |? ? ys Hk|]; subst.
    + exists []. split; [constructor|done].
    + destruct (IH _ _ Hk) as (ys0 & H0 & Hsub).
      exists ys0. split; [by constructor|done].
  - inversion 1 as [| | |? ? res ys Hk]; subst.
    + exists []. split; [constructor|done].
    + destruct (IH _ _ _ Hk) as (ys0 & H0 & Hsub).
      exists ys0. split; [by econstructor|done].
Qed.

(** The same for a loop over a list. *)
Lemma yield_path_for_list {A Y K} (key : A → K) (key' : Y → K)
    (l : list A) (body : A -> Gen Y unit) ys :
  (∀ x ys, yield_path (body x) ys →
           ys = [] ∨ ∃ y, ys = [y] ∧ key' y = key x) →
  yield_path (for_list l body) ys →
  key' <$> ys `sublist_of` key <$> l.
Proof.
  intros Hbody. revert ys. induction l as [|x l IH]; intros ys; simpl.
  - by intros ->%yield_path_Ret_inv.
  - intros (ys1 & ys2 & -> & H1 & H2)%yield_path_gbind.
    assert (key' <$> ys2 `sublist_of` key <$> l) as Hsub.
    { destruct H2 as [->|[[] H2]]; [apply sublist_nil_l|by apply IH]. }
    destruct (Hbody _ _ H1) as [->|(y & -> & Hkey)]; simpl.
    + by apply sublist_cons.
    + rewrite Hkey. by apply sublist_skip.
Qed.

Lemma yield_path_gen_of_list {Y} (l ys : list Y) :
  yield_path (gen_of_list l) ys → ys `sublist_of` l.
Proof.
  revert ys. induction l as [|x l IH]; intros ys; simpl.
  - by intros ->%yield_path_Ret_inv.
  - inversion 1; subst; [apply sublist_nil_l|]. apply sublist_skip. auto.
Qed.

(** *** The paths of the pipeline *)

Ltac path_inv :=
  repeat match goal with
    | H : yield_path (Ret _) _ |- _ => apply yield_path_Ret_inv in H; subst
    | H : yield_path (Raise _) _ |- _ => apply yield_path_Raise_inv in H; subst
    | H : yield_path (Yield _ _) _ |- _ => inversion H; clear H; subst
    | H : yield_path (Print _ _) _ |- _ => inversion H; clear H; subst
    | H : yield_path (Run _ _) _ |- _ => inversion H; clear H; subst
    | H : yield_path (if ?c then _ else _) _ |- _ => destruct c
    | H : yield_path (match ?c with _ => _ end) _ |- _ => destruct c
    end.

Lemma yield_path_sh {Y} cmd dry_run (ys : list Y) :
  yield_path (sh cmd dry_run) ys → ys = [].
Proof. unfold sh. intros Hp. by path_inv. Qed.

Section PipelinePaths.
Context `{PyLib}.
Variable cfg : Config.

Lemma yield_path_get_pull_requests_body pr_dict ys :
  yield_path (get_pull_requests_body pr_dict) ys →
  ys = [] ∨ ∃ pr, ys = [pr] ∧ number pr = item_number pr_dict.
Proof.
  unfold get_pull_requests_body, mbind, Gen_bind.
  intros (ys1 & ys2 & -> & ->%yield_path_sh & H2)%yield_path_gbind.
  destruct H2 as [->|[json H2]]; [by left|]. simpl.
  path_inv; eauto.
Qed.

Lemma yield_path_match_labels_or_bot_body pr u ys :
  yield_path (match_labels_or_bot_body cfg pr u) ys →
  ys = [] ∨ ∃ pr', ys = [pr'] ∧ number pr' = number pr.
Proof. unfold match_labels_or_bot_body. intros Hp. path_inv; eauto. Qed.

Lemma yield_path_mergeable_prs_body pr u ys :
  yield_path (mergeable_prs_body pr u) ys →
  ys = [] ∨ ∃ pr', ys = [pr'] ∧ number pr' = number pr.
Proof. unfold mergeable_prs_body. intros Hp. path_inv; eauto. Qed.

Lemma yield_path_check_prs_ready_body pr u ys :
  yield_path (check_prs_ready_body cfg pr u) ys →
  ys = [] ∨ ∃ pr', ys = [pr'] ∧ forget_checks pr' = forget_checks pr.
Proof.
  unfold check_prs_ready_body, mbind, Gen_bind.
  intros (ys1 & ys2 & -> & ->%yield_path_sh & H2)%yield_path_gbind.
  destruct H2 as [->|[json H2]]; [by left|]. simpl.
  path_inv; eauto.
Qed.

Lemma number_forget_checks pr pr' :
  forget_checks pr' = forget_checks pr → number pr' = number pr.
Proof. by intros [=]. Qed.

(** What [get_pull_requests] yields is in ascending order of number. *)
Lemma yield_path_get_pull_requests ys :
  yield_path get_pull_requests ys → StronglySorted Z.le (number <$> ys).
Proof.
  unfold get_pull_requests, mbind, Gen_bind.
  intros (ys1 & ys2 & -> & ->%yield_path_sh & H2)%yield_path_gbind.
  destruct H2 as [->|[json H2]]; [constructor|]. simpl.
  destruct (json_loads_prs json) as [l|]; [|path_inv; constructor].
  eapply sublist_StronglySorted; [|apply (sorted_by_number_sorted l)].
  eapply yield_path_for_list; [|done].
  apply yield_path_get_pull_requests_body.
Qed.

(** Each stage keeps the numbers of a path of its input, in order. *)
Lemma yield_path_match_labels_or_bot g ys' :
  yield_path (match_labels_or_bot cfg g) ys' →
  ∃ ys, yield_path g ys ∧ number <$> ys' `sublist_of` number <$> ys.
Proof.
  unfold match_labels_or_bot. inversion 1; subst.
  - exists []. split; [constructor|done].
  - eapply yield_path_for_each; [|done].
    apply yield_path_match_labels_or_bot_body.
Qed.

Lemma yield_path_mergeable_prs g ys' :
  yield_path (mergeable_prs g) ys' →
  ∃ ys, yield_path g ys ∧ number <$> ys' `sublist_of` number <$> ys.
Proof.
  unfold mergeable_prs. apply yield_path_for_each.
  apply yield_path_mergeable_prs_body.
Qed.

Lemma yield_path_check_prs_ready g ys' :
  yield_path (check_prs_ready cfg g) ys' →
  ∃ ys, yield_path g ys
        ∧ forget_checks <$> ys' `sublist_of` forget_checks <$> ys
        ∧ number <$> ys' `sublist_of` number <$> ys.
Proof.
  unfold check_prs_ready. intros Hp. pose proof Hp as Hp'.
  apply (yield_path_for_each forget_checks forget_checks) in Hp
    as (ys & Hys & Hsub); [|apply yield_path_check_prs_ready_body].
  exists ys. split_and!; [done..|].
  assert (∀ l, number <$> l = number <$> (forget_checks <$> l)) as Hn
    by (intros l; by rewrite <- list_fmap_compose).
  rewrite (Hn ys'), (Hn ys). by apply sublist_fmap_keep.
Qed.

(** What the generator chain yields is in ascending order of number. *)
Lemma yield_path_ready_prs ys :
  yield_path (ready_prs cfg) ys → StronglySorted Z.le (number <$> ys).
Proof.
  unfold ready_prs.
  intros (ys3 & H3 & _ & S3)%yield_path_check_prs_ready.
  apply yield_path_mergeable_prs in H3 as (ys2 & H2 & S2).
  apply yield_path_match_labels_or_bot in H2 as (ys1 & H1 & S1).
  apply yield_path_get_pull_requests in H1.
  eapply sublist_StronglySorted; [|done].
  by repeat (etrans; [eassumption|]).
Qed.

End PipelinePaths.

(** C6: the listing is sorted by number, so [get_pull_requests] yields the
    pull requests in ascending order of number; each of the three stages
    yields a subsequence of what it is given, in the same order (the
    check-readiness stage with the checks attached); so the pull requests
    that the loop of [process_pull_requests] goes through are in ascending
    order of number. *)
Theorem C6_ready_sequence_ascending `{PyLib} `{Host} (cfg : Config) :
  (∀ l, StronglySorted Z.le (item_number <$> sorted_by_number l)
        ∧ sorted_by_number l ≡ₚ l)
  ∧ (∀ w, StronglySorted Z.le (number <$> yields (run get_pull_requests w)))
  ∧ (∀ prs w, yields (run (match_labels_or_bot cfg prs) w)
              `sublist_of` yields (run prs w))
  ∧ (∀ prs w, yields (run (mergeable_prs prs) w)
              `sublist_of` yields (run prs w))
  ∧ (∀ prs w,
       forget_checks <$> yields (run (check_prs_ready cfg (gen_of_list prs)) w)
       `sublist_of` forget_checks <$> prs)
  ∧ (∀ w,
       (for_run (ready_prs cfg) ∅ (merge_or_rebase cfg) w).2
       = run (coordinate cfg (ready_prs cfg)) w
       ∧ StronglySorted Z.le
           (number <$> (iterations (ready_prs cfg) ∅ (merge_or_rebase cfg) w).*1)).
Proof.
  split_and!.
  - intros l. split; [apply sorted_by_number_sorted|apply sorted_by_number_perm].
  - intros w. apply yield_path_get_pull_requests, yield_path_run.
  - intros prs w. destruct (run_match_labels_or_bot cfg prs w) as (-> & _).
    apply sublist_filter.
  - intros prs w. destruct (run_mergeable_prs prs w) as (-> & _).
    apply sublist_filter.
  - intros prs w.
    pose proof (yield_path_run (check_prs_ready cfg (gen_of_list prs)) w) as Hp.
    apply yield_path_check_prs_ready in Hp as (ys & Hys & Hsub & _).
    etrans; [done|]. apply yield_path_gen_of_list in Hys.
    by apply sublist_fmap_keep.
  - intros w. split; [apply for_run_run|].
    apply (yield_path_ready_prs cfg), yield_path_iterations.
Qed.

(** ** A scenario *)

Section Scenario.
Context `{PyLib} `{Host}.
Variables (approve_msg msg title5 title7 : string) (dry_run : bool).
Variables (author5 author7 : PullRequestAuthor) (name1 name2 : string).

Let cfg : Config :=
  {| APPROVE_MSG := approve_msg; BOT_AUTHORS := []; DRY_RUN := dry_run;
     LABELS := ["automerge"]; MIN_PASSING_CHECKS := 1 |}.
Let i5 : PrListItem :=
  {| item_number := 5; item_labels := [ {| label_name := "automerge" |} ];
     item_title := title5 |}.
Let i7 : PrListItem :=
  {| item_number := 7; item_labels := []; item_title := title7 |}.
Let v5 : PrView :=
  {| view_mergeable := "MERGEABLE"; view_baseRefName := "main";
     view_author := author5 |}.
Let v7 : PrView :=
  {| view_mergeable := "MERGEABLE"; view_baseRefName := "main";
     view_author := author7 |}.
Let c5 : list CheckObj :=
  [ {| obj_name := name1; obj_bucket := "pass" |};
    {| obj_name := name2; obj_bucket := "pass" |} ].

Hypothesis Hlist : answers list_cmd (λ out, json_loads_prs out = Some [i5; i7]).
Hypothesis Hview5 : answers (view_cmd 5) (λ out, json_loads_view out = Some v5).
Hypothesis Hview7 : answers (view_cmd 7) (λ out, json_loads_view out = Some v7).
Hypothesis Hchecks5 :
  answers (checks_cmd 5) (λ out, json_loads_checks out = Some c5).
Hypothesis Hformat : str_format approve_msg 5 = Some msg.
Hypothesis Hreview : answers (review_cmd 5 msg) (λ _, True).
Hypothesis Hmerge : answers (merge_cmd 5) (λ _, True).

Local Opaque view_cmd checks_cmd review_cmd merge_cmd rebase_cmd list_cmd
  strip tab.

Lemma scenario_label5 :
  match_labels_or_bot_body cfg (PullRequest_of i5 v5) ()
  = Print (tab "matches labels") (Yield (PullRequest_of i5 v5) (Ret ())).
Proof.
  unfold match_labels_or_bot_body.
  replace (missing_labels cfg (PullRequest_of i5 v5)) with (@nil string)
    by (by vm_compute).
  rewrite (bool_decide_eq_false_2 (_ ∈ _)) by apply not_elem_of_nil.
  by rewrite andb_false_r.
Qed.

Lemma scenario_label7 view :
  match_labels_or_bot_body cfg (PullRequest_of i7 view) ()
  = Print (tab "skipped not labeled with labels=automerge") (Ret ()).
Proof.
  unfold match_labels_or_bot_body.
  replace (missing_labels cfg (PullRequest_of i7 view)) with ["automerge"]
    by (by vm_compute).
  rewrite (bool_decide_eq_false_2 (_ ∈ _)) by apply not_elem_of_nil.
  by rewrite andb_false_r.
Qed.

Lemma scenario_mergeable5 :
  mergeable_prs_body (PullRequest_of i5 v5) ()
  = Print (tab "is mergeable") (Yield (PullRequest_of i5 v5) (Ret ())).
Proof. done. Qed.

Lemma scenario_approve w :
  let pr5 := set_checks (PullRequest_of i5 v5) (from_list c5) in
  ∃ tr w',
    run (merge_or_rebase cfg pr5 ∅) w
    = {| trace := tr; yields := []; outcome := Returned {[ "main" := pr5 ]};
         world := w' |}
    ∧ merge_events dry_run 5 msg "main" tr.
Proof.
  intros pr5. unfold merge_or_rebase. rewrite lookup_empty.
  unfold approve_and_merge_pr, merge_events.
  change (str_format (APPROVE_MSG cfg) (number pr5))
    with (str_format approve_msg 5).
  rewrite Hformat.
  change (number pr5) with 5. change (DRY_RUN cfg) with dry_run.
  change (baseRefName pr5) with "main". rewrite insert_empty.
  unfold mbind, Gen_bind. destruct dry_run.
  - do 2 eexists. split; reflexivity.
  - cbn [run after negb]. rewrite !run_gbind, !run_sh_live.
    destruct (Hreview w) as (r1 & w1 & -> & Hrc1 & _).
    rewrite decide_False by (by intros ?).
    unfold and_then at 1. cbn [outcome world trace yields].
    rewrite !run_gbind, !run_sh_live.
    destruct (Hmerge w1) as (r2 & w2 & -> & Hrc2 & _).
    rewrite decide_False by (by intros ?).
    unfold and_then. cbn.
    do 2 eexists. split; [reflexivity|]. by exists r1, r2.
Qed.

Local Opaque merge_or_rebase from_list.


End Scenario.

Lemma answers_table answer cmd out (P : string -> Prop) :
  answer cmd = Examples.ok out → P (strip out) →
  @answers (Examples.table_host answer) cmd P.
Proof.
  intros Ha HP w.
  exists {| returncode := 0; stdout := out; stderr := "" |}, (cmd :: w).
  simpl. by rewrite Ha.
Qed.


(** ** The configuration *)

Lemma split_commas_nonempty s : split_commas s ≠ [].
Proof. destruct s as [|c s]; simpl; [done|]. case_decide; [done|]. by destruct (split_commas s). Qed.

Lemma split_commas_comma_free a : comma_free a → split_commas a = [a].
Proof.
  unfold comma_free. induction a as [|c a IH]; simpl; [done|].
  rewrite not_elem_of_cons. intros [Hc Ha].
  rewrite decide_False by done. by rewrite IH.
Qed.

Lemma split_commas_app_comma a rest :
  comma_free a → split_commas (a +:+ "," +:+ rest) = a :: split_commas rest.
Proof.
  unfold comma_free. induction a as [|c a IH]; simpl; [done|].
  rewrite not_elem_of_cons. intros [Hc Ha].
  rewrite decide_False by done. by rewrite IH.
Qed.

Lemma split_commas_join l :
  l ≠ [] → Forall comma_free l → split_commas (join "," l) = l.
Proof.
  intros Hne Hall. induction Hall as [|a l Ha Hl IH]; [done|].
  destruct l as [|b l]; simpl.
  - by apply split_commas_comma_free.
  - change (split_commas (a +:+ "," +:+ join "," (b :: l)) = a :: b :: l).
    rewrite split_commas_app_comma by done. by rewrite IH.
Qed.

Lemma join_split_commas s : join "," (split_commas s) = s.
Proof.
  induction s as [|c s IH]; simpl; [done|].
  pose proof (split_commas_nonempty s) as Hne.
  case_decide as Hc.
  - subst c. destruct (split_commas s) as [|p ps] eqn:Hs; [done|].
    simpl in *. by rewrite IH.
  - destruct (split_commas s) as [|p ps] eqn:Hs; [done|].
    destruct ps; simpl in *; by rewrite <- IH.
Qed.

Lemma split_commas_pieces_comma_free s : Forall comma_free (split_commas s).
Proof.
  induction s as [|c s IH]; simpl.
  - repeat constructor. unfold comma_free. simpl. apply not_elem_of_nil.
  - case_decide as Hc.
    + constructor; [|done]. unfold comma_free. simpl. apply not_elem_of_nil.
    + destruct (split_commas s) as [|p ps]; simpl.
      * repeat constructor. unfold comma_free. simpl.
        rewrite not_elem_of_cons. split; [done|apply not_elem_of_nil].
      * apply Forall_cons in IH as [Hp Hps]. constructor; [|done].
        unfold comma_free in *. simpl. rewrite not_elem_of_cons. by split.
Qed.

Lemma comma_list_nil s : comma_list s = [] ↔ only_commas s.
Proof.
  unfold comma_list, only_commas. induction s as [|c s IH]; simpl.
  - split; [constructor|done].
  - rewrite Forall_cons. case_decide as Hc.
    + rewrite filter_cons_False by naive_solver. rewrite IH. naive_solver.
    + pose proof (split_commas_nonempty s).
      destruct (split_commas s) as [|p ps]; [done|].
      rewrite filter_cons_True by done. naive_solver.
Qed.

Lemma comma_list_pieces s :
  Forall (λ a, a ≠ "" ∧ comma_free a) (comma_list s).
Proof.
  unfold comma_list. apply Forall_forall. intros a [Ha Hin]%list_elem_of_filter.
  split; [done|].
  by eapply (proj1 (Forall_forall _ _) (split_commas_pieces_comma_free s)).
Qed.

Lemma comma_list_join l :
  Forall (λ a, a ≠ "" ∧ comma_free a) l → comma_list (join "," l) = l.
Proof.
  intros Hall. unfold comma_list. destruct l as [|a l]; [done|].
  rewrite split_commas_join; [|done|by eapply Forall_impl; [done|intros ? []]].
  induction Hall as [|b k [Hb _] Hk IH]; [done|].
  by rewrite filter_cons_True, IH.
Qed.

(** X1: the lists [LABELS] and [BOT_AUTHORS] of a loaded configuration hold
    no empty string and no string with a comma, and a list of such strings
    written with commas between them in the environment is read back as it
    is.  Joined by commas again, the pieces of a value give the value. *)
Theorem X1_comma_lists_of_environment (int : string -> option Z)
    (environ : gmap string string) (cfg : Config) :
  load_config int environ = Some cfg →
  Forall (λ a, a ≠ "" ∧ comma_free a) (LABELS cfg)
  ∧ Forall (λ a, a ≠ "" ∧ comma_free a) (BOT_AUTHORS cfg)
  ∧ (∀ l, Forall (λ a, a ≠ "" ∧ comma_free a) l →
          environ !! "LABELS" = Some (join "," l) → LABELS cfg = l)
  ∧ (∀ l, Forall (λ a, a ≠ "" ∧ comma_free a) l →
          environ !! "BOT_AUTHORS" = Some (join "," l) → BOT_AUTHORS cfg = l)
  ∧ (∀ s, join "," (split_commas s) = s).
Proof.
  unfold load_config. destruct (int _) as [n|]; [|done]. intros [= <-]. simpl.
  split_and!; try apply comma_list_pieces.
  - intros l Hl Henv. unfold environ_get. rewrite Henv. simpl.
    by apply comma_list_join.
  - intros l Hl Henv. unfold environ_get. rewrite Henv. simpl.
    by apply comma_list_join.
  - apply join_split_commas.
Qed.

(** X2: loading the configuration fails exactly when [int] raises on the
    value of [MIN_PASSING_CHECKS] (["1"] when unset); otherwise the run is a
    dry run unless [DRY_RUN] is set to something else than the very string
    ["true"]. *)
Theorem X2_dry_run_of_environment (int : string -> option Z)
    (environ : gmap string string) :
  (load_config int environ = None
   ↔ int (environ_get environ "MIN_PASSING_CHECKS" "1") = None)
  ∧ (∀ cfg, load_config int environ = Some cfg →
       int (environ_get environ "MIN_PASSING_CHECKS" "1")
       = Some (MIN_PASSING_CHECKS cfg)
       ∧ (DRY_RUN cfg = true
          ↔ environ !! "DRY_RUN" = None ∨ environ !! "DRY_RUN" = Some "true")
       ∧ (DRY_RUN cfg = false
          ↔ ∃ v, environ !! "DRY_RUN" = Some v ∧ v ≠ "true")).
Proof.
  unfold load_config. destruct (int _) as [n|]; [|done].
  split; [done|]. intros cfg [= <-]. simpl. split; [done|].
  unfold environ_get. destruct (environ !! "DRY_RUN") as [v|]; simpl.
  - case_bool_decide; naive_solver.
  - naive_solver.
Qed.

(** In the live environment of the examples the two labels are read back
    and the run is live. *)
Lemma X1_comma_lists_of_environment_witness :
  ∃ cfg,
    load_config ConfigExamples.int ConfigExamples.live_environ = Some cfg
    ∧ LABELS cfg = ["automerge"; "ready"].
Proof.
  eexists. split; [reflexivity|].
  destruct (X1_comma_lists_of_environment ConfigExamples.int
              ConfigExamples.live_environ _ eq_refl) as (_ & _ & Hback & _).
  apply (Hback ["automerge"; "ready"]); [|reflexivity].
  repeat (apply Forall_cons; split; [split; [done|]|]); [..|constructor];
    unfold comma_free; apply (bool_decide_unpack _); by vm_compute.
Defined.

(** X3: a loaded configuration requires no label exactly when [LABELS] is
    set in the environment to a value made of commas only (the empty value
    included); the label-or-bot stage then yields every pull request it is
    given. *)
Theorem X3_no_required_label `{PyLib} `{Host} (int : string -> option Z)
    (environ : gmap string string) (cfg : Config) :
  load_config int environ = Some cfg →
  (LABELS cfg = [] ↔ ∃ v, environ !! "LABELS" = Some v ∧ only_commas v)
  ∧ (LABELS cfg = [] →
     ∀ prs w, yields (run (match_labels_or_bot cfg prs) w) = yields (run prs w)).
Proof.
  intros Hload.
  assert (LABELS cfg = comma_list (environ_get environ "LABELS" "automerge"))
    as HL.
  { revert Hload. unfold load_config. destruct (int _); [|done].
    by intros [= <-]. }
  split.
  - rewrite HL, comma_list_nil. unfold environ_get.
    destruct (environ !! "LABELS") as [v|]; simpl; [naive_solver|].
    split; [|by intros (? & [=] & _)].
    unfold only_commas. simpl. intros Hall.
    apply Forall_cons in Hall as [[=] _].
  - intros Hnil prs w.
    destruct (run_match_labels_or_bot cfg prs w) as (-> & _).
    induction (yields (run prs w)) as [|pr l IH]; [done|].
    rewrite filter_cons_True, IH; [done|]. right; by left.
Qed.

(** With [LABELS] set to the empty string, a pull request without labels
    passes the stage. *)
Lemma X3_no_required_label_witness :
  let host := Examples.table_host Examples.answer_all in
  let pr7 := PullRequest_of Examples.item7 Examples.view_main in
  ∃ cfg,
    load_config ConfigExamples.int ConfigExamples.no_label_environ = Some cfg
    ∧ yields (@run host _ _
                (@match_labels_or_bot Examples.lib cfg (gen_of_list [pr7])) [])
      = [pr7].
Proof.
  intros host pr7. eexists. split; [reflexivity|].
  destruct (@X3_no_required_label Examples.lib host ConfigExamples.int
              ConfigExamples.no_label_environ _ eq_refl) as [_ Hall].
  by rewrite Hall.
Defined.

(** ** What reaches the coordinator *)

(** If every value that [g] may yield satisfies [P], and the body of a loop
    over [g] yields only values that satisfy [Q] when its item satisfies
    [P], then the loop yields only values that satisfy [Q]. *)
Lemma yield_path_for_each_Forall {Y Y' S} (P : Y → Prop) (Q : Y' → Prop)
    (g : Gen Y unit) (s : S) (body : Y -> S -> Gen Y' S) ys' :
  (∀ ys, yield_path g ys → Forall P ys) →
  (∀ y s ys, P y → yield_path (body y s) ys → Forall Q ys) →
  yield_path (for_each g s body) ys' → Forall Q ys'.
Proof.
  intros Hg Hbody. revert s ys' Hg.
  induction g as [r|e|y k IH|line k IH|cmd k IH]; intros s ys' Hg; simpl.
  - by intros ->%yield_path_Ret_inv.
  - by intros ->%yield_path_Raise_inv.
  - intros (ys1 & ys2 & -> & H1 & H2)%yield_path_gbind.
    assert (P y) as Hy.
    { specialize (Hg [y] (yield_path_Yield _ _ _ (yield_path_nil _))).
      by apply Forall_cons in Hg as [? _]. }
    apply Forall_app. split; [by eapply Hbody|].
    destruct H2 as [->|[s' H2]]; [done|]. eapply IH; [|done].
    intros ys Hys. specialize (Hg (y :: ys) (yield_path_Yield _ _ _ Hys)).
    by apply Forall_cons in Hg as [_ ?].
  - inversion 1 as [| |? ? ys Hk|]; subst; [done|].
    eapply IH; [|done]. intros ys0 Hys0. apply Hg. by constructor.
  - inversion 1 as [| | |? ? res ys Hk]; subst; [done|].
    eapply IH; [|done]. intros ys0 Hys0. apply Hg. by econstructor.
Qed.

Lemma yield_path_Print_inv {Y R} line (k : Gen Y R) ys :
  yield_path (Print line k) ys → yield_path k ys.
Proof. inversion 1; subst; [constructor|done]. Qed.

Section Eligible.
Context `{PyLib}.
Variable cfg : Config.

Lemma yield_path_label_ok pr u ys :
  yield_path (match_labels_or_bot_body cfg pr u) ys →
  Forall (label_or_bot_ok cfg) ys.
Proof.
  unfold match_labels_or_bot_body.
  pose proof (label_or_bot_cond cfg pr) as Hc.
  destruct (is_bot _ && bool_decide _) eqn:E1; simpl in *.
  - intros Hp. path_inv; rewrite ?Forall_singleton; try done; by apply Hc.
  - destruct (negb _ || negb _) eqn:E2; intros Hp; path_inv;
      rewrite ?Forall_singleton; try done; by apply Hc.
Qed.

Lemma yield_path_mergeable_ok (P : PullRequest → Prop) pr u ys :
  P pr →
  yield_path (mergeable_prs_body pr u) ys →
  Forall (λ pr, P pr ∧ mergeable pr = "MERGEABLE") ys.
Proof.
  unfold mergeable_prs_body. intros HP Hp.
  case_decide; path_inv; rewrite ?Forall_singleton; done.
Qed.

Lemma yield_path_checks_ok pr u ys :
  label_or_bot_ok cfg pr ∧ mergeable pr = "MERGEABLE" →
  yield_path (check_prs_ready_body cfg pr u) ys →
  Forall (eligible cfg) ys.
Proof.
  intros [Hl Hm]. unfold check_prs_ready_body, mbind, Gen_bind.
  intros (ys1 & ys2 & -> & ->%yield_path_sh & H2)%yield_path_gbind.
  destruct H2 as [->|[json H2]]; [done|]. simpl.
  destruct (json_loads_checks json) as [l|]; [|by path_inv].
  destruct (decide (int_or _ _ ≠ 0)) as [|Hz]; [by path_inv|].
  destruct (decide (_ < _)) as [|Hmin]; [by path_inv|].
  apply dec_stable in Hz. rewrite !int_or_zero, !len_zero in Hz.
  path_inv; rewrite ?Forall_singleton; try done.
  split_and!; try done.
  exists (from_list l). split; [done|]. unfold checks_ok, len in *. lia.
Qed.

(** Every pull request that the generator chain yields is eligible. *)
Lemma yield_path_ready_prs_eligible ys :
  yield_path (ready_prs cfg) ys → Forall (eligible cfg) ys.
Proof.
  unfold ready_prs, check_prs_ready.
  apply (yield_path_for_each_Forall
           (λ pr, label_or_bot_ok cfg pr ∧ mergeable pr = "MERGEABLE")).
  - unfold mergeable_prs. intros ys'.
    apply (yield_path_for_each_Forall (label_or_bot_ok cfg)).
    + unfold match_labels_or_bot. intros ys'' Hp%yield_path_Print_inv.
      eapply (yield_path_for_each_Forall (λ _, True)); [| |exact Hp].
      * intros. by apply Forall_true.
      * intros. by eapply yield_path_label_ok.
    + intros. by eapply yield_path_mergeable_ok.
  - intros. by eapply yield_path_checks_ok.
Qed.

End Eligible.

(** X4: whatever the host answers, every pull request that the loop of
    [process_pull_requests] gets (and so every pull request that is merged
    or rebased) satisfies the label-or-bot condition, is mergeable, and
    carries checks with no failed, pending or cancelled one and at least
    [MIN_PASSING_CHECKS] passed ones. *)
Theorem X4_only_eligible_reach_the_loop `{PyLib} `{Host} (cfg : Config)
    (w : World) (j : nat) (pr : PullRequest) (merged : gmap string PullRequest) :
  iterations (ready_prs cfg) ∅ (merge_or_rebase cfg) w !! j = Some (pr, merged) →
  label_or_bot_ok cfg pr
  ∧ mergeable pr = "MERGEABLE"
  ∧ ∃ c, checks pr = Some c
         ∧ length (failed c) = 0%nat ∧ length (pending c) = 0%nat
         ∧ length (cancel c) = 0%nat
         ∧ MIN_PASSING_CHECKS cfg <= Z.of_nat (length (passed c)).
Proof.
  intros Hj.
  pose proof (yield_path_iterations (ready_prs cfg) ∅ (merge_or_rebase cfg) w)
    as Hp.
  apply yield_path_ready_prs_eligible in Hp.
  rewrite Forall_forall in Hp.
  assert (pr ∈ (iterations (ready_prs cfg) ∅ (merge_or_rebase cfg) w).*1) as Hin.
  { apply list_elem_of_lookup. exists j. by rewrite list_lookup_fmap, Hj. }
  apply Hp in Hin as (Hl & Hm & c & Hc & Hok). eauto.
Qed.

(** The one pull request that reaches the loop in the run of the examples
    is eligible. *)
Lemma X4_only_eligible_reach_the_loop_witness :
  let pr5 := set_checks (PullRequest_of Examples.item5 Examples.view_main)
               (from_list Examples.two_pass) in
  label_or_bot_ok default_config pr5
  ∧ mergeable pr5 = "MERGEABLE"
  ∧ ∃ c, checks pr5 = Some c
         ∧ length (failed c) = 0%nat ∧ length (pending c) = 0%nat
         ∧ length (cancel c) = 0%nat
         ∧ MIN_PASSING_CHECKS default_config <= Z.of_nat (length (passed c)).
Proof.
  intros pr5.
  apply (@X4_only_eligible_reach_the_loop Examples.lib
            (Examples.table_host Examples.answer_all) default_config []
            0%nat pr5 ∅).
  by vm_compute.
Defined.

(** ** More on the stages *)

Section StagesExtra.
Context `{PyLib} `{Host}.
Variable cfg : Config.

Lemma commands_of_after {Y R} evs (ys : list Y) (r : Result World Y R) :
  commands_of (trace (after evs ys r))
  = commands_of evs ++ commands_of (trace r).
Proof. unfold commands_of. simpl. apply omap_app. Qed.

(** A loop whose body only prints runs the commands of its generator. *)
Lemma run_for_each_filter_commands {Y} (P : Y -> Prop) `{∀ y, Decision (P y)}
    (body : Y -> unit -> Gen Y unit) (g : Gen Y unit) w :
  (∀ y w', ∃ line,
      run (body y ()) w' =
      {| trace := [EvPrint line]; yields := if decide (P y) then [y] else [];
         outcome := Returned (); world := w' |}) →
  commands_of (trace (run (for_each g () body) w))
  = commands_of (trace (run g w)).
Proof.
  intros Hbody. revert w.
  induction g as [[]|e|y k IH|line k IH|cmd k IH]; intros w; simpl; try done.
  - rewrite run_gbind. destruct (Hbody y w) as [line ->].
    unfold and_then. simpl. apply IH.
  - destruct (subprocess_run cmd w) as [[res|] w']; [|done]. simpl.
    f_equal. apply IH.
Qed.

End StagesExtra.

(** X5: the mergeability stage yields, in their order, the pull requests of
    its input whose status is exactly the string [MERGEABLE], and nothing
    else changes: it runs the commands of its input and no other, ends as
    its input ends and leaves the world as its input leaves it. *)
Theorem X5_mergeability_stage `{Host} (prs : Gen PullRequest unit) (w : World) :
  yields (run (mergeable_prs prs) w)
  = filter (λ pr, mergeable pr = "MERGEABLE") (yields (run prs w))
  ∧ commands_of (trace (run (mergeable_prs prs) w))
    = commands_of (trace (run prs w))
  ∧ outcome (run (mergeable_prs prs) w) = outcome (run prs w)
  ∧ world (run (mergeable_prs prs) w) = world (run prs w).
Proof.
  destruct (run_mergeable_prs prs w) as (Hy & Ho & Hw).
  split_and!; try done.
  unfold mergeable_prs.
  apply (run_for_each_filter_commands (λ pr, mergeable pr = "MERGEABLE")).
  intros. apply run_mergeable_prs_body.
Qed.

(** ** More on the checks *)

Lemma with_bucket_app tag l1 l2 :
  with_bucket tag (l1 ++ l2) = with_bucket tag l1 ++ with_bucket tag l2.
Proof. unfold with_bucket. apply filter_app. Qed.

Lemma with_bucket_insert_other tag l1 o l2 :
  obj_bucket o ≠ tag →
  with_bucket tag (l1 ++ o :: l2) = with_bucket tag (l1 ++ l2).
Proof.
  intros Hne. rewrite !with_bucket_app, with_bucket_cons.
  by rewrite decide_False.
Qed.

(** X6: classifying a list of checks made of two parts gives, in each of
    the five sequences, what the first part gives followed by what the
    second part gives; the empty list gives five empty sequences. *)
Theorem X6_from_list_app (l1 l2 : list CheckObj) :
  passed (from_list (l1 ++ l2)) = passed (from_list l1) ++ passed (from_list l2)
  ∧ failed (from_list (l1 ++ l2))
    = failed (from_list l1) ++ failed (from_list l2)
  ∧ pending (from_list (l1 ++ l2))
    = pending (from_list l1) ++ pending (from_list l2)
  ∧ skipping (from_list (l1 ++ l2))
    = skipping (from_list l1) ++ skipping (from_list l2)
  ∧ cancel (from_list (l1 ++ l2))
    = cancel (from_list l1) ++ cancel (from_list l2)
  ∧ from_list []
    = {| passed := []; failed := []; pending := []; skipping := [];
         cancel := [] |}.
Proof.
  rewrite !from_list_buckets. simpl. rewrite !with_bucket_app. done.
Qed.

(** X7: a check whose bucket is none of [pass], [fail], [pending] and
    [cancel] (a skipped check, or one with a tag the script does not know)
    has no say in the check-readiness stage: with or without it among the
    checks fetched, the stage prints the same and yields the pull request
    or not alike. *)
Theorem X7_uncounted_checks_have_no_say `{PyLib} `{Host} (cfg : Config)
    (pr : PullRequest) (w1 w2 : World) (result1 result2 : CompletedProcess)
    (w1' w2' : World) (l1 l2 : list CheckObj) (o : CheckObj) :
  ¬ counted (obj_bucket o) →
  subprocess_run (checks_cmd (number pr)) w1 = (Some result1, w1') →
  returncode result1 = 0 →
  json_loads_checks (strip (stdout result1)) = Some (l1 ++ l2) →
  subprocess_run (checks_cmd (number pr)) w2 = (Some result2, w2') →
  returncode result2 = 0 →
  json_loads_checks (strip (stdout result2)) = Some (l1 ++ o :: l2) →
  let r1 := run (check_prs_ready_body cfg pr ()) w1 in
  let r2 := run (check_prs_ready_body cfg pr ()) w2 in
  tail (trace r1) = tail (trace r2)
  ∧ forget_checks <$> yields r1 = forget_checks <$> yields r2
  ∧ (yields r1 = [] ↔ yields r2 = []).
Proof.
  intros Ho Hrun1 Hrc1 Hd1 Hrun2 Hrc2 Hd2 r1 r2. unfold r1, r2.
  rewrite (run_check_prs_ready_body cfg pr w1 result1 w1' (l1 ++ l2)) by done.
  rewrite (run_check_prs_ready_body cfg pr w2 result2 w2' (l1 ++ o :: l2))
    by done.
  unfold counted in Ho. rewrite !elem_of_cons, elem_of_nil in Ho.
  unfold checks_ok. rewrite !from_list_buckets. simpl.
  rewrite !(with_bucket_insert_other _ l1 o l2) by tauto.
  split_and!; [done| |].
  - by repeat case_decide.
  - by repeat case_decide.
Qed.

(** X8: a pull request that has no check at all is yielded by the
    check-readiness stage only when [MIN_PASSING_CHECKS] is zero or less;
    with a positive minimum, as by default, it is skipped as having too few
    checks, namely 0.  This holds of the body of the loop, of the stage over
    one such pull request, and of the stage over a list of them: with a
    positive minimum the stage fetches the checks of each and yields
    nothing. *)
Theorem X8_no_checks_at_all `{PyLib} `{Host} (cfg : Config) :
  (∀ (pr : PullRequest) (w : World) (result : CompletedProcess) (w' : World),
     subprocess_run (checks_cmd (number pr)) w = (Some result, w') →
     returncode result = 0 →
     json_loads_checks (strip (stdout result)) = Some [] →
     let r := run (check_prs_ready_body cfg pr ()) w in
     run (check_prs_ready cfg (gen_of_list [pr])) w = r
     ∧ (0 < MIN_PASSING_CHECKS cfg →
        yields r = []
        ∧ trace r = [EvRun (checks_cmd (number pr)) (Some result);
                     EvPrint (too_few_msg 0)])
     ∧ (MIN_PASSING_CHECKS cfg <= 0 →
        yields r = [set_checks pr (from_list [])]
        ∧ trace r = [EvRun (checks_cmd (number pr)) (Some result)])
     ∧ outcome r = Returned () ∧ world r = w')
  ∧ (∀ (l : list PullRequest) (w : World),
       (∀ pr, pr ∈ l →
          answers (checks_cmd (number pr))
            (λ s, json_loads_checks s = Some [])) →
       let stage := run (check_prs_ready cfg (gen_of_list l)) w in
       commands_of (trace stage) = (λ pr, checks_cmd (number pr)) <$> l
       ∧ (0 < MIN_PASSING_CHECKS cfg → yields stage = [])
       ∧ (MIN_PASSING_CHECKS cfg <= 0 →
          yields stage = (λ pr, set_checks pr (from_list [])) <$> l)).
Proof.
  split.
  - intros pr w result w' Hrun Hrc Hd r. unfold r.
    split; [apply run_for_each_singleton|].
    rewrite (run_check_prs_ready_body cfg pr w result w' []) by done.
    cbv zeta. unfold checks_ok, len.
    change (from_list []) with
      {| passed := []; failed := []; pending := []; skipping := [];
         cancel := [] |}.
    cbn [passed failed pending cancel length trace yields outcome world].
    split_and!; try done.
    + intros Hpos.
      rewrite (decide_True (P := _ ∧ _ ∧ 0%nat = 0%nat)) by done.
      rewrite (decide_True (P := _ < _)) by lia.
      by rewrite (decide_False (P := _ ∧ _ ∧ _ ∧ _ ≤ _)) by lia.
    + intros Hle.
      rewrite (decide_True (P := _ ∧ _ ∧ 0%nat = 0%nat)) by done.
      rewrite (decide_False (P := _ < _)) by lia.
      by rewrite (decide_True (P := _ ∧ _ ∧ _ ∧ _ ≤ _)) by lia.
  - intros l w Hall stage.
    destruct (run_check_prs_ready_list cfg (λ _, []) l w Hall)
      as (Hy & Hc & _).
    fold stage in Hy, Hc. split_and!; [done| |].
    + intros Hpos. rewrite Hy.
      assert (¬ checks_ok cfg (from_list [])) as Hno.
      { unfold checks_ok. simpl. lia. }
      clear Hy Hc Hall. induction l as [|pr l IH]; [done|].
      by rewrite filter_cons_False.
    + intros Hle. rewrite Hy.
      assert (checks_ok cfg (from_list [])) as Hyes.
      { unfold checks_ok. simpl. split_and!; [done..|lia]. }
      clear Hy Hc Hall. induction l as [|pr l IH]; [done|].
      rewrite filter_cons_True by done. rewrite !fmap_cons. by rewrite IH.
Qed.

(** With the skipped check [docs] between the two passed checks or without
    it, pull request 1 of the examples is yielded. *)
Lemma X7_uncounted_checks_have_no_say_witness :
  let r1 := @run ChecksExamples.echo_host _ _
              (@check_prs_ready_body ChecksExamples.lib default_config
                 Examples.ready1 ()) "TWO" in
  let r2 := @run ChecksExamples.echo_host _ _
              (@check_prs_ready_body ChecksExamples.lib default_config
                 Examples.ready1 ()) "THREE" in
  tail (trace r1) = tail (trace r2)
  ∧ forget_checks <$> yields r1 = forget_checks <$> yields r2
  ∧ (yields r1 = [] ↔ yields r2 = []).
Proof.
  apply (@X7_uncounted_checks_have_no_say ChecksExamples.lib
           ChecksExamples.echo_host default_config Examples.ready1
           "TWO" "THREE"
           {| returncode := 0; stdout := "TWO"; stderr := "" |}
           {| returncode := 0; stdout := "THREE"; stderr := "" |}
           "TWO" "THREE"
           [ChecksExamples.build] [ChecksExamples.test] ChecksExamples.docs);
    try reflexivity.
  unfold counted. apply (bool_decide_unpack _). by vm_compute.
Defined.

(** With the default minimum of one passed check, the stage over pull
    request 1 of the examples, which has no check at all, fetches its
    checks and yields nothing. *)
Lemma X8_no_checks_at_all_witness :
  let stage :=
    @run ChecksExamples.echo_host _ _
      (@check_prs_ready ChecksExamples.lib default_config
         (gen_of_list [Examples.ready1])) "NONE" in
  yields stage = []
  ∧ trace stage = [EvRun (checks_cmd 1) (Examples.ok "NONE");
                   EvPrint (too_few_msg 0)].
Proof.
  intros stage.
  destruct (@X8_no_checks_at_all ChecksExamples.lib ChecksExamples.echo_host
              default_config) as (Hone & _).
  destruct (Hone Examples.ready1 "NONE"
              {| returncode := 0; stdout := "NONE"; stderr := "" |} "NONE"
              eq_refl eq_refl eq_refl) as (Hstage & Hpos & _).
  unfold stage. rewrite Hstage. apply Hpos. reflexivity.
Defined.

(** ** More on approving, merging and rebasing *)

(** X9: in a live run [approve_and_merge_pr] posts the approval comment
    before it merges.  If the approval fails, the merge is not attempted; if
    the merge fails, the approval has been posted already, the line
    [merged to] is not printed and the exception of [sh] ends the call, so
    the base branch is not recorded; if both succeed, the line is printed
    and the pull request is recorded for its base branch. *)
Theorem X9_approve_before_merge `{PyLib} `{Host} (cfg : Config)
    (pr : PullRequest) (merged : gmap string PullRequest) (w : World)
    (msg : string) (res1 : CompletedProcess) (w1 : World) :
  DRY_RUN cfg = false →
  str_format (APPROVE_MSG cfg) (number pr) = Some msg →
  subprocess_run (review_cmd (number pr) msg) w = (Some res1, w1) →
  let r := run (approve_and_merge_pr (Y:=Empty_set) cfg pr merged) w in
  let review := EvRun (review_cmd (number pr) msg) (Some res1) in
  (returncode res1 ≠ 0 →
   trace r = [EvPrint (tab "is ready to merging"); review]
   ∧ outcome r
     = Raised (Exception (sh_error (review_cmd (number pr) msg) res1))
   ∧ world r = w1)
  ∧ (returncode res1 = 0 →
     ∀ res2 w2,
       subprocess_run (merge_cmd (number pr)) w1 = (Some res2, w2) →
       let merge := EvRun (merge_cmd (number pr)) (Some res2) in
       world r = w2
       ∧ (returncode res2 ≠ 0 →
          trace r = [EvPrint (tab "is ready to merging"); review; merge]
          ∧ outcome r
            = Raised (Exception (sh_error (merge_cmd (number pr)) res2)))
       ∧ (returncode res2 = 0 →
          trace r = [EvPrint (tab "is ready to merging"); review; merge;
                     EvPrint (tab ("merged to " +:+ baseRefName pr))]
          ∧ outcome r = Returned (<[baseRefName pr := pr]> merged))).
Proof.
  intros Hlive Hfmt Hrun r review. unfold r, review, approve_and_merge_pr.
  rewrite Hfmt, Hlive. unfold mbind, Gen_bind. simpl. rewrite Hrun.
  split.
  - intros Hrc. by rewrite decide_True by done.
  - intros Hrc res2 w2 Hrun2. rewrite decide_False by (by intros ?).
    simpl. rewrite Hrun2. split_and!.
    + by case_decide.
    + intros Hrc2. by rewrite decide_True by done.
    + intros Hrc2. by rewrite decide_False by (by intros ?).
Qed.

(** On the example host where the merge of pull request 5 fails, the call
    for pull request 5 ends with the exception of [sh] for the merge, after
    the approval. *)
Lemma X9_approve_before_merge_witness :
  let host := Examples.table_host Examples.answer_merge_fails in
  let pr5 := PullRequest_of Examples.item5 Examples.view_main in
  let r := @run host _ _
             (@approve_and_merge_pr Examples.lib Examples.live_config
                Empty_set pr5 ∅) [] in
  trace r
  = [EvPrint (tab "is ready to merging");
     EvRun (review_cmd 5 "All status checks passed for PR #5.")
       (Examples.ok "");
     EvRun (merge_cmd 5) (Examples.ko "not allowed")]
  ∧ outcome r
    = Raised (Exception (sh_error (merge_cmd 5)
                {| returncode := 1; stdout := ""; stderr := "not allowed" |})).
Proof.
  intros host pr5 r.
  destruct (@X9_approve_before_merge Examples.lib host Examples.live_config
              pr5 ∅ [] "All status checks passed for PR #5."
              {| returncode := 0; stdout := ""; stderr := "" |}
              [review_cmd 5 "All status checks passed for PR #5."]
              eq_refl eq_refl eq_refl) as (_ & Hok).
  destruct (Hok eq_refl
              {| returncode := 1; stdout := ""; stderr := "not allowed" |}
              [merge_cmd 5; review_cmd 5 "All status checks passed for PR #5."]
              eq_refl) as (_ & Hfail & _).
  apply Hfail. discriminate.
Defined.

Section LoopFacts.
Context `{PyLib} `{Host}.
Variable cfg : Config.

(** When the loop returns, [merged] is what the pull requests of its
    iterations made of the dict it started with. *)
Lemma for_run_returned ready (m m' : gmap string PullRequest) w :
  outcome (for_run ready m (merge_or_rebase cfg) w).2 = Returned m' →
  m' = foldl claim_base m (for_run ready m (merge_or_rebase cfg) w).1.*1.
Proof.
  revert m w.
  induction ready as [r|e|y k IH|line k IH|cmd k IH]; intros m w; simpl;
    try done.
  - by intros [= <-].
  - destruct (outcome (run (merge_or_rebase cfg y m) w)) as [m1|e] eqn:Ho.
    + apply run_merge_or_rebase_returned in Ho as ->.
      specialize (IH (claim_base m y) (world (run (merge_or_rebase cfg y m) w))).
      destruct (for_run k _ _ _) as [its r']. simpl in *. apply IH.
    + done.
  - specialize (IH m w). by destruct (for_run k m _ w).
  - destruct (subprocess_run cmd w) as [[res|] w']; [|done].
    specialize (IH res m w'). by destruct (for_run (k res) m _ w').
Qed.

(** In a dry run with a message that can be formatted, the body of the
    loop only prints, and returns. *)
Lemma run_merge_or_rebase_dry pr (m : gmap string PullRequest) w :
  DRY_RUN cfg = true →
  is_Some (str_format (APPROVE_MSG cfg) (number pr)) →
  ∃ lines,
    run (merge_or_rebase cfg pr m) w =
    {| trace := EvPrint <$> lines; yields := [];
       outcome := Returned (claim_base m pr); world := w |}.
Proof.
  intros Hdry [msg Hfmt]. unfold merge_or_rebase, claim_base.
  destruct (m !! baseRefName pr) as [p|].
  - unfold rebase_pr. rewrite Hdry. by eexists [_; _].
  - unfold approve_and_merge_pr. rewrite Hfmt, Hdry. by eexists [_; _; _].
Qed.

(** So in such a dry run the loop runs the commands of its generator and no
    other, and ends as its generator ends. *)
Lemma run_for_each_dry ready (m : gmap string PullRequest) w :
  DRY_RUN cfg = true →
  (∀ n, is_Some (str_format (APPROVE_MSG cfg) n)) →
  let loop := run (for_each ready m (merge_or_rebase cfg)) w in
  commands_of (trace loop) = commands_of (trace (run ready w))
  ∧ world loop = world (run ready w)
  ∧ outcome loop
    = match outcome (run ready w) with
      | Returned _ => Returned (foldl claim_base m (yields (run ready w)))
      | Raised e => Raised e
      end.
Proof.
  intros Hdry Hfmt. revert m w.
  induction ready as [[]|e|y k IH|line k IH|cmd k IH]; intros m w; simpl;
    try done.
  - rewrite run_gbind.
    destruct (run_merge_or_rebase_dry y m w Hdry (Hfmt _)) as [lines ->].
    unfold and_then. simpl. rewrite commands_of_app, commands_of_prints.
    apply IH.
  - destruct (subprocess_run cmd w) as [[res|] w']; [|done]. simpl.
    destruct (IH res m w') as (-> & -> & ->). done.
Qed.

End LoopFacts.

(** X10: in a dry run, if the approval message can be formatted for every
    number, the loop of [process_pull_requests] adds nothing to what the
    chain of generators does: the commands run are those of the chain, in
    their order, the world is left as the chain leaves it, and the run
    raises only if the chain raises.  So a whole dry run runs the commands
    of [ready_prs], and returns when [ready_prs] returns. *)
Theorem X10_dry_run_loop_adds_nothing `{PyLib} `{Host} (cfg : Config) :
  DRY_RUN cfg = true →
  (∀ n, is_Some (str_format (APPROVE_MSG cfg) n)) →
  (∀ ready w,
     let loop := run (coordinate cfg ready) w in
     commands_of (trace loop) = commands_of (trace (run ready w))
     ∧ world loop = world (run ready w)
     ∧ outcome loop
       = match outcome (run ready w) with
         | Returned _ => Returned (foldl claim_base ∅ (yields (run ready w)))
         | Raised e => Raised e
         end)
  ∧ (∀ w,
       let whole := run (process_pull_requests cfg) w in
       commands_of (trace whole) = commands_of (trace (run (ready_prs cfg) w))
       ∧ world whole = world (run (ready_prs cfg) w)
       ∧ outcome whole = outcome (run (ready_prs cfg) w)).
Proof.
  intros Hdry Hfmt.
  assert (∀ ready w,
     let loop := run (coordinate cfg ready) w in
     commands_of (trace loop) = commands_of (trace (run ready w))
     ∧ world loop = world (run ready w)
     ∧ outcome loop
       = match outcome (run ready w) with
         | Returned _ => Returned (foldl claim_base ∅ (yields (run ready w)))
         | Raised e => Raised e
         end) as Hloop.
  { intros ready w. by apply run_for_each_dry. }
  split; [done|]. intros w whole. unfold whole, process_pull_requests.
  unfold mbind, Gen_bind. rewrite run_gbind.
  destruct (Hloop (ready_prs cfg) w) as (Hc & Hw & Ho).
  unfold and_then. rewrite Ho.
  destruct (outcome (run (ready_prs cfg) w)) as [[]|e]; simpl.
  - by rewrite !app_nil_r.
  - done.
Qed.

(** X11: when the loop of [process_pull_requests] ends normally, [merged]
    holds, for each base branch, the first pull request of the iterations
    with that base branch, and nothing for a branch that is the base of none:
    every entry is filed under its own base branch, and the base branch of
    every pull request of the iterations has an entry. *)
Theorem X11_merged_at_the_end `{PyLib} `{Host} (cfg : Config)
    (ready : Gen PullRequest unit) (w : World)
    (merged : gmap string PullRequest) :
  outcome (run (coordinate cfg ready) w) = Returned merged →
  let prs := (iterations ready ∅ (merge_or_rebase cfg) w).*1 in
  (∀ b, merged !! b = head (filter (λ p, baseRefName p = b) prs))
  ∧ (∀ b p, merged !! b = Some p → baseRefName p = b ∧ p ∈ prs)
  ∧ (∀ p, p ∈ prs → is_Some (merged !! baseRefName p)).
Proof.
  intros Hret prs.
  assert (∀ b, merged !! b = head (filter (λ p, baseRefName p = b) prs))
    as Hhead.
  { intros b. unfold coordinate in Hret. rewrite <- for_run_run in Hret.
    apply for_run_returned in Hret as ->.
    by rewrite foldl_claim_base_lookup, lookup_empty. }
  split_and!; [done| |].
  - intros b p. rewrite Hhead. intros Hp.
    assert (p ∈ filter (λ p, baseRefName p = b) prs) as Hin.
    { destruct (filter _ prs); simplify_eq/=. apply list_elem_of_here. }
    by apply list_elem_of_filter in Hin.
  - intros p Hp. rewrite Hhead.
    assert (p ∈ filter (λ q, baseRefName q = baseRefName p) prs) as Hin
      by (by apply list_elem_of_filter).
    destruct (filter _ prs); [by apply elem_of_nil in Hin|by eexists].
Qed.

(** The default configuration is a dry run and the message of the examples
    can always be formatted: on the example host the whole run ends as the
    chain of generators ends. *)
Lemma X10_dry_run_loop_adds_nothing_witness :
  let host := Examples.table_host Examples.answer_all in
  outcome (@run host _ _ (@process_pull_requests Examples.lib default_config) [])
  = outcome (@run host _ _ (@ready_prs Examples.lib default_config) []).
Proof.
  intros host.
  destruct (@X10_dry_run_loop_adds_nothing Examples.lib host default_config
              eq_refl (λ n, mk_is_Some _ _ eq_refl)) as (_ & Hwhole).
  apply Hwhole.
Defined.

(** After the loop over pull requests 1 and 2, both for [main], the dict
    holds pull request 1 for [main]. *)
Lemma X11_merged_at_the_end_witness :
  let host := Examples.table_host Examples.answer_all in
  let ready := gen_of_list [Examples.ready1; Examples.ready2] in
  let merged : gmap string PullRequest := {[ "main" := Examples.ready1 ]} in
  outcome (@run host _ _ (@coordinate Examples.lib Examples.live_config ready) [])
  = Returned merged
  ∧ merged !! "main"
    = head (filter (λ p, baseRefName p = "main")
              (@iterations host _ _ _ ready ∅
                 (@merge_or_rebase Examples.lib Examples.live_config) []).*1).
Proof.
  intros host ready merged.
  assert (outcome (@run host _ _
                     (@coordinate Examples.lib Examples.live_config ready) [])
          = Returned merged) as Hret by (by vm_compute).
  split; [done|].
  apply (@X11_merged_at_the_end Examples.lib host Examples.live_config ready
           [] merged Hret).
Defined.

(** ** More on the listing *)

Section Listing.
Context `{PyLib} `{Host}.

(** What the body of the loop of [get_pull_requests] does when the view of
    the entry is answered and decoded. *)
Lemma run_get_pull_requests_body pr_dict view w :
  answers (view_cmd (item_number pr_dict))
    (λ s, json_loads_view s = Some view) →
  ∃ result w',
    run (get_pull_requests_body pr_dict) w =
    {| trace := [EvRun (view_cmd (item_number pr_dict)) (Some result);
                 EvPrint (pr_line (PullRequest_of pr_dict view))];
       yields := [PullRequest_of pr_dict view];
       outcome := Returned (); world := w' |}.
Proof.
  intros Hview. destruct (Hview w) as (result & w' & Hrun & Hrc & Hjson).
  exists result, w'.
  unfold get_pull_requests_body, mbind, Gen_bind.
  rewrite run_gbind, run_sh_live, Hrun.
  rewrite decide_False by (by intros ?).
  unfold and_then. simpl. by rewrite Hjson.
Qed.

Lemma run_for_list_get_pull_requests_body l (view_of : PrListItem → PrView) w :
  (∀ pr_dict, pr_dict ∈ l →
     answers (view_cmd (item_number pr_dict))
       (λ s, json_loads_view s = Some (view_of pr_dict))) →
  let r := run (for_list l get_pull_requests_body) w in
  yields r = (λ pr_dict, PullRequest_of pr_dict (view_of pr_dict)) <$> l
  ∧ commands_of (trace r) = (λ pr_dict, view_cmd (item_number pr_dict)) <$> l
  ∧ outcome r = Returned ().
Proof.
  revert w. induction l as [|pr_dict l IH]; intros w Hviews; [done|].
  cbv zeta. cbn [for_list]. rewrite run_gbind.
  destruct (run_get_pull_requests_body pr_dict (view_of pr_dict) w)
    as (result & w' & ->); [apply Hviews, list_elem_of_here|].
  unfold and_then. simpl.
  destruct (IH w') as (-> & -> & ->); [|done].
  intros ??. by apply Hviews, list_elem_of_further.
Qed.

End Listing.

(** X12: when the listing is answered and decoded, and the view of each of
    its entries is answered and decoded whenever it is asked for,
    [get_pull_requests] yields one pull request per entry of the listing,
    built from the entry and its view, in ascending order of number; it
    runs the listing and then one view per entry, in that order, and
    returns. *)
Theorem X12_every_listed_pr_is_yielded `{PyLib} `{Host}
    (items : list PrListItem) (view_of : PrListItem → PrView)
    (w : World) (result : CompletedProcess) (w' : World) :
  subprocess_run list_cmd w = (Some result, w') →
  returncode result = 0 →
  json_loads_prs (strip (stdout result)) = Some items →
  (∀ pr_dict, pr_dict ∈ items →
     answers (view_cmd (item_number pr_dict))
       (λ s, json_loads_view s = Some (view_of pr_dict))) →
  let r := run get_pull_requests w in
  yields r
  = (λ pr_dict, PullRequest_of pr_dict (view_of pr_dict))
    <$> sorted_by_number items
  ∧ commands_of (trace r)
    = list_cmd
      :: ((λ pr_dict, view_cmd (item_number pr_dict)) <$> sorted_by_number items)
  ∧ outcome r = Returned ()
  ∧ number <$> yields r ≡ₚ item_number <$> items
  ∧ StronglySorted Z.le (number <$> yields r).
Proof.
  intros Hrun Hrc Hjson Hviews r.
  assert (yields r
          = (λ pr_dict, PullRequest_of pr_dict (view_of pr_dict))
            <$> sorted_by_number items
          ∧ commands_of (trace r)
            = list_cmd
              :: ((λ pr_dict, view_cmd (item_number pr_dict))
                  <$> sorted_by_number items)
          ∧ outcome r = Returned ()) as (Hy & Hc & Ho).
  { unfold r, get_pull_requests, mbind, Gen_bind.
    rewrite run_gbind, run_sh_live, Hrun.
    rewrite decide_False by (by intros ?).
    unfold and_then. simpl. rewrite Hjson.
    destruct (run_for_list_get_pull_requests_body (sorted_by_number items)
                view_of w') as (-> & -> & ->); [|done].
    intros pr_dict Hin. apply Hviews.
    by rewrite <- (sorted_by_number_perm items). }
  split_and!; try done.
  - rewrite Hy, <- list_fmap_compose.
    by rewrite <- (sorted_by_number_perm items) at 2.
  - rewrite Hy, <- list_fmap_compose. apply sorted_by_number_sorted.
Qed.

(** On the example host the two listed pull requests, 5 and 7, are
    yielded. *)
Lemma X12_every_listed_pr_is_yielded_witness :
  let host := Examples.table_host Examples.answer_all in
  yields (@run host _ _ (@get_pull_requests Examples.lib) [])
  = [PullRequest_of Examples.item5 Examples.view_main;
     PullRequest_of Examples.item7 Examples.view_main].
Proof.
  intros host.
  destruct (@X12_every_listed_pr_is_yielded Examples.lib host
              [Examples.item5; Examples.item7] (λ _, Examples.view_main) []
              {| returncode := 0; stdout := "LIST" +:+ newline; stderr := "" |}
              [list_cmd] eq_refl eq_refl eq_refl) as (Hy & _); [|exact Hy].
  intros pr_dict Hin w.
  exists {| returncode := 0; stdout := "VIEW" +:+ newline; stderr := "" |},
    (view_cmd (item_number pr_dict) :: w).
  apply elem_of_cons in Hin as [->|Hin];
    [|apply list_elem_of_singleton in Hin as ->]; by vm_compute.
Defined.

(** X13: when the listing is empty, a whole run prints the required labels,
    runs the listing and returns: nothing else is printed or run.  When the
    listing cannot be decoded, the run ends there with the exception of the
    decoder. *)
Theorem X13_empty_or_undecodable_listing `{PyLib} `{Host} (cfg : Config)
    (w : World) (result : CompletedProcess) (w' : World) :
  subprocess_run list_cmd w = (Some result, w') →
  returncode result = 0 →
  let r := run (process_pull_requests cfg) w in
  (json_loads_prs (strip (stdout result)) = Some [] →
   r = {| trace := [EvPrint ("LABELS=" +:+ repr_list (LABELS cfg));
                    EvRun list_cmd (Some result)];
          yields := []; outcome := Returned (); world := w' |})
  ∧ (json_loads_prs (strip (stdout result)) = None →
     r = {| trace := [EvPrint ("LABELS=" +:+ repr_list (LABELS cfg));
                      EvRun list_cmd (Some result)];
            yields := []; outcome := Raised DecodeError; world := w' |}).
Proof.
  intros Hrun Hrc r. unfold r.
  unfold process_pull_requests, coordinate, ready_prs, check_prs_ready,
    mergeable_prs, match_labels_or_bot, get_pull_requests, mbind, Gen_bind.
  simpl. rewrite Hrun. rewrite decide_False by (by intros ?).
  split; intros Hjson; simpl; rewrite Hjson; reflexivity.
Qed.

(** On the host that answers the listing with the text of the empty
    listing, the run returns after the listing. *)
Lemma X13_empty_or_undecodable_listing_witness :
  @run ChecksExamples.echo_host _ _
    (@process_pull_requests ChecksExamples.lib default_config) "NONE"
  = {| trace := [EvPrint "LABELS=['automerge']";
                 EvRun list_cmd (Examples.ok "NONE")];
       yields := []; outcome := Returned (); world := "NONE" |}.
Proof.
  destruct (@X13_empty_or_undecodable_listing ChecksExamples.lib
              ChecksExamples.echo_host default_config "NONE"
              {| returncode := 0; stdout := "NONE"; stderr := "" |} "NONE"
              eq_refl eq_refl) as (Hempty & _).
  apply Hempty. reflexivity.
Defined.

(** ** One pull request at a time *)

(** *** The number in a command *)

Lemma space_free_nil : space_free "".
Proof. unfold space_free. simpl. apply not_elem_of_nil. Qed.

Lemma space_free_String c s :
  space_free (String c s) ↔ c ≠ " "%char ∧ space_free s.
Proof.
  unfold space_free. simpl. rewrite not_elem_of_cons. naive_solver.
Qed.

Lemma space_free_pretty_N_go x s : space_free s → space_free (pretty_N_go x s).
Proof.
  revert s. induction (N.lt_wf_0 x) as [x _ IH]; intros s Hs.
  assert (x = 0 ∨ 0 < x)%N as [->|?] by lia.
  - by rewrite pretty_N_go_0.
  - rewrite pretty_N_go_step by done. apply IH.
    { by apply N.div_lt. }
    apply space_free_String. split; [|done].
    unfold pretty_N_char. by repeat case_match.
Qed.

Lemma space_free_pretty_N (x : N) : space_free (pretty x).
Proof.
  unfold pretty, pretty_N. case_decide.
  - apply space_free_String. split; [done|apply space_free_nil].
  - apply space_free_pretty_N_go, space_free_nil.
Qed.

Lemma space_free_pretty (n : Z) : space_free (pretty n).
Proof.
  destruct n as [|p|p]; unfold pretty, pretty_Z.
  - apply space_free_String. split; [done|apply space_free_nil].
  - apply space_free_pretty_N.
  - simpl. apply space_free_String. split; [done|apply space_free_pretty_N].
Qed.

(** Two strings without spaces, each followed by a space and more, are
    equal if the whole texts are. *)
Lemma cut_at_space s1 s2 t1 t2 :
  space_free s1 → space_free s2 →
  s1 +:+ String " " t1 = s2 +:+ String " " t2 → s1 = s2.
Proof.
  revert s2. induction s1 as [|c s1 IH]; intros [|c' s2] H1 H2; simpl.
  - done.
  - intros [= <- _]. by apply space_free_String in H2 as [? _].
  - intros [= -> _]. by apply space_free_String in H1 as [? _].
  - intros [= <- Heq]. f_equal.
    apply space_free_String in H1 as [_ H1].
    apply space_free_String in H2 as [_ H2]. by apply IH.
Qed.

(** A command is about one pull request only. *)
Lemma about_inj n n' cmd : about n cmd → about n' cmd → n = n'.
Proof.
  assert (∀ t t', pretty n +:+ String " " t = pretty n' +:+ String " " t' →
                  n = n') as Hcut.
  { intros t t' Heq. apply (inj pretty).
    eapply cut_at_space; [apply space_free_pretty..|done]. }
  unfold about, view_cmd, checks_cmd, merge_cmd, rebase_cmd, review_cmd.
  intros [-> | [-> | [-> | [-> | [msg ->]]]]]
    [Heq | [Heq | [Heq | [Heq | [msg' Heq]]]]];
    simpl in Heq; try discriminate; simplify_eq/=; by eapply Hcut.
Qed.

(** *** Computations about one pull request, computations in order *)

Lemma Ascending_mono {Y R} (key : Y → Z) lo lo' (g : Gen Y R) :
  lo' <= lo → Ascending key lo g → Ascending key lo' g.
Proof.
  intros Hle Hg. revert lo' Hle.
  induction Hg as [lo r|lo e|lo y k Hy Hk IH|lo line k Hk IH
                   |lo cmd k n Hcmd Hn Hk IH]; intros lo' Hle.
  - constructor.
  - constructor.
  - constructor; [lia|done].
  - constructor. by apply IH.
  - econstructor; [done|lia|done].
Qed.

Lemma Only_gbind {Y R R'} (key : Y → Z) n (m : Gen Y R) (f : R → Gen Y R') :
  Only key n m → (∀ r, Only key n (f r)) → Only key n (gbind m f).
Proof. intros Hm Hf. induction Hm; simpl; try constructor; auto. Qed.

Lemma Only_gbind_Ascending {Y R R'} (key : Y → Z) n lo
    (m : Gen Y R) (f : R → Gen Y R') :
  Only key n m → lo <= n → (∀ r, Ascending key n (f r)) →
  Ascending key lo (gbind m f).
Proof.
  intros Hm Hlo Hf. revert lo Hlo.
  induction Hm as [r|e|y k Hy Hk IH|line k Hk IH|cmd k Hcmd Hk IH];
    intros lo Hlo; simpl.
  - by eapply Ascending_mono.
  - constructor.
  - constructor; [lia|]. apply IH. lia.
  - constructor. by apply IH.
  - econstructor; [done..|]. intros res. by apply IH.
Qed.

Lemma Ascending_gbind_Ret {Y R R'} (key : Y → Z) lo (m : Gen Y R)
    (f : R → R') :
  Ascending key lo m → Ascending key lo (gbind m (λ r, Ret (f r))).
Proof. induction 1; simpl; econstructor; eauto. Qed.

Lemma Only_for_each {Y Y' S} (key : Y → Z) (key' : Y' → Z) n
    (g : Gen Y unit) (s : S) (body : Y → S → Gen Y' S) :
  Only key n g → (∀ y s', Only key' (key y) (body y s')) →
  Only key' n (for_each g s body).
Proof.
  intros Hg Hbody. revert s.
  induction Hg as [r|e|y k Hy Hk IH|line k Hk IH|cmd k Hcmd Hk IH];
    intros s; simpl; try (constructor; auto; fail).
  apply Only_gbind; [|done]. rewrite <- Hy. apply Hbody.
Qed.

(** A loop whose body deals with the pull request it is given keeps the
    order of its generator. *)
Lemma Ascending_for_each {Y Y' S} (key : Y → Z) (key' : Y' → Z) lo
    (g : Gen Y unit) (s : S) (body : Y → S → Gen Y' S) :
  Ascending key lo g → (∀ y s', Only key' (key y) (body y s')) →
  Ascending key' lo (for_each g s body).
Proof.
  intros Hg Hbody. revert s.
  induction Hg as [lo r|lo e|lo y k Hy Hk IH|lo line k Hk IH
                   |lo cmd k n Hcmd Hn Hk IH];
    intros s; simpl; try (econstructor; eauto; fail).
  eapply Only_gbind_Ascending; [apply Hbody|done|]. intros s'. apply IH.
Qed.

(** A loop over a list in ascending order whose body deals with the entry
    it is given is in order. *)
Lemma Ascending_for_list {A Y} (key : Y → Z) (num : A → Z) lo (l : list A)
    (body : A → Gen Y unit) :
  StronglySorted (λ a b, num a <= num b) l →
  Forall (λ a, lo <= num a) l →
  (∀ a, Only key (num a) (body a)) →
  Ascending key lo (for_list l body).
Proof.
  intros Hsorted Hlo Hbody. revert lo Hlo.
  induction Hsorted as [|a l Hl IH Ha]; intros lo Hlo; simpl; [constructor|].
  apply Forall_cons in Hlo as [Hlo _].
  eapply Only_gbind_Ascending; [apply Hbody|done|]. intros _. by apply IH.
Qed.

Lemma Only_sh {Y} (key : Y → Z) n cmd dry_run :
  about n cmd → Only key n (@sh Y cmd dry_run).
Proof.
  intros Hcmd. unfold sh. destruct dry_run.
  - constructor. constructor.
  - constructor; [done|]. intros res. case_decide; constructor.
Qed.

Section AscendingPipeline.
Context `{PyLib}.
Variable cfg : Config.

Lemma Only_get_pull_requests_body pr_dict :
  Only number (item_number pr_dict) (get_pull_requests_body pr_dict).
Proof.
  unfold get_pull_requests_body, mbind, Gen_bind.
  apply Only_gbind; [apply Only_sh; by left|].
  intros view_json. case_match; by repeat constructor.
Qed.

Lemma Only_match_labels_or_bot_body pr u :
  Only number (number pr) (match_labels_or_bot_body cfg pr u).
Proof.
  unfold match_labels_or_bot_body. repeat case_match; by repeat constructor.
Qed.

Lemma Only_mergeable_prs_body pr u :
  Only number (number pr) (mergeable_prs_body pr u).
Proof. unfold mergeable_prs_body. case_match; by repeat constructor. Qed.

Lemma Only_check_prs_ready_body pr u :
  Only number (number pr) (check_prs_ready_body cfg pr u).
Proof.
  unfold check_prs_ready_body, mbind, Gen_bind.
  apply Only_gbind; [apply Only_sh; right; by left|].
  intros checks_json. repeat case_match; by repeat constructor.
Qed.

Lemma Only_merge_or_rebase pr merged :
  Only no_key (number pr) (merge_or_rebase cfg pr merged).
Proof.
  unfold merge_or_rebase. destruct (merged !! baseRefName pr) as [p|].
  - unfold rebase_pr, mbind, Gen_bind.
    apply Only_gbind; [|intros; constructor]. constructor.
    apply Only_gbind; [|intros; constructor].
    apply Only_sh. unfold about. eauto 10.
  - unfold approve_and_merge_pr. constructor.
    destruct (str_format _ _) as [msg|]; [|constructor].
    unfold mbind, Gen_bind.
    apply Only_gbind; [apply Only_sh; unfold about; eauto 10|]. intros _.
    apply Only_gbind; [apply Only_sh; unfold about; eauto 10|]. intros _.
    apply Only_gbind; [|intros; constructor].
    destruct (negb _); repeat constructor.
Qed.

Lemma sorted_by_number_entries l :
  StronglySorted (λ a b, item_number a <= item_number b) (sorted_by_number l).
Proof.
  unfold sorted_by_number.
  induction l; simpl; [constructor|by apply insert_by_number_sorted].
Qed.

(** What [get_pull_requests] does once the listing is decoded. *)
Lemma Ascending_entries prs_list :
  ∃ lo, Ascending number lo
          (for_list (sorted_by_number prs_list) get_pull_requests_body).
Proof.
  pose proof (sorted_by_number_entries prs_list) as Hsorted.
  destruct (sorted_by_number prs_list) as [|a l].
  - exists 0. constructor.
  - exists (item_number a).
    apply (Ascending_for_list number item_number); [done| |].
    + apply StronglySorted_inv in Hsorted as [_ Ha].
      apply Forall_cons. split; [lia|done].
    + apply Only_get_pull_requests_body.
Qed.

End AscendingPipeline.

Section AscendingRun.
Context `{Host}.

(** The commands of a run of a computation in order are about pull
    requests whose numbers never decrease. *)
Lemma Ascending_commands {Y R} (key : Y → Z) lo (g : Gen Y R) w :
  Ascending key lo g →
  ∃ ns, Forall2 about ns (commands_of (trace (run g w)))
        ∧ StronglySorted Z.le ns ∧ Forall (λ n, lo <= n) ns.
Proof.
  intros Hg. revert w.
  induction Hg as [lo r|lo e|lo y k Hy Hk IH|lo line k Hk IH
                   |lo cmd k n Hcmd Hn Hk IH]; intros w; simpl.
  - exists []. by repeat constructor.
  - exists []. by repeat constructor.
  - destruct (IH w) as (ns & Hns & Hs & Hlo). exists ns. split_and!; [done..|].
    eapply Forall_impl; [done|]. simpl. lia.
  - apply IH.
  - destruct (subprocess_run cmd w) as [[res|] w']; simpl.
    + destruct (IH res w') as (ns & Hns & Hs & Hlo). exists (n :: ns).
      split_and!.
      * by constructor.
      * by constructor.
      * constructor; [done|]. eapply Forall_impl; [done|]. simpl. lia.
    + exists [n]. split_and!.
      * constructor; [done|constructor].
      * constructor; constructor.
      * constructor; [done|constructor].
Qed.

End AscendingRun.

(** The loops of the stages and of [process_pull_requests], one inside the
    other, keep the order of the generator they start from. *)
Lemma Ascending_loops `{PyLib} (cfg : Config) lo (g : Gen PullRequest unit) :
  Ascending number lo g →
  Ascending no_key lo
    (gbind
       (for_each
          (for_each
             (for_each (for_each g () (match_labels_or_bot_body cfg))
                () mergeable_prs_body)
             () (check_prs_ready_body cfg))
          ∅ (merge_or_rebase cfg))
       (λ _, Ret ())).
Proof.
  intros Hg. apply Ascending_gbind_Ret.
  apply (Ascending_for_each number); [|apply Only_merge_or_rebase].
  apply (Ascending_for_each number); [|apply Only_check_prs_ready_body].
  apply (Ascending_for_each number); [|apply Only_mergeable_prs_body].
  apply (Ascending_for_each number); [done|apply Only_match_labels_or_bot_body].
Qed.

(** X14: a run deals with one pull request at a time, in ascending order of
    number.  The first command is the listing; each command after it is a
    view, a fetch of checks, an approval, a merge or a rebase of one pull
    request, and along the run the numbers of these pull requests never
    decrease: once a command about a pull request has been run, no command
    about a pull request with a smaller number follows.  So a pull request
    is viewed only after the pull requests before it have been merged or
    rebased. *)
Theorem X14_one_pull_request_at_a_time `{PyLib} `{Host} (cfg : Config)
    (w : World) :
  let cmds := commands_of (trace (run (process_pull_requests cfg) w)) in
  head cmds = Some list_cmd
  ∧ (∃ ns, Forall2 about ns (tail cmds) ∧ StronglySorted Z.le ns)
  ∧ (∀ n n' cmd, about n cmd → about n' cmd → n = n')
  ∧ (∀ n, ¬ about n list_cmd).
Proof.
  intros cmds.
  assert (∀ n, ¬ about n list_cmd) as Hlist.
  { unfold about, list_cmd, view_cmd, checks_cmd, merge_cmd, rebase_cmd,
      review_cmd.
    intros n [Heq | [Heq | [Heq | [Heq | [msg Heq]]]]]; simpl in Heq;
      discriminate. }
  assert (head cmds = Some list_cmd
          ∧ ∃ ns, Forall2 about ns (tail cmds) ∧ StronglySorted Z.le ns)
    as [Hhead Htail]; [|by eauto using about_inj].
  unfold cmds, process_pull_requests, coordinate, ready_prs, check_prs_ready,
    mergeable_prs, match_labels_or_bot, get_pull_requests, mbind, Gen_bind.
  cbn [for_each gbind sh run trace after app commands_of omap].
  destruct (subprocess_run list_cmd w) as [[res|] w'];
    cbn [for_each gbind sh run trace after app commands_of omap head tail].
  - split; [done|].
    assert (∃ lo, Ascending number lo
              (if decide (returncode res ≠ 0)
               then Raise (Exception (sh_error list_cmd res))
               else match json_loads_prs (strip (stdout res)) with
                    | Some prs_list =>
                        for_list (sorted_by_number prs_list)
                          get_pull_requests_body
                    | None => Raise DecodeError
                    end)) as [lo Hg].
    { case_decide; [exists 0; constructor|].
      destruct (json_loads_prs _); [apply Ascending_entries|].
      exists 0. constructor. }
    apply (Ascending_loops cfg) in Hg.
    destruct (Ascending_commands no_key lo _ w' Hg) as (ns & Hns & Hs & _).
    exists ns. split; [|done].
    revert Hns. by case_decide.
  - split; [done|]. exists []. split; constructor.
Qed.

(** ** Which checks are fetched *)

Section LoopCommands.
Context `{Host}.

(** A command run by a loop is run by its generator or by its body, on a
    value that the loop went through. *)
Lemma for_run_commands {Y Y' S} (P : string → Prop) (Q : Y → string → Prop)
    (g : Gen Y unit) (s : S) (body : Y → S → Gen Y' S) w cmd res :
  ShOnly P g → (∀ y s', ShOnly (Q y) (body y s')) →
  EvRun cmd res ∈ trace (for_run g s body w).2 →
  P cmd ∨ ∃ y, y ∈ (for_run g s body w).1.*1 ∧ Q y cmd.
Proof.
  intros Hg Hbody. revert s w.
  induction Hg as [| |y k Hk IH|line k Hk IH|c k HP Hfail Hk IH];
    intros s w; simpl.
  - by intros ?%elem_of_nil.
  - by intros ?%elem_of_nil.
  - destruct (outcome (run (body y s) w)) as [s'|e].
    + specialize (IH s' (world (run (body y s) w))).
      destruct (for_run k s' body _) as [its r']. simpl in *.
      rewrite elem_of_app. intros [Hin|Hin].
      * right. exists y. split; [apply list_elem_of_here|].
        by apply (ShOnly_trace _ _ _ _ _ (Hbody y s)) in Hin.
      * destruct (IH Hin) as [?|(y' & Hy' & HQ)]; [by left|].
        right. exists y'. split; [by apply list_elem_of_further|done].
    + simpl. intros Hin. right. exists y. split; [apply list_elem_of_here|].
      by apply (ShOnly_trace _ _ _ _ _ (Hbody y s)) in Hin.
  - specialize (IH s w). destruct (for_run k s body w) as [its r]. simpl in *.
    rewrite elem_of_cons. intros [?|Hin]; [done|]. by apply IH.
  - destruct (subprocess_run c w) as [[r|] w']; simpl.
    + specialize (IH r s w').
      destruct (for_run (k r) s body w') as [its r']. simpl in *.
      rewrite elem_of_cons. intros [[= -> ->]|Hin]; [by left|]. by apply IH.
    + rewrite list_elem_of_singleton. intros [= -> ->]. by left.
Qed.

(** A loop whose body starts with a command runs it for every value it
    goes through. *)
Lemma for_run_body_command {Y Y' S} (cmd_of : Y → string)
    (g : Gen Y unit) (s : S) (body : Y → S → Gen Y' S) w y :
  (∀ y s' w', ∃ res, EvRun (cmd_of y) res ∈ trace (run (body y s') w')) →
  y ∈ (for_run g s body w).1.*1 →
  ∃ res, EvRun (cmd_of y) res ∈ trace (for_run g s body w).2.
Proof.
  intros Hbody. revert s w.
  induction g as [r|e|y' k IH|line k IH|c k IH]; intros s w; simpl.
  - by intros ?%elem_of_nil.
  - by intros ?%elem_of_nil.
  - destruct (Hbody y' s w) as [res Hres].
    destruct (outcome (run (body y' s) w)) as [s'|e].
    + specialize (IH s' (world (run (body y' s) w))).
      destruct (for_run k s' body _) as [its r']. simpl in *.
      rewrite elem_of_cons. intros [->|Hin].
      * exists res. apply elem_of_app. by left.
      * destruct (IH Hin) as [res' Hres']. exists res'.
        apply elem_of_app. by right.
    + simpl. rewrite list_elem_of_singleton. intros ->. by exists res.
  - specialize (IH s w). destruct (for_run k s body w) as [its r]. simpl in *.
    intros Hin. destruct (IH Hin) as [res Hres]. exists res.
    by apply list_elem_of_further.
  - destruct (subprocess_run c w) as [[r|] w']; simpl.
    + specialize (IH r s w').
      destruct (for_run (k r) s body w') as [its r']. simpl in *.
      intros Hin. destruct (IH Hin) as [res Hres]. exists res.
      by apply list_elem_of_further.
    + by intros ?%elem_of_nil.
Qed.

End LoopCommands.

Section Fetch.
Context `{PyLib} `{Host}.
Variable cfg : Config.

Lemma ShOnly_list_or_view :
  ShOnly (λ c, c = list_cmd ∨ ∃ n, c = view_cmd n)
    (mergeable_prs (match_labels_or_bot cfg get_pull_requests)).
Proof.
  apply ShOnly_mergeable_prs, ShOnly_match_labels_or_bot.
  unfold get_pull_requests, get_pull_requests_body. sh_only; eauto.
Qed.

Lemma ShOnly_check_prs_ready_body pr u :
  ShOnly (λ c, c = checks_cmd (number pr)) (check_prs_ready_body cfg pr u).
Proof. unfold check_prs_ready_body. sh_only; eauto. Qed.

Lemma check_prs_ready_body_command pr u w :
  ∃ res, EvRun (checks_cmd (number pr)) res
         ∈ trace (run (check_prs_ready_body cfg pr u) w).
Proof.
  unfold check_prs_ready_body, mbind, Gen_bind.
  rewrite run_gbind, run_sh_live.
  destruct (subprocess_run _ w) as [[result|] w']; unfold and_then; simpl.
  - exists (Some result). case_decide; simpl; apply list_elem_of_here.
  - exists None. apply list_elem_of_here.
Qed.

End Fetch.

(** X15: the checks of a pull request are fetched only when they are
    needed.  In a run of the chain of generators, a fetch of the checks of
    number [n] is run only for a pull request with that number that the
    label-or-bot stage and the mergeability stage have both let through,
    and for each of these the fetch is run. *)
Theorem X15_checks_fetched_when_needed `{PyLib} `{Host} (cfg : Config)
    (w : World) :
  let checked :=
    (iterations (mergeable_prs (match_labels_or_bot cfg get_pull_requests))
       () (check_prs_ready_body cfg) w).*1 in
  (∀ n res,
     EvRun (checks_cmd n) res ∈ trace (run (ready_prs cfg) w) →
     ∃ pr, pr ∈ checked ∧ number pr = n)
  ∧ (∀ pr, pr ∈ checked →
       label_or_bot_ok cfg pr ∧ mergeable pr = "MERGEABLE"
       ∧ ∃ res, EvRun (checks_cmd (number pr)) res
                ∈ trace (run (ready_prs cfg) w)).
Proof.
  intros checked.
  assert (run (ready_prs cfg) w
          = (for_run (mergeable_prs (match_labels_or_bot cfg get_pull_requests))
               () (check_prs_ready_body cfg) w).2) as Hrun
    by (by rewrite for_run_run).
  split.
  - intros n res Hin. rewrite Hrun in Hin.
    eapply (for_run_commands _ (λ pr c, c = checks_cmd (number pr))) in Hin;
      [|apply ShOnly_list_or_view
       |intros pr u; apply (ShOnly_check_prs_ready_body cfg pr u)].
    destruct Hin as [[Heq|[n' Heq]]|(pr & Hpr & Heq)].
    + unfold checks_cmd, list_cmd in Heq. simpl in Heq. discriminate.
    + unfold checks_cmd, view_cmd in Heq. simpl in Heq. discriminate.
    + exists pr. split; [done|].
      apply (about_inj _ _ (checks_cmd n)); unfold about; [rewrite Heq|]; eauto.
  - intros pr Hpr. 
    assert (Forall (λ pr, label_or_bot_ok cfg pr ∧ mergeable pr = "MERGEABLE")
              checked) as Hok.
    { pose proof (yield_path_iterations
                    (mergeable_prs (match_labels_or_bot cfg get_pull_requests))
                    () (check_prs_ready_body cfg) w) as Hp.
      revert Hp. fold checked. generalize checked. intros ys.
      unfold mergeable_prs.
      apply (yield_path_for_each_Forall (label_or_bot_ok cfg)).
      - unfold match_labels_or_bot. intros ys' Hp%yield_path_Print_inv.
        eapply (yield_path_for_each_Forall (λ _, True)); [| |exact Hp].
        + intros. by apply Forall_true.
        + intros. by eapply yield_path_label_ok.
      - intros. by eapply yield_path_mergeable_ok. }
    rewrite Forall_forall in Hok. destruct (Hok pr Hpr) as [Hl Hm].
    split_and!; [done..|]. rewrite Hrun.
    apply (for_run_body_command (λ pr, checks_cmd (number pr))); [|done].
    intros. apply check_prs_ready_body_command.
Qed.

(** ** Which pull requests are changed *)

Lemma ShOnly_changes `{PyLib} (cfg : Config) pr merged :
  ShOnly (λ c, DRY_RUN cfg = false ∧ changes pr c)
    (merge_or_rebase cfg pr merged).
Proof.
  unfold merge_or_rebase, approve_and_merge_pr, rebase_pr, changes.
  sh_only; (split; [done|]); eauto.
Qed.

(** X16: whatever the host answers, a run approves, merges or rebases only
    pull requests that the three stages have let through, and only in live
    mode: every command of the run that changes a pull request is an
    approval, a merge or a rebase of a pull request that went through the
    loop of [process_pull_requests], which satisfies the label-or-bot
    condition, is mergeable and has its checks attached, none of them
    failed, pending or cancelled and at least [MIN_PASSING_CHECKS] passed. *)
Theorem X16_only_eligible_are_changed `{PyLib} `{Host} (cfg : Config)
    (w : World) (cmd : string) (res : option CompletedProcess) :
  EvRun cmd res ∈ trace (run (process_pull_requests cfg) w) →
  is_mutation cmd →
  DRY_RUN cfg = false
  ∧ ∃ pr, pr ∈ (iterations (ready_prs cfg) ∅ (merge_or_rebase cfg) w).*1
          ∧ changes pr cmd ∧ eligible cfg pr.
Proof.
  intros Hin Hmut.
  assert (trace (run (process_pull_requests cfg) w)
          = trace (for_run (ready_prs cfg) ∅ (merge_or_rebase cfg) w).2)
    as Htrace.
  { rewrite for_run_run. unfold process_pull_requests, mbind, Gen_bind.
    rewrite run_gbind. fold (coordinate cfg (ready_prs cfg)).
    unfold and_then.
    destruct (outcome (run (coordinate cfg (ready_prs cfg)) w)); simpl;
      by rewrite ?app_nil_r. }
  rewrite Htrace in Hin.
  eapply (for_run_commands is_query (λ pr c, DRY_RUN cfg = false ∧ changes pr c))
    in Hin; [|apply ShOnly_ready_prs|intros; apply ShOnly_changes].
  destruct Hin as [Hq|(pr & Hpr & Hlive & Hch)].
  { by destruct (is_query_not_mutation cmd Hq). }
  split; [done|]. exists pr. split_and!; [done..|].
  pose proof (yield_path_iterations (ready_prs cfg) ∅ (merge_or_rebase cfg) w)
    as Hp.
  apply yield_path_ready_prs_eligible in Hp.
  rewrite Forall_forall in Hp. by apply Hp.
Qed.

(** In the live run of the examples the merge of pull request 5 is run:
    the run is live and pull request 5 went through the loop. *)
Lemma X16_only_eligible_are_changed_witness :
  let host := Examples.table_host Examples.answer_all in
  DRY_RUN Examples.live_config = false
  ∧ ∃ pr, pr ∈ (@iterations host _ _ _
                  (@ready_prs Examples.lib Examples.live_config) ∅
                  (@merge_or_rebase Examples.lib Examples.live_config) []).*1
          ∧ changes pr (merge_cmd 5) ∧ eligible Examples.live_config pr.
Proof.
  intros host.
  apply (@X16_only_eligible_are_changed Examples.lib host Examples.live_config
           [] (merge_cmd 5) (Examples.ok "")).
  - apply (list_elem_of_lookup_2 _ 9%nat). by vm_compute.
  - exists 5. by left.
Defined.
